(** * Swarm consensus core: a shallow embedding and its properties

    The development embeds the consensus engine of
    [core-swarm-engine/coordination/AdvancedSwarmConsensus.ts] and the two
    [SwarmManager] routines listed in the technical documentation
    ([applyConsensus], [selectIntelligently]).

    JavaScript numbers are IEEE 754 binary64 values: they are modelled by Rocq's
    primitive [float], whose operations are the binary64 operations, so every
    score below is computed bit for bit as the engine computes it.  Quantities
    that are array lengths or occurrence counts stay natural numbers and are
    converted to a number where the code divides them.

    Layout: the model (part I), facts about binary64 and about the JavaScript
    primitives (part II), properties of the engine (part III) and of the two
    manager routines (part IV).  The model also covers the orchestrator of
    [core-swarm-engine/swarm-orchestrator/SwarmManager.ts], which drives the
    engine, and the documented manager's agent selection, task assignment and
    distributed tasks; parts V to VIII establish signs and bounds of binary64
    results, further properties of the engine, the behaviour of the
    orchestrator and that of the documented routines. *)

From Stdlib Require Import ZArith Lia Floats List String Ascii Bool Sorted Permutation.
From stdpp Require Import gmap strings list pretty.
Import ListNotations.
Set Warnings "-inexact-float,-register-all".

(* ===================================================================== *)
(** * Part I: the model *)
(* ===================================================================== *)

(** ** JavaScript primitives used by the engine *)

Module Js.
Local Open Scope float_scope.

(** Truthiness of a number: everything except [+0], [-0] and [NaN]. *)
Definition truthy (x : float) : bool := negb (is_nan x || is_zero x).

(** [m.get(k) || d]: the stored number when present and truthy, else [d]. *)
Definition or_else (v : option float) (d : float) : float :=
  match v with
  | Some x => if truthy x then x else d
  | None => d
  end.

(** [a > b] *)
Definition gt (a b : float) : bool := b <? a.

(** [Math.max(a, b)]: NaN if either is NaN, and [+0] is larger than [-0]. *)
Definition math_max (a b : float) : float :=
  if is_nan a || is_nan b then nan
  else if a <? b then b
  else if b <? a then a
  else if get_sign a then b else a.

(** [Math.min(a, b)]: NaN if either is NaN, and [-0] is smaller than [+0]. *)
Definition math_min (a b : float) : float :=
  if is_nan a || is_nan b then nan
  else if a <? b then a
  else if b <? a then b
  else if get_sign a then a else b.

(** An array length or a count, as a number. *)
Definition of_nat (n : nat) : float := of_uint63 (Uint63.of_Z (Z.of_nat n)).

(** [Array.prototype.sort(cmp)].  ECMAScript requires a stable sort; the
    comparator's result [v] orders [x] after [y] when [v > 0], before [y] when
    [v < 0], and leaves them tied otherwise (a NaN result counts as [0]).  The
    model is the stable insertion sort: an element is placed before the first
    element of the sorted rest that it does not have to follow.

    For a comparator that is consistent on the array, as
    [(a, b) => score(b) - score(a)] is when no score is NaN, this is the order
    every engine produces.  A comparator with NaN results is not consistent:
    ECMAScript then leaves the order to the engine, and the order of the model
    is one of those it allows, the one V8 produces on two elements but not on
    every longer array.  The theorems that read the order of a sorted array
    therefore assume scores that are not NaN. *)
Fixpoint insert_sorted {A} (cmp : A -> A -> float) (x : A) (l : list A) : list A :=
  match l with
  | [] => [x]
  | y :: l' => if 0 <? cmp x y then y :: insert_sorted cmp x l' else x :: l
  end.

Fixpoint sort {A} (cmp : A -> A -> float) (l : list A) : list A :=
  match l with
  | [] => []
  | x :: l' => insert_sorted cmp x (sort cmp l')
  end.

(** [l.slice(from, to)] for indices within [0 .. to]. *)
Definition slice {A} (from to : nat) (l : list A) : list A :=
  firstn (to - from) (skipn from l).

(** [l.slice(-n)]: the last [n] elements. *)
Definition slice_last {A} (n : nat) (l : list A) : list A :=
  skipn (length l - n) l.

(** A [Map<string, V>] whose iteration order matters: entries are kept in
    insertion order, and [set] on a present key keeps the key's position. *)
Fixpoint map_set {V} (k : string) (v : V) (m : list (string * V)) : list (string * V) :=
  match m with
  | [] => [(k, v)]
  | (k', v') :: m' =>
      if String.eqb k' k then (k, v) :: m' else (k', v') :: map_set k v m'
  end.

Fixpoint map_get {V} (k : string) (m : list (string * V)) : option V :=
  match m with
  | [] => None
  | (k', v') :: m' => if String.eqb k' k then Some v' else map_get k m'
  end.

(** [s.includes(t)] *)
Fixpoint includes (t s : string) : bool :=
  String.prefix t s ||
  match s with
  | EmptyString => false
  | String _ s' => includes t s'
  end.

(** [s.split(sep)[0]] *)
Fixpoint split_head (sep : ascii) (s : string) : string :=
  match s with
  | EmptyString => EmptyString
  | String c s' => if Ascii.eqb c sep then EmptyString else String c (split_head sep s')
  end.

(** Values of type [any] that the engine only passes around. *)
Inductive value :=
| Null
| Undefined
| Boolean (b : bool)
| Number (x : float)
| Str (s : string)
| Array (items : list value)
| Object (fields : list (string * value)).

Definition truthy_value (v : value) : bool :=
  match v with
  | Null | Undefined => false
  | Boolean b => b
  | Number x => truthy x
  | Str s => negb (String.eqb s EmptyString)
  | Array _ | Object _ => true
  end.

(** What a call does: it returns, or it throws. *)
Inductive error := TypeError (msg : string) | Error (msg : string) | SyntaxError (msg : string).

Inductive outcome (A : Type) :=
| Returned (a : A)
| Thrown (e : error).
Arguments Returned {A} a.
Arguments Thrown {A} e.

(** The value of a call that returned. *)
Definition returned {A} (o : outcome A) : option A :=
  match o with
  | Returned a => Some a
  | Thrown _ => None
  end.

End Js.

(** ** Data of [AdvancedSwarmConsensus.ts] *)

Module AgentBid.
Record t := {
  agentId : string;
  taskId : string;
  confidence : float;
  expertise : float;
  culturalRelevance : float;
  estimatedTime : float;
  resourceCost : float
}.
End AgentBid.

Module Adaptations.
Inductive formality := high | medium | low.
Inductive timePreference := punctual | flexible | relaxed.
Inductive communicationStyle := direct | indirect | high_context.
Inductive layout := rtl | ltr | vertical.
Record t := {
  language : string;
  formality_ : formality;
  timePreference_ : timePreference;
  communicationStyle_ : communicationStyle;
  agentExpertise : float;
  colorScheme : list string;
  layout_ : layout
}.
End Adaptations.

Module ConsensusResult.
Record t := {
  selectedAgent : string;
  consensusScore : float;
  minorityReports : list string;
  (** [None] is the empty object [{}]. *)
  culturalAdaptations : option Adaptations.t
}.
End ConsensusResult.

Module Proposal.
Record t := {
  agentId : string;
  proposal : Js.value;
  confidence : float
}.
End Proposal.

Module SwarmDecision.
Record t := {
  taskId : string;
  decision : Js.value;
  confidence : float;
  participatingAgents : list string;
  culturalContext : string
}.
End SwarmDecision.

Module Review.
Record t := {
  approved : bool;
  feedback : string;
  culturalScore : float
}.
End Review.

Module PeerReview.
Record t := {
  approved : bool;
  feedback : list string;
  culturalScore : float
}.
End PeerReview.

Module Plan.
Record t := {
  method : string;
  threshold : float;
  participants : list string
}.
End Plan.

Module Metrics.
Record t := {
  totalDecisions : nat;
  averageConfidence : float;
  culturalCoverage : nat
}.
End Metrics.

Inductive complexity := simple | moderate | complex.

(** ** The engine: its state and its methods *)

Module Engine.
Local Open Scope float_scope.
Local Open Scope string_scope.

Record state := {
  consensusThreshold : float;
  culturalWeights : gmap string float;
  agentExpertise : gmap string float;
  decisionHistory : list SwarmDecision.t
}.

(** [new AdvancedSwarmConsensus(threshold)] *)
Definition create (threshold : float) : state :=
  {| consensusThreshold := threshold;
     culturalWeights := ∅;
     agentExpertise := ∅;
     decisionHistory := [] |}.

(** A method is a function of the engine's state that returns or throws and
    leaves a state behind. *)
Definition method (A : Type) : Type := state -> Js.outcome A * state.

Definition ret {A} (a : A) : method A := fun s => (Js.Returned a, s).
Definition throw {A} (e : Js.error) : method A := fun s => (Js.Thrown e, s).
Definition bind {A B} (m : method A) (k : A -> method B) : method B :=
  fun s =>
    match m s with
    | (Js.Returned a, s') => k a s'
    | (Js.Thrown e, s') => (Js.Thrown e, s')
    end.
Definition read {A} (f : state -> A) : method A := fun s => (Js.Returned (f s), s).
Definition update (f : state -> state) : method unit := fun s => (Js.Returned tt, f s).

Notation "'let*' x ':=' m 'in' k" := (bind m (fun x => k))
  (at level 10, x name, m at level 200, k at level 200).

(** [this.culturalWeights.get(context) || d] and
    [this.agentExpertise.get(id) || d] *)
Definition culturalWeight (s : state) (context : string) (d : float) : float :=
  Js.or_else (culturalWeights s !! context) d.

Definition expertiseOf (s : state) (agent : string) (d : float) : float :=
  Js.or_else (agentExpertise s !! agent) d.

Definition calculateCompositeScore (s : state) (bid : AgentBid.t) (culturalContext : string)
  : float :=
  let culturalBonus := culturalWeight s culturalContext 1.0 in
  let expertiseBonus := expertiseOf s (AgentBid.agentId bid) 0.5 in
  AgentBid.confidence bid * 0.3 +
  AgentBid.expertise bid * 0.25 +
  AgentBid.culturalRelevance bid * 0.2 * culturalBonus +
  (1 / AgentBid.estimatedTime bid) * 0.15 +
  (1 / AgentBid.resourceCost bid) * 0.1 +
  expertiseBonus * 0.1.

(** A bid with its [compositeScore] field. *)
Definition scored : Type := AgentBid.t * float.

(** [(a, b) => b.compositeScore - a.compositeScore] *)
Definition byScoreDesc {A} (a b : A * float) : float := snd b - snd a.

Definition validateConsensus (s : state) (bids : list scored) (culturalContext : string)
  : float :=
  match bids with
  | [] => 0
  | _ =>
      let topScore := Js.or_else (snd <$> bids !! 0%nat) 0 in
      let secondScore := Js.or_else (snd <$> bids !! 1%nat) 0 in
      let scoreGap := topScore - secondScore in
      let culturalAlignment := culturalWeight s culturalContext 1.0 in
      Js.math_min (scoreGap * culturalAlignment) 1.0
  end.

Definition getCulturalFormality (context : string) : Adaptations.formality :=
  if Js.includes "japan" context || Js.includes "korea" context then Adaptations.high
  else if Js.includes "germany" context || Js.includes "uk" context then Adaptations.medium
  else Adaptations.low.

Definition getCulturalTimePreference (context : string) : Adaptations.timePreference :=
  if Js.includes "germany" context || Js.includes "japan" context then Adaptations.punctual
  else if Js.includes "spain" context || Js.includes "italy" context then Adaptations.flexible
  else Adaptations.relaxed.

Definition getCommunicationStyle (context : string) : Adaptations.communicationStyle :=
  if Js.includes "germany" context || Js.includes "netherlands" context then Adaptations.direct
  else if Js.includes "japan" context || Js.includes "korea" context then Adaptations.high_context
  else Adaptations.indirect.

Definition getCulturalColors (context : string) : list string :=
  if Js.includes "china" context then ["#DC143C"; "#FFD700"; "#000000"]
  else if Js.includes "india" context then ["#FF9933"; "#FFFFFF"; "#138808"]
  else ["#0066CC"; "#FFFFFF"; "#333333"].

Definition getCulturalLayout (context : string) : Adaptations.layout :=
  if Js.includes "arabic" context || Js.includes "hebrew" context then Adaptations.rtl
  else if Js.includes "japanese" context && Js.includes "traditional" context
  then Adaptations.vertical
  else Adaptations.ltr.

Definition generateCulturalAdaptations (s : state) (agent : string) (culturalContext : string)
  : Adaptations.t :=
  let head := Js.split_head "_" culturalContext in
  {| Adaptations.language := if String.eqb head "" then "en" else head;
     Adaptations.formality_ := getCulturalFormality culturalContext;
     Adaptations.timePreference_ := getCulturalTimePreference culturalContext;
     Adaptations.communicationStyle_ := getCommunicationStyle culturalContext;
     Adaptations.agentExpertise := expertiseOf s agent 0.5;
     Adaptations.colorScheme := getCulturalColors culturalContext;
     Adaptations.layout_ := getCulturalLayout culturalContext |}.

Section Rendering.
(** [Number.prototype.toString], used by the template strings. *)
Variable numberToString : float -> string.

Definition minorityReport (bid : scored) : string :=
  "Agent " ++ AgentBid.agentId (fst bid) ++ ": Alternative approach with "
  ++ numberToString (AgentBid.confidence (fst bid)) ++ " confidence".

Definition auctionBasedAllocation
  (taskId : string) (bids : list AgentBid.t) (culturalContext : string)
  : method ConsensusResult.t :=
  match bids with
  | [] =>
      ret {| ConsensusResult.selectedAgent := "default";
             ConsensusResult.consensusScore := 0;
             ConsensusResult.minorityReports := [];
             ConsensusResult.culturalAdaptations := None |}
  | _ =>
      let* scoredBids := read (fun s =>
        Js.sort byScoreDesc
          (map (fun bid => (bid, calculateCompositeScore s bid culturalContext)) bids)) in
      let topBid :=
        match scoredBids with
        | top :: _ => AgentBid.agentId (fst top)
        | [] => "default"
        end in
      let* consensusScore := read (fun s => validateConsensus s scoredBids culturalContext) in
      let minorityReports :=
        map minorityReport
          (List.filter (fun bid => Js.gt (snd bid) 0.6) (Js.slice 1 4 scoredBids)) in
      let* adaptations := read (fun s => generateCulturalAdaptations s topBid culturalContext) in
      ret {| ConsensusResult.selectedAgent := topBid;
             ConsensusResult.consensusScore := consensusScore;
             ConsensusResult.minorityReports := minorityReports;
             ConsensusResult.culturalAdaptations := Some adaptations |}
  end.
End Rendering.

(** The weight the voting loop stores for a proposal. *)
Definition adjustedWeight (s : state) (culturalContext : string) (p : Proposal.t) : float :=
  let expertise := expertiseOf s (Proposal.agentId p) 0.5 in
  let culturalWeight := culturalWeight s culturalContext 1.0 in
  expertise * culturalWeight * Proposal.confidence p.

(** The [votes] map after the loop over the proposals. *)
Definition collectVotes (s : state) (culturalContext : string) (proposals : list Proposal.t)
  : list (string * float) :=
  fold_left
    (fun votes p => Js.map_set (Proposal.agentId p) (adjustedWeight s culturalContext p) votes)
    proposals [].

(** [expertiseWeightedVoting]; [now] is the value [Date.now()] returns. *)
Definition expertiseWeightedVoting
  (now : Z) (proposals : list Proposal.t) (culturalContext : string)
  : method SwarmDecision.t :=
  match proposals with
  | [] =>
      ret {| SwarmDecision.taskId := "decision_" ++ pretty now;
             SwarmDecision.decision := Js.Null;
             SwarmDecision.confidence := 0;
             SwarmDecision.participatingAgents := [];
             SwarmDecision.culturalContext := culturalContext |}
  | _ =>
      let* votes := read (fun s => collectVotes s culturalContext proposals) in
      let totalWeight := fold_left (fun sum weight => sum + weight) (map snd votes) 0 in
      let sortedVotes := Js.sort byScoreDesc votes in
      let winner := match sortedVotes with w :: _ => w | [] => ("", 0) end in
      let consensusStrength :=
        if Js.gt totalWeight 0 then snd winner / totalWeight else 0 in
      let chosen :=
        match find (fun p => String.eqb (Proposal.agentId p) (fst winner)) proposals with
        | Some p => if Js.truthy_value (Proposal.proposal p) then Proposal.proposal p else Js.Null
        | None => Js.Null
        end in
      let decision :=
        {| SwarmDecision.taskId := "decision_" ++ pretty now;
           SwarmDecision.decision := chosen;
           SwarmDecision.confidence := consensusStrength;
           SwarmDecision.participatingAgents := map Proposal.agentId proposals;
           SwarmDecision.culturalContext := culturalContext |} in
      let* _ := update (fun s =>
        {| consensusThreshold := consensusThreshold s;
           culturalWeights := culturalWeights s;
           agentExpertise := agentExpertise s;
           decisionHistory := decisionHistory s ++ [decision] |}) in
      ret decision
  end.

(** [simulateReview]: [contentSize] is [JSON.stringify(content).length], or
    [None] when [content] is falsy, and [draw] is the value [Math.random()]
    returns. *)
Definition simulateReview (s : state) (contentSize : option nat)
  (reviewerId culturalContext : string) (draw : float) : Review.t :=
  let expertise := expertiseOf s reviewerId 0.5 in
  let culturalWeight := culturalWeight s culturalContext 1.0 in
  let contentComplexity :=
    match contentSize with
    | Some n => Js.of_nat n / 1000
    | None => 1
    end in
  let approvalProbability := (expertise * culturalWeight) / (1 + contentComplexity * 0.1) in
  let approved := (draw <? approvalProbability)%float in
  let culturalScore := expertise * culturalWeight in
  {| Review.approved := approved;
     Review.feedback :=
       if approved then "Approved with minor suggestions" else "Requires cultural adaptation";
     Review.culturalScore := culturalScore |}.

(** [peerReviewConsensus]; [draws i] is the value of the [i]-th call of
    [Math.random()], one call per reviewer, in the order of the reviewers. *)
Definition peerReviewConsensus (contentSize : option nat) (reviewers : list string)
  (culturalContext : string) (draws : nat -> float) : method PeerReview.t :=
  read (fun s =>
    let reviews :=
      imap (fun i reviewerId => simulateReview s contentSize reviewerId culturalContext (draws i))
        reviewers in
    let approvalRate :=
      Js.of_nat (length (List.filter Review.approved reviews)) / Js.of_nat (length reviews) in
    let culturalScore :=
      fold_left (fun sum r => sum + Review.culturalScore r) reviews 0
      / Js.of_nat (length reviews) in
    let feedback :=
      map Review.feedback
        (List.filter (fun r => negb (String.eqb (Review.feedback r) "")) reviews) in
    {| PeerReview.approved := (consensusThreshold s <=? approvalRate)%float;
       PeerReview.feedback := feedback;
       PeerReview.culturalScore := culturalScore |}).

(** The score both expert selectors rank by. *)
Definition expertRank (s : state) (culturalContext : string) (agent : string) : float :=
  expertiseOf s agent 0 * culturalWeight s culturalContext 1.

(** [agents.reduce((best, current) => ...)] with no initial value. *)
Definition selectTopExpert (s : state) (agents : list string) (culturalContext : string)
  : Js.outcome string :=
  match agents with
  | [] => Js.Thrown (Js.TypeError "Reduce of empty array with no initial value")
  | first :: rest =>
      Js.Returned
        (fold_left
           (fun best current =>
              let currentScore := expertRank s culturalContext current in
              let bestScore := expertRank s culturalContext best in
              if Js.gt currentScore bestScore then current else best)
           rest first)
  end.

Definition selectTopExperts (s : state) (agents : list string) (culturalContext : string)
  (count : nat) : list string :=
  map fst
    (Js.slice 0 count
       (Js.sort byScoreDesc
          (map (fun agent => (agent, expertRank s culturalContext agent)) agents))).

Definition adaptiveConsensus
  (taskComplexity : complexity) (agents : list string) (culturalContext : string)
  : method Plan.t :=
  match taskComplexity with
  | simple =>
      let* top := (fun s => (selectTopExpert s agents culturalContext, s)) in
      ret {| Plan.method := "single_expert"; Plan.threshold := 0.6;
             Plan.participants := [top] |}
  | moderate =>
      let* experts := read (fun s => selectTopExperts s agents culturalContext 3) in
      ret {| Plan.method := "expertise_weighted"; Plan.threshold := 0.7;
             Plan.participants := experts |}
  | complex =>
      ret {| Plan.method := "full_swarm_consensus"; Plan.threshold := 0.8;
             Plan.participants := agents |}
  end.

(** The value [updateAgentExpertise] stores. *)
Definition blendedExpertise (s : state) (agentId : string) (performance : float) : float :=
  let current := expertiseOf s agentId 0.5 in
  let updated := (current * 0.8) + (performance * 0.2) in
  Js.math_max 0.1 (Js.math_min 1.0 updated).

Definition updateAgentExpertise (agentId : string) (performance : float) : method unit :=
  update (fun s =>
    {| consensusThreshold := consensusThreshold s;
       culturalWeights := culturalWeights s;
       agentExpertise := <[agentId := blendedExpertise s agentId performance]> (agentExpertise s);
       decisionHistory := decisionHistory s |}).

(** The value [updateCulturalWeights] stores. *)
Definition blendedWeight (s : state) (context : string) (effectiveness : float) : float :=
  let current := culturalWeight s context 1.0 in
  let updated := (current * 0.9) + (effectiveness * 0.1) in
  Js.math_max 0.5 (Js.math_min 2.0 updated).

Definition updateCulturalWeights (context : string) (effectiveness : float) : method unit :=
  update (fun s =>
    {| consensusThreshold := consensusThreshold s;
       culturalWeights := <[context := blendedWeight s context effectiveness]> (culturalWeights s);
       agentExpertise := agentExpertise s;
       decisionHistory := decisionHistory s |}).

Definition getConsensusMetrics : method Metrics.t :=
  read (fun s =>
    let totalDecisions := length (decisionHistory s) in
    let averageConfidence :=
      fold_left (fun sum d => sum + SwarmDecision.confidence d) (decisionHistory s) 0
      / Js.of_nat totalDecisions in
    let uniqueCultures :=
      size (list_to_set (map SwarmDecision.culturalContext (decisionHistory s)) : gset string) in
    {| Metrics.totalDecisions := totalDecisions;
       Metrics.averageConfidence := averageConfidence;
       Metrics.culturalCoverage := uniqueCultures |}).

End Engine.

(** ** The two [SwarmManager] routines of the technical documentation *)

Module Manager.
Local Open Scope float_scope.
Local Open Scope string_scope.

Record PerformanceEntry := {
  accuracy : float;
  completionTime : float
}.

Record BaseAgent := {
  availableCapabilities : list string;
  performanceHistory : list PerformanceEntry;
  trustScore : float
}.

Record AgentNetwork := {
  centrality : float
}.

(** Of a task the selection reads the required capabilities only. *)
Record SwarmTask := {
  requiredCapabilities : list string
}.

Record state := {
  agents : gmap string BaseAgent;
  agentNetworks : gmap string AgentNetwork
}.

(** [capabilities.includes(cap)] *)
Definition includes (capabilities : list string) (cap : string) : bool :=
  existsb (String.eqb cap) capabilities.

(** The body of the scoring loop of [selectIntelligently] for one agent. *)
Definition agentScore (agent : BaseAgent) (network : AgentNetwork) (task : SwarmTask)
  : float :=
  let score := 0 in
  let capabilityMatches :=
    length (List.filter (fun cap => includes (availableCapabilities agent) cap)
              (requiredCapabilities task)) in
  let score :=
    score + (Js.of_nat capabilityMatches / Js.of_nat (length (requiredCapabilities task))) * 40 in
  let recentPerformance := Js.slice_last 10 (performanceHistory agent) in
  let score :=
    match recentPerformance with
    | [] => score
    | _ =>
        let avgAccuracy :=
          fold_left (fun sum p => sum + accuracy p) recentPerformance 0
          / Js.of_nat (length recentPerformance) in
        let avgCompletionTime :=
          fold_left (fun sum p => sum + completionTime p) recentPerformance 0
          / Js.of_nat (length recentPerformance) in
        let score := score + (avgAccuracy / 10) * 20 in
        score + Js.math_max 0 (10 - (avgCompletionTime / 1000))
    end in
  let score := score + centrality network * 20 in
  score + (trustScore agent / 100) * 10.

(** The [scores] map after the scoring loop: an agent without a registry
    entry or without a network entry is skipped. *)
Definition collectScores (s : state) (agentIds : list string) (task : SwarmTask)
  : list (string * float) :=
  fold_left
    (fun scores agentId =>
       match agents s !! agentId, agentNetworks s !! agentId with
       | Some agent, Some network => Js.map_set agentId (agentScore agent network task) scores
       | _, _ => scores
       end)
    agentIds [].

Definition selectIntelligently (s : state) (agentIds : list string) (task : SwarmTask)
  : Js.outcome string :=
  match agentIds with
  | [] => Js.Thrown (Js.Error "No agents provided")
  | first :: _ =>
      let scores := collectScores s agentIds task in
      let bestAgent := first in
      let maxScore := Js.or_else (Js.map_get first scores) 0 in
      Js.Returned
        (fst (fold_left
                (fun '(bestAgent, maxScore) '(agentId, score) =>
                   if Js.gt score maxScore then (agentId, score) else (bestAgent, maxScore))
                scores (bestAgent, maxScore)))
  end.

Section ApplyConsensus.
(** The results the agents return, of type [any], with [JSON.stringify] and
    [JSON.parse] on them.  [JSON.stringify(r)] gives a text, or [undefined]
    ([None]: for [undefined], a function or a symbol), or it throws (on a
    cycle or a BigInt); [JSON.parse(text)] gives a value, or throws a
    [SyntaxError] on a text that is not JSON. *)
Variable result : Type.
Variable stringify : result -> Js.outcome (option string).
Variable parse : string -> Js.outcome result.

Record consensus := {
  (** [None] is [null]. *)
  decision : option result;
  agreementLevel : float;
  confidence : float;
  dissentingOpinions : list result
}.

(** The [resultCounts] map: its keys are what [JSON.stringify] gave, a text
    or [undefined]; entries are kept in insertion order, and [set] on a present
    key keeps the key's position. *)
Definition same_key (a b : option string) : bool :=
  match a, b with
  | Some x, Some y => String.eqb x y
  | None, None => true
  | _, _ => false
  end.

Fixpoint counts_set (k : option string) (v : nat) (m : list (option string * nat))
  : list (option string * nat) :=
  match m with
  | [] => [(k, v)]
  | (k', v') :: m' => if same_key k' k then (k, v) :: m' else (k', v') :: counts_set k v m'
  end.

Fixpoint counts_get (k : option string) (m : list (option string * nat)) : option nat :=
  match m with
  | [] => None
  | (k', v') :: m' => if same_key k' k then Some v' else counts_get k m'
  end.

(** The [resultCounts] map after the counting loop. *)
Definition countResults (results : list result) : Js.outcome (list (option string * nat)) :=
  fold_left
    (fun counted r =>
       match counted with
       | Js.Thrown e => Js.Thrown e
       | Js.Returned resultCounts =>
           match stringify r with
           | Js.Thrown e => Js.Thrown e
           | Js.Returned resultStr =>
               let count := default 0%nat (counts_get resultStr resultCounts) in
               Js.Returned (counts_set resultStr (count + 1)%nat resultCounts)
           end
       end)
    results (Js.Returned []).

(** [JSON.parse(resultStr)]: the argument is converted to a string first,
    [undefined] to the text 'undefined'. *)
Definition JSON_parse (resultStr : option string) : Js.outcome result :=
  parse (match resultStr with Some text => text | None => "undefined" end).

(** [maxCount] and [consensusResult] after the loop over the entries. *)
Definition mostCommon (resultCounts : list (option string * nat))
  : Js.outcome (nat * option result) :=
  fold_left
    (fun best '(resultStr, count) =>
       match best with
       | Js.Thrown e => Js.Thrown e
       | Js.Returned (maxCount, consensusResult) =>
           if (maxCount <? count)%nat then
             match JSON_parse resultStr with
             | Js.Thrown e => Js.Thrown e
             | Js.Returned parsed => Js.Returned (count, Some parsed)
             end
           else Js.Returned (maxCount, consensusResult)
       end)
    resultCounts (Js.Returned (0%nat, None)).

(** [JSON.stringify(consensusResult)] *)
Definition stringifyOrNull (r : option result) : Js.outcome (option string) :=
  match r with
  | Some r => stringify r
  | None => Js.Returned (Some "null")
  end.

(** [results.filter(r => JSON.stringify(r) !== JSON.stringify(consensusResult))] *)
Fixpoint dissenting (consensusResult : option result) (results : list result)
  : Js.outcome (list result) :=
  match results with
  | [] => Js.Returned []
  | r :: rest =>
      match stringify r with
      | Js.Thrown e => Js.Thrown e
      | Js.Returned own =>
          match stringifyOrNull consensusResult with
          | Js.Thrown e => Js.Thrown e
          | Js.Returned winning =>
              match dissenting consensusResult rest with
              | Js.Thrown e => Js.Thrown e
              | Js.Returned kept =>
                  Js.Returned (if same_key own winning then kept else r :: kept)
              end
          end
      end
  end.

Definition applyConsensus (results : list result) : Js.outcome consensus :=
  match results with
  | [] => Js.Thrown (Js.Error "No results to apply consensus to")
  | [r] =>
      Js.Returned {| decision := Some r; agreementLevel := 1.0; confidence := 1.0;
                     dissentingOpinions := [] |}
  | _ =>
      match countResults results with
      | Js.Thrown e => Js.Thrown e
      | Js.Returned resultCounts =>
          match mostCommon resultCounts with
          | Js.Thrown e => Js.Thrown e
          | Js.Returned (maxCount, consensusResult) =>
              let agreementLevel := Js.of_nat maxCount / Js.of_nat (length results) in
              let confidence := agreementLevel in
              match dissenting consensusResult results with
              | Js.Thrown e => Js.Thrown e
              | Js.Returned dissentingOpinions =>
                  Js.Returned
                    {| decision := consensusResult;
                       agreementLevel := agreementLevel;
                       confidence := confidence;
                       dissentingOpinions := dissentingOpinions |}
              end
          end
      end
  end.
End ApplyConsensus.

End Manager.

Module JsMore.
Local Open Scope float_scope.

(** A whole number below [2^53], as a number. *)
Definition of_Z (z : Z) : float := of_uint63 (Uint63.of_Z z).

(** [Math.floor(x)]: the largest whole number that is not above [x]; [x]
    itself when it is whole, zero, infinite or NaN. *)
Definition math_floor (x : float) : float :=
  match Prim2SF x with
  | S754_finite s m e =>
      if (0 <=? e)%Z then x
      else
        let q := Z.shiftr (Zpos m) (- e) in
        let whole := Z.eqb (Z.shiftl q (- e)) (Zpos m) in
        if s then - of_Z (if whole then q else q + 1) else of_Z q
  | _ => x
  end.

Section Text.
Variable numberToString : float -> string.
Local Open Scope string_scope.

(** [String(v)], the conversion a template string applies. *)
Fixpoint to_string (v : Js.value) : string :=
  match v with
  | Js.Null => "null"
  | Js.Undefined => "undefined"
  | Js.Boolean b => if b then "true" else "false"
  | Js.Number x => numberToString x
  | Js.Str s => s
  | Js.Array items =>
      (fix join (l : list Js.value) : string :=
         match l with
         | [] => ""
         | x :: l' =>
             match x with
             | Js.Null | Js.Undefined => ""
             | _ => to_string x
             end ++
             match l' with
             | [] => ""
             | _ => "," ++ join l'
             end
         end) items
  | Js.Object _ => "[object Object]"
  end.
End Text.

End JsMore.

(** ** The orchestrator: [core-swarm-engine/swarm-orchestrator/SwarmManager.ts] *)

Module SwarmManager.
Local Open Scope string_scope.

Inductive SwarmPurpose := general | research | creative | analytical | decision_making.

Inductive CoordinationPattern :=
  centralized | decentralized | hybrid | auction_based | consensus_driven.

Module AgentConfiguration.
Record t := {
  id : string;
  capabilities : list string;
  expertise : list string;
  performance_history : Js.value;
  resource_availability : Js.value
}.
End AgentConfiguration.

Module ResourceLimits.
Record t := {
  max_agents : float;
  max_parallel_tasks : float;
  cpu_limit : option float;
  memory_limit : option float;
  gpu_limit : option float
}.
End ResourceLimits.

Module SwarmConfiguration.
Record t := {
  swarm_id : string;
  purpose : SwarmPurpose;
  agents : list AgentConfiguration.t;
  coordination_pattern : CoordinationPattern;
  resource_limits : ResourceLimits.t;
  cultural_context : option string
}.
End SwarmConfiguration.

Module CommunicationGraph.
Record t := {
  pattern : CoordinationPattern;
  agents : list string
}.
End CommunicationGraph.

Module ActiveSwarm.
Record t := {
  id : string;
  config : SwarmConfiguration.t;
  (** The agent instances [{ id: `agent_${Math.random()}`, ...agent }]: the
      spread comes last, so an instance has the fields of its configuration,
      the configured [id] included. *)
  agents : list AgentConfiguration.t;
  communicationGraph : CommunicationGraph.t;
  createdAt : Z;
  cultural_context : option string;
  coordination_pattern : option CoordinationPattern
}.
End ActiveSwarm.

Module SwarmTask.
Record t := {
  id : string;
  description : string;
  complexity : complexity;
  required_expertise : list string;
  cultural_context : option string;
  (** [task.payload], read through the index signature; [Js.Undefined] when
      the task has none. *)
  payload : Js.value
}.
End SwarmTask.

Module CulturalValidationResult.
Record t := {
  passed : bool;
  confidence : float;
  culturalAccuracy : float;
  feedback : string;
  improvements : list string;
  riskLevel : string
}.
End CulturalValidationResult.

(** What a result carries as [consensusInfo]. *)
Inductive consensusInfo :=
| NoInfo
| Allocation (r : ConsensusResult.t)
| Decision (d : SwarmDecision.t)
| Reviewed (r : PeerReview.t)
  (** the literal of the placeholder distributor:
      [{ selectedAgent: 'default-agent', consensusScore: 0.8,
         minorityReports: [], culturalAdaptations: [] }] *)
| DistributorInfo.

Module SwarmResult.
Record t := {
  taskId : string;
  (** [None] when the field is absent or [undefined]. *)
  agentId : option string;
  status : string;
  result : string;
  consensusInfo_ : consensusInfo;
  culturalValidation : option CulturalValidationResult.t
}.
End SwarmResult.

Record state := {
  active_swarms : gmap string ActiveSwarm.t;
  consensus_engine : Engine.state
}.

(** [new SwarmManager()] *)
Definition create : state :=
  {| active_swarms := ∅; consensus_engine := Engine.create 0.7 |}.

(** Methods of the manager: state passing with exceptions, as for the
    engine; [engine m] runs a method of the consensus engine the manager
    owns. *)
Definition method (A : Type) : Type := state -> Js.outcome A * state.

Definition ret {A} (a : A) : method A := fun s => (Js.Returned a, s).
Definition throw {A} (e : Js.error) : method A := fun s => (Js.Thrown e, s).
Definition bind {A B} (m : method A) (k : A -> method B) : method B :=
  fun s =>
    match m s with
    | (Js.Returned a, s') => k a s'
    | (Js.Thrown e, s') => (Js.Thrown e, s')
    end.
Definition engine {A} (m : Engine.method A) : method A :=
  fun s =>
    let (o, e) := m (consensus_engine s) in
    (o, {| active_swarms := active_swarms s; consensus_engine := e |}).

Notation "'let*' x ':=' m 'in' k" := (bind m (fun x => k))
  (at level 10, x name, m at level 200, k at level 200).

(** [context || 'default'] on an optional string. *)
Definition or_default (context : option string) : string :=
  match context with
  | Some c => if String.eqb c "" then "default" else c
  | None => "default"
  end.

(** [JSON.stringify(v)]: [undefined] for [undefined], a string otherwise;
    [serialize] is the text it produces for a value that has one. *)
Definition JSON_stringify (serialize : Js.value -> string) (v : Js.value) : option string :=
  match v with
  | Js.Undefined => None
  | _ => Some (serialize v)
  end.

(** The placeholder services the constructor installs. *)
Definition adaptTask (task : SwarmTask.t) (context : string) : SwarmTask.t :=
  {| SwarmTask.id := SwarmTask.id task;
     SwarmTask.description := SwarmTask.description task;
     SwarmTask.complexity := SwarmTask.complexity task;
     SwarmTask.required_expertise := SwarmTask.required_expertise task;
     SwarmTask.cultural_context := Some context;
     SwarmTask.payload := SwarmTask.payload task |}.

Definition validateCulturalIntelligence (culture content context : string)
  : Js.outcome CulturalValidationResult.t :=
  Js.Returned
    {| CulturalValidationResult.passed := true;
       CulturalValidationResult.confidence := 0.9;
       CulturalValidationResult.culturalAccuracy := 0.9;
       CulturalValidationResult.feedback := "Cultural validation passed";
       CulturalValidationResult.improvements := [];
       CulturalValidationResult.riskLevel := "safe" |}.

Definition task_distributor_execute (swarm : ActiveSwarm.t) (task : SwarmTask.t)
  : SwarmResult.t :=
  {| SwarmResult.taskId := SwarmTask.id task;
     SwarmResult.agentId := Some "default-agent";
     SwarmResult.status := "completed";
     SwarmResult.result := "Task completed";
     SwarmResult.consensusInfo_ := DistributorInfo;
     SwarmResult.culturalValidation := None |}.

Definition validateSwarmConfiguration (config : SwarmConfiguration.t) : method unit :=
  if String.eqb (SwarmConfiguration.swarm_id config) ""
  then throw (Js.Error "Swarm configuration must include a swarm_id")
  else ret tt.

Definition initializeAgents (agents : list AgentConfiguration.t) : list AgentConfiguration.t :=
  map (fun agent => agent) agents.

Definition buildCommunicationGraph
  (agents : list AgentConfiguration.t) (pattern : CoordinationPattern)
  : CommunicationGraph.t :=
  {| CommunicationGraph.pattern := pattern;
     CommunicationGraph.agents := map AgentConfiguration.id agents |}.

(** [createSwarm]; [now] is the date [new Date()] gives.  (The resource
    allocator only logs and answers [true].) *)
Definition createSwarm (now : Z) (config : SwarmConfiguration.t) : method ActiveSwarm.t :=
  let* _ := validateSwarmConfiguration config in
  let agent_instances := initializeAgents (SwarmConfiguration.agents config) in
  let communication_topology :=
    buildCommunicationGraph agent_instances (SwarmConfiguration.coordination_pattern config) in
  let active_swarm :=
    {| ActiveSwarm.id := SwarmConfiguration.swarm_id config;
       ActiveSwarm.config := config;
       ActiveSwarm.agents := agent_instances;
       ActiveSwarm.communicationGraph := communication_topology;
       ActiveSwarm.createdAt := now;
       ActiveSwarm.cultural_context := SwarmConfiguration.cultural_context config;
       ActiveSwarm.coordination_pattern :=
         Some (SwarmConfiguration.coordination_pattern config) |} in
  let* _ := (fun s =>
    (Js.Returned tt,
     {| active_swarms :=
          <[SwarmConfiguration.swarm_id config := active_swarm]> (active_swarms s);
        consensus_engine := consensus_engine s |})) in
  ret active_swarm.

Definition validateCulturalDecision (decision : string) (culturalContext : string)
  : CulturalValidationResult.t :=
  if negb (String.eqb culturalContext "") then
    match validateCulturalIntelligence culturalContext decision "swarm_decision" with
    | Js.Returned validation => validation
    | Js.Thrown _ =>
        {| CulturalValidationResult.passed := true;
           CulturalValidationResult.confidence := 0.5;
           CulturalValidationResult.culturalAccuracy := 0.5;
           CulturalValidationResult.feedback := "Cultural validation skipped due to error";
           CulturalValidationResult.improvements :=
             ["Enable cultural validation for better results"];
           CulturalValidationResult.riskLevel := "caution" |}
    end
  else
    {| CulturalValidationResult.passed := true;
       CulturalValidationResult.confidence := 0.7;
       CulturalValidationResult.culturalAccuracy := 0.7;
       CulturalValidationResult.feedback := "Cultural validation not applicable";
       CulturalValidationResult.improvements := [];
       CulturalValidationResult.riskLevel := "safe" |}.

(** [collectAgentBids]; [draws] are the values of the successive calls of
    [Math.random()], five for each agent. *)
Definition collectAgentBids (swarm : ActiveSwarm.t) (task : SwarmTask.t) (draws : nat -> float)
  : list AgentBid.t :=
  imap
    (fun i agent =>
       {| AgentBid.agentId := AgentConfiguration.id agent;
          AgentBid.taskId := SwarmTask.id task;
          AgentBid.confidence := draws (5 * i)%nat;
          AgentBid.expertise := draws (5 * i + 1)%nat;
          AgentBid.culturalRelevance := draws (5 * i + 2)%nat;
          AgentBid.estimatedTime := (JsMore.math_floor (draws (5 * i + 3)%nat * 100) + 10)%float;
          AgentBid.resourceCost := (JsMore.math_floor (draws (5 * i + 4)%nat * 50) + 5)%float |})
    (ActiveSwarm.agents swarm).

Definition executeTaskWithAgent
  (agentId : string) (task : SwarmTask.t) (consensusResult : ConsensusResult.t)
  : SwarmResult.t :=
  let result := "Task completed by agent " ++ agentId in
  {| SwarmResult.taskId := SwarmTask.id task;
     SwarmResult.agentId := Some agentId;
     SwarmResult.status := "completed";
     SwarmResult.result := result;
     SwarmResult.consensusInfo_ := Allocation consensusResult;
     SwarmResult.culturalValidation :=
       match SwarmTask.cultural_context task with
       | Some context =>
           if String.eqb context "" then None
           else Some (validateCulturalDecision result context)
       | None => None
       end |}.

Definition executeWithSingleExpert (agentId : string) (task : SwarmTask.t) : SwarmResult.t :=
  {| SwarmResult.taskId := SwarmTask.id task;
     SwarmResult.agentId := Some agentId;
     SwarmResult.status := "completed";
     SwarmResult.result := "Task completed by expert " ++ agentId;
     SwarmResult.consensusInfo_ := NoInfo;
     SwarmResult.culturalValidation := None |}.

Section Environment.
(** [Number.prototype.toString] and the text of [JSON.stringify]. *)
Variable numberToString : float -> string.
Variable serialize : Js.value -> string.

Definition executeAuctionBasedTask
  (swarm : ActiveSwarm.t) (task : SwarmTask.t) (draws : nat -> float)
  : method SwarmResult.t :=
  let bids := collectAgentBids swarm task draws in
  let* consensusResult :=
    engine (Engine.auctionBasedAllocation numberToString (SwarmTask.id task) bids
              (or_default (ActiveSwarm.cultural_context swarm))) in
  let* _ :=
    engine (Engine.updateAgentExpertise (ConsensusResult.selectedAgent consensusResult)
              (ConsensusResult.consensusScore consensusResult)) in
  ret (executeTaskWithAgent (ConsensusResult.selectedAgent consensusResult) task
         consensusResult).

(** [draws] are the values of [Math.random()], one for each agent; [now]
    is the value of [Date.now()]. *)
Definition executeWithWeightedConsensus
  (agents : list string) (task : SwarmTask.t) (culturalContext : string)
  (now : Z) (draws : nat -> float) : method SwarmResult.t :=
  let proposals :=
    imap
      (fun i agentId =>
         {| Proposal.agentId := agentId;
            Proposal.proposal := Js.Str ("Proposal from agent " ++ agentId);
            Proposal.confidence := draws i |})
      agents in
  let* decision := engine (Engine.expertiseWeightedVoting now proposals culturalContext) in
  ret {| SwarmResult.taskId := SwarmTask.id task;
         SwarmResult.agentId := head (SwarmDecision.participatingAgents decision);
         SwarmResult.status := "completed";
         SwarmResult.result :=
           "Task completed based on consensus decision: "
           ++ JsMore.to_string numberToString (SwarmDecision.decision decision);
         SwarmResult.consensusInfo_ := Decision decision;
         SwarmResult.culturalValidation := None |}.

Definition executeWithFullConsensus
  (agents : list string) (task : SwarmTask.t) (culturalContext : string)
  (draws : nat -> float) : method SwarmResult.t :=
  let contentSize :=
    if Js.truthy_value (SwarmTask.payload task)
    then Some (String.length (serialize (SwarmTask.payload task)))
    else None in
  let* reviewResult :=
    engine (Engine.peerReviewConsensus contentSize agents culturalContext draws) in
  ret {| SwarmResult.taskId := SwarmTask.id task;
         SwarmResult.agentId := None;
         SwarmResult.status :=
           if PeerReview.approved reviewResult then "completed" else "needs_revision";
         SwarmResult.result :=
           "Task " ++ (if PeerReview.approved reviewResult then "approved" else "needs revision")
           ++ " by peer review";
         SwarmResult.consensusInfo_ := Reviewed reviewResult;
         SwarmResult.culturalValidation := None |}.

Definition assessTaskComplexity (task : SwarmTask.t) : method complexity :=
  match JSON_stringify serialize (SwarmTask.payload task) with
  | None => throw (Js.TypeError "Cannot read properties of undefined (reading 'length')")
  | Some text =>
      let payloadSize := String.length text in
      if (payloadSize <? 100)%nat then ret simple
      else if (payloadSize <? 1000)%nat then ret moderate
      else ret complex
  end.

Definition executeConsensusDrivenTask
  (swarm : ActiveSwarm.t) (task : SwarmTask.t) (now : Z) (draws : nat -> float)
  : method SwarmResult.t :=
  let* complexity := assessTaskComplexity task in
  let agentIds := map AgentConfiguration.id (ActiveSwarm.agents swarm) in
  let culturalContext :=
    or_default (SwarmConfiguration.cultural_context (ActiveSwarm.config swarm)) in
  let* consensusPlan := engine (Engine.adaptiveConsensus complexity agentIds culturalContext) in
  if String.eqb (Plan.method consensusPlan) "single_expert" then
    let expertId :=
      match head (Plan.participants consensusPlan) with
      | Some expert => if String.eqb expert "" then "default_agent" else expert
      | None => "default_agent"
      end in
    ret (executeWithSingleExpert expertId task)
  else if String.eqb (Plan.method consensusPlan) "expertise_weighted" then
    executeWithWeightedConsensus (Plan.participants consensusPlan) task culturalContext now draws
  else if String.eqb (Plan.method consensusPlan) "full_swarm_consensus" then
    executeWithFullConsensus agentIds task culturalContext draws
  else ret (task_distributor_execute swarm task).

Definition executeSwarmTask
  (swarm_id : string) (task : SwarmTask.t) (now : Z) (draws : nat -> float)
  : method SwarmResult.t :=
  fun s =>
    match active_swarms s !! swarm_id with
    | None => throw (Js.Error ("Swarm " ++ swarm_id ++ " not found")) s
    | Some swarm =>
        let task :=
          match ActiveSwarm.cultural_context swarm with
          | Some context => if String.eqb context "" then task else adaptTask task context
          | None => task
          end in
        match ActiveSwarm.coordination_pattern swarm with
        | Some auction_based => executeAuctionBasedTask swarm task draws s
        | Some consensus_driven => executeConsensusDrivenTask swarm task now draws s
        | _ => ret (task_distributor_execute swarm task) s
        end
    end.

End Environment.

Definition getConsensusMetrics : method Metrics.t := engine Engine.getConsensusMetrics.

End SwarmManager.

(** ** Further routines of the documented [SwarmManager]: agent selection,
       task assignment and distributed tasks *)

Module ManagerTasks.
Local Open Scope string_scope.

Inductive strategy := round_robin | least_loaded | capability_based | intelligent | auction_based.

Record BaseAgent := {
  workload : float;
  availableCapabilities : list string;
  performanceHistory : list Manager.PerformanceEntry;
  trustScore : float
}.

(** What an agent's [executeTask] resolves to, as far as the manager reads
    it: [confidence] is [None] when the field is missing. *)
Record AgentResult := {
  result : Js.value;
  confidence : option float
}.

Record SwarmTask := {
  id : string;
  type : string;
  priority : Js.value;
  requiredCapabilities : list string;
  payload : Js.value;
  assignedAgents : list string;
  status : string;
  createdAt : Z;
  deadline : Js.value;
  dependencies : Js.value;
  swarmId : Js.value;
  cultural_context : option string
}.

(** [aggregateSubtaskResults] returns this object; [culturalValidation] is
    the field [executeDistributedTask] may add. *)
Record Aggregate (V : Type) := {
  aggregated : string;
  subtaskResults : list AgentResult;
  aggregateConfidence : float;
  culturalValidation : option V
}.
Arguments aggregated {V} a.
Arguments subtaskResults {V} a.
Arguments aggregateConfidence {V} a.
Arguments culturalValidation {V} a.

(** The events the manager emits. *)
Inductive event :=
| task_started (taskId : string) (agentIds : list string)
| task_completed (taskId : string) (agentIds : list string)
| task_failed (taskId : string) (agentIds : list string) (error : Js.error).

Record state := {
  loadBalancingStrategy : strategy;
  (** [this.configuration.culturalIntelligence], as a condition *)
  culturalIntelligence : bool;
  agents : gmap string BaseAgent;
  agentNetworks : gmap string Manager.AgentNetwork;
  (** [this.metrics.totalTasksCompleted] *)
  totalTasksCompleted : nat;
  emitted : list event
}.

(** The registry as [selectIntelligently] reads it. *)
Definition registry (s : state) : Manager.state :=
  {| Manager.agents :=
       (fun agent =>
          {| Manager.availableCapabilities := availableCapabilities agent;
             Manager.performanceHistory := performanceHistory agent;
             Manager.trustScore := trustScore agent |}) <$> agents s;
     Manager.agentNetworks := agentNetworks s |}.

(** [agents[this.metrics.totalTasksCompleted % agents.length]]; on an empty
    list the index is NaN and the result [undefined]. *)
Definition selectRoundRobin (s : state) (agentIds : list string) : option string :=
  match agentIds with
  | [] => None
  | _ => agentIds !! (totalTasksCompleted s mod length agentIds)
  end.

Definition selectLeastLoaded (s : state) (agentIds : list string) : Js.outcome string :=
  match agentIds with
  | [] => Js.Thrown (Js.Error "No agents provided")
  | first :: _ =>
      let leastLoadedAgent := first in
      let minWorkload :=
        match agents s !! first with
        | Some firstAgent => workload firstAgent
        | None => infinity
        end in
      Js.Returned
        (fst (fold_left
                (fun '(leastLoadedAgent, minWorkload) agentId =>
                   match agents s !! agentId with
                   | Some agent =>
                       if (workload agent <? minWorkload)%float
                       then (agentId, workload agent)
                       else (leastLoadedAgent, minWorkload)
                   | None => (leastLoadedAgent, minWorkload)
                   end)
                agentIds (leastLoadedAgent, minWorkload)))
  end.

(** The inner loop of [selectByCapability]: the required capabilities the
    agent has, counted with their repetitions. *)
Definition capabilityScore (agent : BaseAgent) (requiredCapabilities : list string) : nat :=
  fold_left
    (fun capabilityScore capability =>
       if Manager.includes (availableCapabilities agent) capability
       then capabilityScore + 1
       else capabilityScore)
    requiredCapabilities 0.

Definition selectByCapability (s : state) (agentIds : list string)
  (requiredCapabilities : list string) : Js.outcome string :=
  match agentIds with
  | [] => Js.Thrown (Js.Error "No agents provided")
  | first :: _ =>
      Js.Returned
        (fst (fold_left
                (fun '(bestAgent, maxCapabilityScore) agentId =>
                   match agents s !! agentId with
                   | None => (bestAgent, maxCapabilityScore)
                   | Some agent =>
                       let capabilityScore := capabilityScore agent requiredCapabilities in
                       if (maxCapabilityScore <? capabilityScore)%nat
                       then (agentId, capabilityScore)
                       else (bestAgent, maxCapabilityScore)
                   end)
                agentIds (first, 0)))
  end.

(** [selectedAgent ? [selectedAgent] : []] *)
Definition selection (selectedAgent : option string) : list string :=
  match selectedAgent with
  | Some agent => if String.eqb agent "" then [] else [agent]
  | None => []
  end.

Section Assignment.
(** [findEligibleAgents] is not part of the listings. *)
Variable findEligibleAgents : state -> list string -> list string.

Definition assignIndividualTask (s : state) (task : SwarmTask) : Js.outcome (list string) :=
  let eligibleAgents := findEligibleAgents s (requiredCapabilities task) in
  match eligibleAgents with
  | [] => Js.Returned []
  | first :: _ =>
      let selectedAgent : Js.outcome (option string) :=
        match loadBalancingStrategy s with
        | round_robin => Js.Returned (selectRoundRobin s eligibleAgents)
        | least_loaded =>
            match selectLeastLoaded s eligibleAgents with
            | Js.Returned agent => Js.Returned (Some agent)
            | Js.Thrown e => Js.Thrown e
            end
        | capability_based =>
            match selectByCapability s eligibleAgents (requiredCapabilities task) with
            | Js.Returned agent => Js.Returned (Some agent)
            | Js.Thrown e => Js.Thrown e
            end
        | intelligent =>
            match
              Manager.selectIntelligently (registry s) eligibleAgents
                {| Manager.requiredCapabilities := requiredCapabilities task |}
            with
            | Js.Returned agent => Js.Returned (Some agent)
            | Js.Thrown e => Js.Thrown e
            end
        | _ => Js.Returned (Some first)
        end in
      match selectedAgent with
      | Js.Returned selectedAgent => Js.Returned (selection selectedAgent)
      | Js.Thrown e => Js.Thrown e
      end
  end.
End Assignment.

Section Distributed.
(** Parts of the environment the listings do not show: the payload
    [{ ...task.payload, subtaskIndex: i, parentTaskId: task.id }] of a
    subtask, an agent's [executeTask], the cultural validator's
    [validateSwarmDecision] and the manager's [updateMetrics]; and
    [Number.prototype.toString]. *)
Variable V : Type.
Variable subtaskPayload : Js.value -> nat -> string -> Js.value.
Variable executeTask : string -> SwarmTask -> Js.outcome AgentResult.
Variable validateSwarmDecision : string -> string -> Js.outcome V.
Variable validationError : Js.error -> string -> V.
Variable validationSkipped : V.
Variable updateMetrics : state -> state.
Variable numberToString : float -> string.

(** [decomposeTask]; [now] is the value of [Date.now()]. *)
Definition decomposeTask (now : Z) (task : SwarmTask) : list SwarmTask :=
  imap
    (fun i capability =>
       {| id := id task ++ "_subtask_" ++ pretty i;
          type := "individual";
          priority := priority task;
          requiredCapabilities := [capability];
          payload := subtaskPayload (payload task) i (id task);
          assignedAgents := [];
          status := "pending";
          createdAt := now;
          deadline := deadline task;
          dependencies := dependencies task;
          swarmId := swarmId task;
          cultural_context := None |})
    (requiredCapabilities task).

(** [l.join(' ')] on the [result] fields. *)
Fixpoint join (l : list Js.value) : string :=
  match l with
  | [] => ""
  | x :: l' =>
      match x with
      | Js.Null | Js.Undefined => ""
      | _ => JsMore.to_string numberToString x
      end ++
      match l' with
      | [] => ""
      | _ => " " ++ join l'
      end
  end.

Definition aggregateSubtaskResults (subtaskResults : list AgentResult) (task : SwarmTask)
  : Aggregate V :=
  {| aggregated := join (map result subtaskResults);
     subtaskResults := subtaskResults;
     aggregateConfidence :=
       (fold_left (fun sum r => sum + Js.or_else (confidence r) 0) subtaskResults 0
        / Js.of_nat (length subtaskResults))%float;
     culturalValidation := None |}.

(** [validateCulturalDecision] of the listing. *)
Definition validateCulturalDecision (s : state) (decision : string) (culturalContext : string)
  : V :=
  if negb (culturalIntelligence s) then validationSkipped
  else
    match validateSwarmDecision decision culturalContext with
    | Js.Returned validation => validation
    | Js.Thrown error => validationError error decision
    end.

Definition emit (e : event) (s : state) : state :=
  {| loadBalancingStrategy := loadBalancingStrategy s;
     culturalIntelligence := culturalIntelligence s;
     agents := agents s;
     agentNetworks := agentNetworks s;
     totalTasksCompleted := totalTasksCompleted s;
     emitted := (emitted s ++ [e])%list |}.

(** The loop of [executeDistributedTask] over the subtasks: a subtask
    without a first assigned agent, or whose agent is not registered, is
    skipped, and so is the result of an agent that throws. *)
Definition runSubtasks (s : state) (subtasks : list SwarmTask) : list AgentResult :=
  fold_left
    (fun subtaskResults subtask =>
       match head (assignedAgents subtask) with
       | None => subtaskResults
       | Some agentId =>
           if String.eqb agentId "" then subtaskResults
           else
             match agents s !! agentId with
             | None => subtaskResults
             | Some _ =>
                 match executeTask agentId subtask with
                 | Js.Returned result => (subtaskResults ++ [result])%list
                 | Js.Thrown _ => subtaskResults
                 end
             end
       end)
    subtasks [].

(** [executeDistributedTask]: the outcome, the [status] the call leaves on
    the task, and the manager's state; [now] is the value of [Date.now()].
    (Nothing inside the [try] block throws here, the errors of the agents
    being caught in the loop, so the [catch] block is not reached.) *)
Definition executeDistributedTask (now : Z) (task : SwarmTask) (s : state)
  : Js.outcome (Aggregate V) * string * state :=
  match assignedAgents task with
  | [] => (Js.Thrown (Js.Error "No agents assigned to distributed task"), status task, s)
  | _ =>
      let s := emit (task_started (id task) (assignedAgents task)) s in
      let subtasks := decomposeTask now task in
      let subtaskResults := runSubtasks s subtasks in
      let aggregatedResult := aggregateSubtaskResults subtaskResults task in
      let aggregatedResult :=
        match cultural_context task with
        | Some context =>
            if negb (String.eqb context "") && culturalIntelligence s
            then
              {| aggregated := aggregated aggregatedResult;
                 subtaskResults := ManagerTasks.subtaskResults aggregatedResult;
                 aggregateConfidence := aggregateConfidence aggregatedResult;
                 culturalValidation :=
                   Some (validateCulturalDecision s (aggregated aggregatedResult) context) |}
            else aggregatedResult
        | None => aggregatedResult
        end in
      let s := emit (task_completed (id task) (assignedAgents task)) s in
      (Js.Returned aggregatedResult, "completed", updateMetrics s)
  end.

End Distributed.

(** [executeCollaborativeTask], the caller of [applyConsensus]. *)
Module Collaborative.
Section Run.
(** The results of the agents with [JSON.stringify] and [JSON.parse] on
    them, as for [applyConsensus]; an agent's [executeTask], the cultural
    validator's [validateSwarmDecision] and the manager's [updateMetrics]. *)
Variable result : Type.
Variable stringify : result -> Js.outcome (option string).
Variable parse : string -> Js.outcome result.
Variable V : Type.
Variable executeTask : string -> SwarmTask -> Js.outcome result.
Variable validateSwarmDecision : option result -> string -> Js.outcome V.
Variable validationError : Js.error -> option result -> V.
Variable validationSkipped : V.
Variable updateMetrics : state -> state.

(** What the call returns: the consensus, with the [culturalValidation] the
    call may add to it. *)
Record Collaboration := {
  consensus : Manager.consensus result;
  culturalValidation : option V
}.

(** [{ ...task, id: `${task.id}_${agentId}` }], the task being in progress
    by then. *)
Definition asked (task : SwarmTask) (agentId : string) : SwarmTask :=
  {| id := id task ++ "_" ++ agentId;
     type := type task;
     priority := priority task;
     requiredCapabilities := requiredCapabilities task;
     payload := payload task;
     assignedAgents := assignedAgents task;
     status := "in_progress";
     createdAt := createdAt task;
     deadline := deadline task;
     dependencies := dependencies task;
     swarmId := swarmId task;
     cultural_context := ManagerTasks.cultural_context task |}.

(** The loop over the assigned agents: an agent that is not registered is
    passed over, and so is the result of an agent that throws. *)
Definition askAgents (s : state) (task : SwarmTask) : list result :=
  fold_left
    (fun results agentId =>
       match agents s !! agentId with
       | Some _ =>
           match executeTask agentId (asked task agentId) with
           | Js.Returned result => (results ++ [result])%list
           | Js.Thrown _ => results
           end
       | None => results
       end)
    (assignedAgents task) [].

Definition validateCulturalDecision (s : state) (decision : option result)
  (culturalContext : string) : V :=
  if negb (culturalIntelligence s) then validationSkipped
  else
    match validateSwarmDecision decision culturalContext with
    | Js.Returned validation => validation
    | Js.Thrown error => validationError error decision
    end.

(** [executeCollaborativeTask]: the outcome, the [status] the call leaves
    on the task, and the manager's state. *)
Definition executeCollaborativeTask (task : SwarmTask) (s : state)
  : Js.outcome Collaboration * string * state :=
  match assignedAgents task with
  | [] => (Js.Thrown (Js.Error "No agents assigned to collaborative task"), status task, s)
  | _ =>
      let s := emit (task_started (id task) (assignedAgents task)) s in
      let results := askAgents s task in
      match Manager.applyConsensus result stringify parse results with
      | Js.Returned consensusResult =>
          let validation :=
            match ManagerTasks.cultural_context task with
            | Some context =>
                if negb (String.eqb context "") && culturalIntelligence s
                then Some (validateCulturalDecision s
                             (Manager.decision result consensusResult) context)
                else None
            | None => None
            end in
          let s := emit (task_completed (id task) (assignedAgents task)) s in
          (Js.Returned {| consensus := consensusResult; culturalValidation := validation |},
           "completed", updateMetrics s)
      | Js.Thrown error =>
          let s := emit (task_failed (id task) (assignedAgents task) error) s in
          (Js.Thrown error, "failed", updateMetrics s)
      end
  end.

End Run.
Arguments consensus {result V} c.
Arguments culturalValidation {result V} c.
End Collaborative.

End ManagerTasks.

(** ** Sample data for the concrete runs *)

Module Sample.
Local Open Scope float_scope.
Local Open Scope string_scope.

Definition bid (agentId : string) (confidence estimatedTime : float) : AgentBid.t :=
  {| AgentBid.agentId := agentId; AgentBid.taskId := "t";
     AgentBid.confidence := confidence; AgentBid.expertise := 0.5;
     AgentBid.culturalRelevance := 0.5; AgentBid.estimatedTime := estimatedTime;
     AgentBid.resourceCost := 5 |}.

Definition proposal (agentId text : string) (confidence : float) : Proposal.t :=
  {| Proposal.agentId := agentId; Proposal.proposal := Js.Str text;
     Proposal.confidence := confidence |}.

(** An engine whose tables hold the given entries. *)
Definition learned (weights expertise : list (string * float)) : Engine.state :=
  {| Engine.consensusThreshold := 0.7;
     Engine.culturalWeights := list_to_map weights;
     Engine.agentExpertise := list_to_map expertise;
     Engine.decisionHistory := [] |}.

Definition agent (capabilities : list string) (completionTime trust : float)
  : Manager.BaseAgent :=
  {| Manager.availableCapabilities := capabilities;
     Manager.performanceHistory :=
       [{| Manager.accuracy := 0; Manager.completionTime := completionTime |}];
     Manager.trustScore := trust |}.

(** Two agents with the capability [x]: [A] is slow and central, [B] is fast
    and peripheral. *)
Definition swarm : Manager.state :=
  {| Manager.agents :=
       list_to_map [("A", agent ["x"] 10000 0); ("B", agent ["x"] 0 0)];
     Manager.agentNetworks :=
       list_to_map [("A", {| Manager.centrality := 1.0 |});
                    ("B", {| Manager.centrality := 0.3 |})] |}.

Definition task : Manager.SwarmTask := {| Manager.requiredCapabilities := ["x"] |}.

(** A team for a task that requires [x] and [y].  [C] has [x] only and a
    history of twelve entries, the last ten of which are accurate and take
    two seconds; [D] has both capabilities and no history. *)
Definition entry (accuracy completionTime : float) : Manager.PerformanceEntry :=
  {| Manager.accuracy := accuracy; Manager.completionTime := completionTime |}.

Definition team : Manager.state :=
  {| Manager.agents :=
       list_to_map
         [("C", {| Manager.availableCapabilities := ["x"];
                   Manager.performanceHistory :=
                     [entry 1 90000; entry 2 80000] ++ repeat (entry 8 2000) 10;
                   Manager.trustScore := 80 |});
          ("D", {| Manager.availableCapabilities := ["y"; "x"];
                   Manager.performanceHistory := [];
                   Manager.trustScore := 50 |})];
     Manager.agentNetworks :=
       list_to_map [("C", {| Manager.centrality := 0.5 |});
                    ("D", {| Manager.centrality := 0.25 |})] |}.

Definition teamTask : Manager.SwarmTask := {| Manager.requiredCapabilities := ["x"; "y"] |}.

(** Results that are [undefined] ([None]) or a string without a character
    that JSON escapes ([Some s]), with [JSON.stringify] and [JSON.parse] on
    them: the text of a string is the string between double quotes, and
    [undefined] has none; a text that is not one of a string, as 'undefined'
    is, makes [JSON.parse] throw (the sample meets no text of another kind;
    the message is V8's). *)
Definition quote : ascii := ascii_of_nat 34.

Definition quoted (s : string) : string := String quote (s ++ String quote EmptyString).

Definition stringify (r : option string) : Js.outcome (option string) :=
  match r with
  | Some s => Js.Returned (Some (quoted s))
  | None => Js.Returned None
  end.

(** The string of which [s] is the text without its opening quote. *)
Fixpoint closing (s : string) : option string :=
  match s with
  | EmptyString => None
  | String c s' =>
      if Ascii.eqb c quote
      then match s' with EmptyString => Some EmptyString | _ => None end
      else option_map (String c) (closing s')
  end.

Definition parse (text : string) : Js.outcome (option string) :=
  match
    match text with
    | String c s => if Ascii.eqb c quote then closing s else None
    | EmptyString => None
    end
  with
  | Some s => Js.Returned (Some s)
  | None => Js.Thrown (Js.SyntaxError (quoted text ++ " is not valid JSON"))
  end.

(** The JSON text of a result that has one. *)
Definition text (r : option string) : string :=
  match r with
  | Some s => quoted s
  | None => EmptyString
  end.

End Sample.

(** ** Auxiliary notions on binary64 values, used by the proofs only *)

Module SF.
Local Open Scope Z_scope.

Definition nanb (x : spec_float) : bool :=
  match x with S754_nan => true | _ => false end.

(** A nonzero number or an infinity of sign [s]. *)
Definition signed_nonzero (s : bool) (x : spec_float) : Prop :=
  match x with
  | S754_finite s' _ _ | S754_infinity s' => s' = s
  | _ => False
  end.

(** A mantissa and exponent in the canonical form of the format. *)
Definition canonical (m : positive) (e : Z) : Prop :=
  Z.max (Zdigits2 (Zpos m) + e - 53) (-1074) = e.

(** The signed mantissa of [m * 2^e] once written with exponent [ez]. *)
Definition aligned (s : bool) (m : positive) (e ez : Z) : Z :=
  cond_Zopp s (Zpos m * 2 ^ (e - ez)).

(** The largest exponent a rounding of [M * 2^e] can end with. *)
Definition reach (M e : Z) : Z := Z.max (Z.max e (Zdigits2 M + e - 52)) (-1074).

(** Zero, or finite with exponent at most [B]. *)
Definition below (B : Z) (x : spec_float) : Prop :=
  match x with
  | S754_zero _ => True
  | S754_finite _ _ e => e <= B
  | _ => False
  end.

(** An infinity, or finite with exponent at least [L]. *)
Definition above (L : Z) (x : spec_float) : Prop :=
  match x with
  | S754_infinity _ => True
  | S754_finite _ _ e => L <= e
  | _ => False
  end.

End SF.

(** ** Notions the properties are stated with *)

Module Spec.
Local Open Scope float_scope.

(** [x] is the earliest element of [l] whose score is maximal: every element
    before it scores strictly less, every element after it scores at most as
    much. *)
Definition first_max {A} (score : A -> float) (l : list A) (x : A) : Prop :=
  exists before after,
    l = before ++ x :: after /\
    (forall y, In y before -> (score y <? score x) = true) /\
    (forall y, In y after -> (score y <=? score x) = true).

(** The comparator [(a, b) => score(b) - score(a)]. *)
Definition by_desc {A} (score : A -> float) (a b : A) : float := score b - score a.

(** No element of [l] has the score NaN. *)
Definition scores_defined {A} (score : A -> float) (l : list A) : Prop :=
  forall y, In y l -> is_nan (score y) = false.

(** [l] is in descending order of score. *)
Definition descending {A} (score : A -> float) (l : list A) : Prop :=
  StronglySorted (fun a b => (score b <=? score a) = true) l.

(** [lo <= x <= hi] *)
Definition within (lo hi x : float) : Prop :=
  (lo <=? x) = true /\ (x <=? hi) = true.

(** [x] is zero or finite, with a binary exponent of at most [B]. *)
Definition finite_below (B : Z) (x : float) : Prop := SF.below B (Prim2SF x).

(** [x] is infinite, or finite with a binary exponent of at least [L]. *)
Definition exponent_above (L : Z) (x : float) : Prop := SF.above L (Prim2SF x).

(** Every learned expertise lies in [0.1 .. 1.0]; every learned cultural
    weight lies in [0.5 .. 2.0]. *)
Definition expertise_in_range (s : Engine.state) : Prop :=
  map_Forall (fun _ v => within 0.1 1.0 v) (Engine.agentExpertise s).

Definition weights_in_range (s : Engine.state) : Prop :=
  map_Forall (fun _ v => within 0.5 2.0 v) (Engine.culturalWeights s).

(** The state after a decision has been pushed on the history. *)
Definition recorded (s : Engine.state) (d : SwarmDecision.t) : Engine.state :=
  {| Engine.consensusThreshold := Engine.consensusThreshold s;
     Engine.culturalWeights := Engine.culturalWeights s;
     Engine.agentExpertise := Engine.agentExpertise s;
     Engine.decisionHistory := Engine.decisionHistory s ++ [d] |}.

(** A bid within the ranges of the data model, with a time and a cost that
    are not vanishingly small. *)
Definition bid_in_model (bid : AgentBid.t) : Prop :=
  within 0 1 (AgentBid.confidence bid) /\
  within 0 1 (AgentBid.expertise bid) /\
  within 0 1 (AgentBid.culturalRelevance bid) /\
  (1e-290 <=? AgentBid.estimatedTime bid) = true /\
  (1e-290 <=? AgentBid.resourceCost bid) = true.

(** The calls a client can make on an engine, and a run of such calls. *)
Inductive call :=
| Auction (taskId : string) (bids : list AgentBid.t) (culturalContext : string)
| Vote (now : Z) (proposals : list Proposal.t) (culturalContext : string)
| Adapt (taskComplexity : complexity) (agents : list string) (culturalContext : string)
| LearnExpertise (agentId : string) (performance : float)
| LearnWeight (context : string) (effectiveness : float)
| PeerReview (contentSize : option nat) (reviewers : list string) (culturalContext : string)
    (draws : nat -> float)
| ReadMetrics.

Definition step (numberToString : float -> string) (c : call) (s : Engine.state)
  : Engine.state :=
  match c with
  | Auction taskId bids culturalContext =>
      snd (Engine.auctionBasedAllocation numberToString taskId bids culturalContext s)
  | Vote now proposals culturalContext =>
      snd (Engine.expertiseWeightedVoting now proposals culturalContext s)
  | Adapt taskComplexity agents culturalContext =>
      snd (Engine.adaptiveConsensus taskComplexity agents culturalContext s)
  | LearnExpertise agentId performance =>
      snd (Engine.updateAgentExpertise agentId performance s)
  | LearnWeight context effectiveness =>
      snd (Engine.updateCulturalWeights context effectiveness s)
  | PeerReview contentSize reviewers culturalContext draws =>
      snd (Engine.peerReviewConsensus contentSize reviewers culturalContext draws s)
  | ReadMetrics => snd (Engine.getConsensusMetrics s)
  end.

Definition run (numberToString : float -> string) (calls : list call) (s : Engine.state)
  : Engine.state :=
  fold_left (fun s c => step numberToString c s) calls s.

(** [k] is the earliest key of [keys] whose count is largest. *)
Definition first_most (count : string -> nat) (keys : list string) (k : string) : Prop :=
  exists before after,
    keys = before ++ k :: after /\
    (forall y, In y before -> count y < count k) /\
    (forall y, In y after -> count y <= count k).

(** How often each text of [keys] occurs: a map from the texts to their
    counts, in the order of their first occurrence. *)
Definition tally (keys : list string) : list (string * nat) :=
  fold_left (fun m k => Js.map_set k (default 0%nat (Js.map_get k m) + 1)%nat m) keys [].

(** Every result has a JSON text, [text r], and [JSON.parse] reads that
    text back as a value that has the same text. *)
Definition serializable {result : Type}
  (stringify : result -> Js.outcome (option string)) (parse : string -> Js.outcome result)
  (text : result -> string) (results : list result) : Prop :=
  forall r, In r results ->
    stringify r = Js.Returned (Some (text r)) /\
    exists v, parse (text r) = Js.Returned v /\ stringify v = Js.Returned (Some (text r)).

(** The binary64 number nearest to the whole number [n]: [n] itself up to
    [2^53]. *)
Definition nearest (n : nat) : spec_float := binary_normalize prec emax (Z.of_nat n) 0 false.

(** Two numbers that compare alike against every number. *)
Definition same_order (a b : float) : Prop := forall v, (a <? v) = (b <? v).

(** The agent has an entry in the registry and in the network table. *)
Definition registered (s : Manager.state) (id : string) : Prop :=
  is_Some (Manager.agents s !! id) /\ is_Some (Manager.agentNetworks s !! id).

(** The score the selection computes for a registered agent. *)
Definition intelligentScore (s : Manager.state) (task : Manager.SwarmTask) (id : string)
  : float :=
  match Manager.agents s !! id, Manager.agentNetworks s !! id with
  | Some agent, Some network => Manager.agentScore agent network task
  | _, _ => 0
  end.

(** The last [n] entries of a history. *)
Definition last_entries {A} (n : nat) (l : list A) : list A := rev (firstn n (rev l)).

(** The mean of a list of numbers, summed from zero in their order. *)
Definition mean (l : list float) : float :=
  fold_left PrimFloat.add l 0 / Js.of_nat (length l).

(** The point score of the amended claim: up to 40 points for the share of
    the required capabilities the agent has, 20 for the mean accuracy of its
    last 10 history entries (on a scale of 10), 10 for their mean completion
    time (one point less for each second), 20 for the centrality and 10 for
    the trust score (on a scale of 100); the points are summed from zero in
    this order, and the two history terms are absent on an empty history. *)
Definition pointScore
  (agent : Manager.BaseAgent) (network : Manager.AgentNetwork) (task : Manager.SwarmTask)
  : float :=
  let required := Manager.requiredCapabilities task in
  let matches :=
    length (List.filter
              (fun cap =>
                 if in_dec string_dec cap (Manager.availableCapabilities agent)
                 then true else false)
              required) in
  let recent := last_entries 10 (Manager.performanceHistory agent) in
  let capabilityPoints := Js.of_nat matches / Js.of_nat (length required) * 40 in
  let accuracyPoints := mean (map Manager.accuracy recent) / 10 * 20 in
  let speedPoints := Js.math_max 0 (10 - mean (map Manager.completionTime recent) / 1000) in
  let networkPoints := Manager.centrality network * 20 in
  let trustPoints := Manager.trustScore agent / 100 * 10 in
  match Manager.performanceHistory agent with
  | [] => 0 + capabilityPoints + networkPoints + trustPoints
  | _ => 0 + capabilityPoints + accuracyPoints + speedPoints + networkPoints + trustPoints
  end.

(** The point score of a registered agent. *)
Definition points (s : Manager.state) (task : Manager.SwarmTask) (id : string) : float :=
  match Manager.agents s !! id, Manager.agentNetworks s !! id with
  | Some agent, Some network => pointScore agent network task
  | _, _ => 0
  end.

(** The weighted score as the claim writes it (weights 0.40, 0.20, 0.10, 0.20,
    0.10; the two history terms are 0 on an empty history). *)
Definition claimedScore
  (agent : Manager.BaseAgent) (network : Manager.AgentNetwork) (task : Manager.SwarmTask)
  : float :=
  let capabilityMatches :=
    length (List.filter
              (fun cap => Manager.includes (Manager.availableCapabilities agent) cap)
              (Manager.requiredCapabilities task)) in
  let requiredCount := length (Manager.requiredCapabilities task) in
  let recent := Js.slice_last 10 (Manager.performanceHistory agent) in
  let avgAccuracy :=
    fold_left (fun sum p => sum + Manager.accuracy p) recent 0
    / Js.of_nat (length recent) in
  let avgCompletionTime :=
    fold_left (fun sum p => sum + Manager.completionTime p) recent 0
    / Js.of_nat (length recent) in
  0.40 * (Js.of_nat capabilityMatches / Js.of_nat requiredCount) +
  (match recent with [] => 0 | _ => 0.20 * (avgAccuracy / 10) end) +
  (match recent with [] => 0 | _ => 0.10 * Js.math_max 0 (10 - avgCompletionTime / 1000) end) +
  0.20 * Manager.centrality network +
  0.10 * (Manager.trustScore agent / 100).

(** The loops [for (const [key, value] of map) if (value > max) ...]: one
    step, the entries of a map filled key by key, and the list it was filled
    from. *)
Definition pick {V X} (lt : V -> V -> bool) (upd : string -> X)
  (acc : V * X) (e : string * V) : V * X :=
  if lt (fst acc) (snd e) then (snd e, upd (fst e)) else acc.

Definition entries {V} (f : string -> V) (ids : list string) : list (string * V) :=
  fold_left (fun m k => Js.map_set k (f k) m) ids [].

Definition listed {V} (f : string -> V) (ids : list string) : list (string * V) :=
  map (fun k => (k, f k)) ids.

(** The number a learning call feeds in is not NaN. *)
Definition learns_a_number (c : call) : Prop :=
  match c with
  | LearnExpertise _ performance => is_nan performance = false
  | LearnWeight _ effectiveness => is_nan effectiveness = false
  | _ => True
  end.

End Spec.

(** ** Notions for the further properties *)

Module Notions.
Local Open Scope float_scope.
Import Spec.

(** The votes of a run that push a decision: those with a proposal. *)
Definition votes_cast (calls : list call) : nat :=
  length (List.filter (fun c => match c with Vote _ (_ :: _) _ => true | _ => false end) calls).

(** The vote an agent ends with: the weight of the last of its proposals. *)
Definition finalVote (s : Engine.state) (culturalContext : string)
  (proposals : list Proposal.t) (agent : string) : option float :=
  match find (fun p => String.eqb (Proposal.agentId p) agent) (rev proposals) with
  | Some p => Some (Engine.adjustedWeight s culturalContext p)
  | None => None
  end.

(** A number that is finite, of exponent at most [B], and not negative. *)
Definition small (B : Z) (x : float) : Prop := finite_below B x /\ (0 <=? x) = true.

(** Zero, or a positive number or infinity. *)
Definition nonneg (x : spec_float) : Prop :=
  match x with
  | S754_zero _ | S754_finite false _ _ | S754_infinity false => True
  | _ => False
  end.

End Notions.

Module ManagerSpec.
Import SwarmManager.
Local Open Scope float_scope.

(** Every value [Math.random()] gives lies in [0 .. 1). *)
Definition unit_draws (draws : nat -> float) : Prop :=
  forall i, (0 <=? draws i) = true /\ (draws i <? 1) = true.

(** The calls a client can make on a manager, and a run of such calls. *)
Inductive call :=
| CreateSwarm (now : Z) (config : SwarmConfiguration.t)
| ExecuteSwarmTask (swarm_id : string) (task : SwarmTask.t) (now : Z) (draws : nat -> float)
| ReadMetrics.

Definition step (numberToString : float -> string) (serialize : Js.value -> string)
  (c : call) (s : state) : state :=
  match c with
  | CreateSwarm now config => snd (createSwarm now config s)
  | ExecuteSwarmTask swarm_id task now draws =>
      snd (executeSwarmTask numberToString serialize swarm_id task now draws s)
  | ReadMetrics => snd (getConsensusMetrics s)
  end.

Definition run (numberToString : float -> string) (serialize : Js.value -> string)
  (calls : list call) (s : state) : state :=
  fold_left (fun s c => step numberToString serialize c s) calls s.

Definition draws_in_unit (c : call) : Prop :=
  match c with
  | ExecuteSwarmTask _ _ _ draws => unit_draws draws
  | _ => True
  end.

(** The date and the configuration of the last [createSwarm] call of a run
    that carried the id [swarm_id]; none for the empty id, which
    [createSwarm] refuses. *)
Definition last_created (swarm_id : string) (calls : list call)
  : option (Z * SwarmConfiguration.t) :=
  fold_left
    (fun found c =>
       match c with
       | CreateSwarm now config =>
           if String.eqb (SwarmConfiguration.swarm_id config) swarm_id
              && negb (String.eqb swarm_id EmptyString)
           then Some (now, config) else found
       | _ => found
       end)
    calls None.

(** A method that never throws an [Error] (it may throw a [TypeError]). *)
Definition no_Error {A} (m : method A) : Prop :=
  forall s msg, fst (m s) <> Js.Thrown (Js.Error msg).

(** The score of a bid in the auction the manager holds for a swarm. *)
Definition bidScore (s : state) (swarm : ActiveSwarm.t) (bid : AgentBid.t) : float :=
  Engine.calculateCompositeScore (consensus_engine s) bid
    (or_default (ActiveSwarm.cultural_context swarm)).

(** The task as [executeSwarmTask] passes it on: with the swarm's cultural
    context when the swarm has one. *)
Definition adapted (swarm : ActiveSwarm.t) (task : SwarmTask.t) : SwarmTask.t :=
  match ActiveSwarm.cultural_context swarm with
  | Some context => if String.eqb context ""%string then task else adaptTask task context
  | None => task
  end.

(** How [assessTaskComplexity] grades a payload that has a serialization. *)
Definition graded (serialize : Js.value -> string) (task : SwarmTask.t) (k : complexity)
  : Prop :=
  SwarmTask.payload task <> Js.Undefined /\
  let size := String.length (serialize (SwarmTask.payload task)) in
  match k with
  | simple => (size < 100)%nat
  | moderate => (100 <= size < 1000)%nat
  | complex => (1000 <= size)%nat
  end.

(** What the manager keeps true of itself: every swarm is registered under
    its own id, which is not empty; the engine's threshold is 0.7, it has
    learned no cultural weight, and its expertise table is in range. *)
Definition well_kept (s : state) : Prop :=
  (forall k swarm, active_swarms s !! k = Some swarm -> ActiveSwarm.id swarm = k /\ k <> ""%string) /\
  Engine.consensusThreshold (consensus_engine s) = 0.7 /\
  Engine.culturalWeights (consensus_engine s) = ∅ /\
  Spec.expertise_in_range (consensus_engine s).

(** Two states of the manager with the same swarms and, in the engine, the
    same threshold and the same learned tables. *)
Definition same_tables (s s' : state) : Prop :=
  active_swarms s' = active_swarms s /\
  Engine.consensusThreshold (consensus_engine s') = Engine.consensusThreshold (consensus_engine s) /\
  Engine.culturalWeights (consensus_engine s') = Engine.culturalWeights (consensus_engine s) /\
  Engine.agentExpertise (consensus_engine s') = Engine.agentExpertise (consensus_engine s).

End ManagerSpec.

Module TasksSpec.
Import ManagerTasks.
Local Open Scope float_scope.

(** [x] is the earliest element of [l] whose score is minimal. *)
Definition first_min {A} (score : A -> float) (l : list A) (x : A) : Prop :=
  exists before after,
    l = (before ++ x :: after)%list /\
    (forall y, In y before -> (score x <? score y) = true) /\
    (forall y, In y after -> (score x <=? score y) = true).

(** The workload of a registered agent. *)
Definition workloadOf (s : state) (agentId : string) : float :=
  match agents s !! agentId with
  | Some agent => workload agent
  | None => infinity
  end.

(** The number of required capabilities an agent has; zero for an agent
    that is not registered. *)
Definition capabilityCount (s : state) (requiredCapabilities : list string) (agentId : string)
  : nat :=
  match agents s !! agentId with
  | Some agent =>
      length (List.filter (Manager.includes (availableCapabilities agent)) requiredCapabilities)
  | None => 0
  end.

(** The answers a collaborative task gets: those of the assigned agents
    that are registered and return, in the order of the assignment. *)
Definition answers {result} (executeTask : string -> SwarmTask -> Js.outcome result)
  (s : state) (task : SwarmTask) : list result :=
  omap
    (fun agentId =>
       match agents s !! agentId with
       | Some _ => Js.returned (executeTask agentId (Collaborative.asked task agentId))
       | None => None
       end)
    (assignedAgents task).

End TasksSpec.

(** ** Sample data for the concrete runs of the orchestrator *)

Module Scenario.
Import SwarmManager.
Local Open Scope string_scope.

Definition agent (id : string) : AgentConfiguration.t :=
  {| AgentConfiguration.id := id;
     AgentConfiguration.capabilities := [];
     AgentConfiguration.expertise := [];
     AgentConfiguration.performance_history := Js.Null;
     AgentConfiguration.resource_availability := Js.Null |}.

Definition limits : ResourceLimits.t :=
  {| ResourceLimits.max_agents := 3%float;
     ResourceLimits.max_parallel_tasks := 1%float;
     ResourceLimits.cpu_limit := None;
     ResourceLimits.memory_limit := None;
     ResourceLimits.gpu_limit := None |}.

Definition config (swarm_id : string) (pattern : CoordinationPattern) (agents : list string)
  (cultural_context : option string) : SwarmConfiguration.t :=
  {| SwarmConfiguration.swarm_id := swarm_id;
     SwarmConfiguration.purpose := general;
     SwarmConfiguration.agents := map agent agents;
     SwarmConfiguration.coordination_pattern := pattern;
     SwarmConfiguration.resource_limits := limits;
     SwarmConfiguration.cultural_context := cultural_context |}.

Definition task (payload : Js.value) : SwarmTask.t :=
  {| SwarmTask.id := "t1";
     SwarmTask.description := "a task";
     SwarmTask.complexity := simple;
     SwarmTask.required_expertise := [];
     SwarmTask.cultural_context := None;
     SwarmTask.payload := payload |}.

(** The serialization of [null] and of arrays of [null]s. *)
Definition serialize (v : Js.value) : string :=
  match v with
  | Js.Array items => "[" ++ String.concat "," (map (fun _ => "null") items) ++ "]"
  | _ => "null"
  end.

Definition numberToString (x : float) : string := "0.5".

(** Every draw is one half. *)
Definition draws (i : nat) : float := 0.5%float.

(** A manager with one swarm of the given pattern, and that swarm. *)
Definition manager (pattern : CoordinationPattern) (agents : list string) : state :=
  snd (createSwarm 0 (config "s" pattern agents (Some "japan_tokyo")) create).

Definition swarm (pattern : CoordinationPattern) (agents : list string) : ActiveSwarm.t :=
  {| ActiveSwarm.id := "s";
     ActiveSwarm.config := config "s" pattern agents (Some "japan_tokyo");
     ActiveSwarm.agents := map agent agents;
     ActiveSwarm.communicationGraph :=
       buildCommunicationGraph (map agent agents) pattern;
     ActiveSwarm.createdAt := 0;
     ActiveSwarm.cultural_context := Some "japan_tokyo";
     ActiveSwarm.coordination_pattern := Some pattern |}.

(** An array of [n] [null]s. *)
Definition nulls (n : nat) : Js.value := Js.Array (repeat Js.Null n).

End Scenario.

(* ===================================================================== *)
(** * Part II: binary64 arithmetic and the JavaScript primitives *)
(* ===================================================================== *)

(** ** Comparison of specification floats is a total preorder off NaN *)

Module SFOrder.
Import SF.
Local Open Scope Z_scope.

Ltac by_cases x := destruct x as [[]|[]| |[] ? ?].

Ltac cmp_cases :=
  repeat match goal with
  | H : context [Z.compare ?a ?b] |- _ => destruct (Z.compare_spec a b)
  | H : context [Pos.compare_cont Eq ?a ?b] |- _ =>
      change (Pos.compare_cont Eq a b) with (Pos.compare a b) in H;
      destruct (Pos.compare_spec a b)
  | |- context [Z.compare ?a ?b] => destruct (Z.compare_spec a b)
  | |- context [Pos.compare_cont Eq ?a ?b] =>
      change (Pos.compare_cont Eq a b) with (Pos.compare a b);
      destruct (Pos.compare_spec a b)
  end.

Ltac trans_tac x y z :=
  by_cases x; by_cases y; by_cases z; simpl; try congruence; intros;
  cmp_cases; simpl in *; try congruence; try lia.

Lemma compare_refl x : nanb x = false -> SFcompare x x = Some Eq.
Proof.
  destruct x as [[]|[]| |[] m e]; simpl; try congruence; intros _;
    rewrite Z.compare_refl; change (Pos.compare_cont Eq m m) with (Pos.compare m m);
    now rewrite Pos.compare_refl.
Qed.

Lemma compare_total x y :
  nanb x = false -> nanb y = false -> SFcompare x y <> None.
Proof. by_cases x; by_cases y; simpl; congruence. Qed.

Lemma compare_not_nan x y :
  SFcompare x y <> None -> nanb x = false /\ nanb y = false.
Proof. by_cases x; by_cases y; simpl; intuition congruence. Qed.

Lemma compare_antisym x y : SFcompare y x = option_map CompOpp (SFcompare x y).
Proof.
  destruct x as [[]|[]| |[] m e]; destruct y as [[]|[]| |[] m0 e0]; simpl; try reflexivity;
    rewrite (Z.compare_antisym e e0);
    change (Pos.compare_cont Eq m0 m) with (Pos.compare m0 m);
    change (Pos.compare_cont Eq m m0) with (Pos.compare m m0);
    rewrite (Pos.compare_antisym m m0);
    destruct (e ?= e0)%Z; simpl; try reflexivity; destruct (m ?= m0)%positive; reflexivity.
Qed.

Lemma compare_lt_trans x y z :
  SFcompare x y = Some Lt -> SFcompare y z = Some Lt -> SFcompare x z = Some Lt.
Proof. trans_tac x y z. Qed.

Lemma compare_lt_eq_trans x y z :
  SFcompare x y = Some Lt -> SFcompare y z = Some Eq -> SFcompare x z = Some Lt.
Proof. trans_tac x y z. Qed.

Lemma compare_eq_lt_trans x y z :
  SFcompare x y = Some Eq -> SFcompare y z = Some Lt -> SFcompare x z = Some Lt.
Proof. trans_tac x y z. Qed.

Lemma compare_eq_trans x y z :
  SFcompare x y = Some Eq -> SFcompare y z = Some Eq -> SFcompare x z = Some Eq.
Proof. trans_tac x y z. Qed.

End SFOrder.

(** ** Rounding keeps the sign of a nonzero result *)

Module Round.
Import SF.
Local Open Scope Z_scope.

Lemma digits2_pos_size p : digits2_pos p = Pos.size p.
Proof. induction p; simpl; congruence. Qed.

Lemma Zdigits2_log2 p : Zdigits2 (Zpos p) = Z.log2 (Zpos p) + 1.
Proof.
  simpl. rewrite digits2_pos_size. destruct p; simpl; try reflexivity; lia.
Qed.

Lemma Zdigits2_bounds p :
  2 ^ (Zdigits2 (Zpos p) - 1) <= Zpos p < 2 ^ Zdigits2 (Zpos p).
Proof.
  rewrite Zdigits2_log2.
  replace (Z.log2 (Z.pos p) + 1 - 1) with (Z.log2 (Z.pos p)) by lia.
  replace (Z.log2 (Z.pos p) + 1) with (Z.succ (Z.log2 (Z.pos p))) by lia.
  apply Z.log2_spec. lia.
Qed.

Lemma shr_1_m mrs : 0 <= shr_m mrs -> shr_m (shr_1 mrs) = Z.div2 (shr_m mrs).
Proof.
  destruct mrs as [m r s]; simpl. destruct m as [|p|p]; [reflexivity| |lia].
  intros _. destruct p; reflexivity.
Qed.

Lemma iter_shr_m p : forall mrs,
  0 <= shr_m mrs -> shr_m (SpecFloat.iter_pos shr_1 p mrs) = Z.shiftr (shr_m mrs) (Zpos p).
Proof.
  induction p as [p IH|p IH|]; intros mrs Hm; simpl SpecFloat.iter_pos.
  - assert (H1 : 0 <= shr_m (shr_1 mrs)).
    { rewrite shr_1_m by assumption. rewrite Z.div2_nonneg. assumption. }
    assert (H2 : 0 <= shr_m (SpecFloat.iter_pos shr_1 p (shr_1 mrs))).
    { rewrite IH by assumption. apply Z.shiftr_nonneg. assumption. }
    rewrite IH, IH, shr_1_m by assumption.
    rewrite Z.div2_spec, !Z.shiftr_shiftr by lia. f_equal. lia.
  - assert (H2 : 0 <= shr_m (SpecFloat.iter_pos shr_1 p mrs)).
    { rewrite IH by assumption. apply Z.shiftr_nonneg. assumption. }
    rewrite IH, IH by assumption.
    rewrite !Z.shiftr_shiftr by lia. f_equal. lia.
  - rewrite shr_1_m by assumption. apply Z.div2_spec.
Qed.

Lemma shr_record_of_loc_m m l : shr_m (shr_record_of_loc m l) = m.
Proof. destruct l as [|[]]; reflexivity. Qed.

Lemma shr_m_shr mrs e n :
  0 <= shr_m mrs ->
  shr_m (fst (shr mrs e n)) = Z.shiftr (shr_m mrs) (Z.max 0 n) /\
  snd (shr mrs e n) = e + Z.max 0 n.
Proof.
  intros Hm. destruct n as [|p|p]; simpl.
  - split; [reflexivity | lia].
  - split; [now apply iter_shr_m | reflexivity].
  - split; [reflexivity | lia].
Qed.

Lemma fexp_eq e : fexp prec emax e = Z.max (e - 53) (-1074).
Proof. reflexivity. Qed.

Lemma shr_fexp_pos M e l :
  -1074 <= e ->
  0 < shr_m (fst (shr_fexp prec emax (Zpos M) e l)) /\
  -1074 <= snd (shr_fexp prec emax (Zpos M) e l).
Proof.
  intros He. unfold shr_fexp.
  set (n := fexp prec emax (Zdigits2 (Zpos M) + e) - e).
  destruct (shr_m_shr (shr_record_of_loc (Zpos M) l) e n) as [Hm Hs].
  { rewrite shr_record_of_loc_m. lia. }
  rewrite Hm, Hs, shr_record_of_loc_m. split; [|lia].
  assert (Hn : Z.max 0 n <= Z.log2 (Zpos M)).
  { unfold n. rewrite fexp_eq, Zdigits2_log2. pose proof (Z.log2_nonneg (Zpos M)). lia. }
  pose proof (Z.shiftr_nonneg (Zpos M) (Z.max 0 n)) as Hnn.
  assert (Z.shiftr (Zpos M) (Z.max 0 n) <> 0).
  { rewrite Z.shiftr_eq_0_iff. lia. }
  lia.
Qed.

Lemma round_nearest_even_pos m l : 0 < m -> 0 < round_nearest_even m l.
Proof.
  intros. unfold round_nearest_even. destruct l as [|[]]; try lia.
  destruct (Z.even m); lia.
Qed.

Lemma binary_round_aux_pos s M e l :
  -1074 <= e -> signed_nonzero s (binary_round_aux prec emax s (Zpos M) e l).
Proof.
  intros He. unfold binary_round_aux.
  destruct (shr_fexp_pos M e l He) as [H1 H2].
  destruct (shr_fexp prec emax (Zpos M) e l) as [mrs1 e1]. simpl in H1, H2.
  pose proof (round_nearest_even_pos _ (loc_of_shr_record mrs1) H1) as H3.
  destruct (round_nearest_even (shr_m mrs1) (loc_of_shr_record mrs1)) as [|M2|M2]; try lia.
  destruct (shr_fexp_pos M2 e1 loc_Exact H2) as [H4 H5].
  destruct (shr_fexp prec emax (Zpos M2) e1 loc_Exact) as [mrs2 e2]. simpl in H4, H5.
  destruct (shr_m mrs2); try lia.
  destruct (e2 <=? emax - prec); reflexivity.
Qed.

Lemma iter_xO m d : Zpos (Pos.iter xO m d) = Zpos m * 2 ^ Zpos d.
Proof.
  induction d using Pos.peano_ind.
  - simpl. lia.
  - rewrite Pos.iter_succ, Pos2Z.inj_succ, Z.pow_succ_r by lia.
    rewrite Pos2Z.inj_xO, IHd. lia.
Qed.

Lemma shl_align_val m e e' :
  e' <= e ->
  Zpos (fst (shl_align m e e')) = Zpos m * 2 ^ (e - e') /\
  snd (shl_align m e e') = e'.
Proof.
  intros H. unfold shl_align.
  destruct (e' - e) as [|p|p] eqn:E; simpl; try lia.
  - replace (e - e') with 0 by lia. rewrite Z.pow_0_r. split; lia.
  - rewrite iter_xO. replace (e - e') with (Zpos p) by lia. split; reflexivity.
Qed.

Lemma shl_align_ge m e e' : e <= e' -> shl_align m e e' = (m, e).
Proof.
  intros H. unfold shl_align. destruct (e' - e) eqn:E; try reflexivity; lia.
Qed.

Lemma binary_round_pos s m e :
  -1074 <= e -> signed_nonzero s (binary_round prec emax s m e).
Proof.
  intros He. unfold binary_round.
  set (e' := fexp prec emax (Zpos (digits2_pos m) + e)).
  assert (-1074 <= e') by (unfold e'; rewrite fexp_eq; lia).
  destruct (Z.le_gt_cases e' e) as [Hle|Hgt].
  - destruct (shl_align_val m e e' Hle) as [_ Hs].
    destruct (shl_align m e e') as [mz ez]. simpl in Hs. subst ez.
    now apply binary_round_aux_pos.
  - rewrite shl_align_ge by lia. now apply binary_round_aux_pos.
Qed.

Lemma binary_normalize_sign D e :
  -1074 <= e ->
  match D ?= 0 with
  | Eq => binary_normalize prec emax D e false = S754_zero false
  | Lt => signed_nonzero true (binary_normalize prec emax D e false)
  | Gt => signed_nonzero false (binary_normalize prec emax D e false)
  end.
Proof.
  intros He. destruct D; simpl; [reflexivity| |]; now apply binary_round_pos.
Qed.

Lemma shr_fexp_val m e l :
  0 <= m ->
  let n := fexp prec emax (Zdigits2 m + e) - e in
  shr_m (fst (shr_fexp prec emax m e l)) = Z.shiftr m (Z.max 0 n) /\
  snd (shr_fexp prec emax m e l) = e + Z.max 0 n.
Proof.
  intros Hm n. unfold shr_fexp. fold n.
  destruct (shr_m_shr (shr_record_of_loc m l) e n) as [H1 H2].
  { now rewrite shr_record_of_loc_m. }
  now rewrite H1, H2, shr_record_of_loc_m.
Qed.

Lemma round_nearest_even_range m l :
  m <= round_nearest_even m l <= m + 1.
Proof.
  unfold round_nearest_even. destruct l as [|[]]; try lia.
  destruct (Z.even m); lia.
Qed.

Lemma Zdigits2_pos_log2 m : 0 < m -> Zdigits2 m = Z.log2 m + 1.
Proof. destruct m; try lia. intros _. apply Zdigits2_log2. Qed.

Lemma Zdigits2_nonneg m : 0 <= m -> 0 <= Zdigits2 m.
Proof. destruct m; simpl; lia. Qed.

Lemma binary_round_aux_cases s M e l :
  0 <= M ->
  match binary_round_aux prec emax s M e l with
  | S754_zero s' => s' = s
  | S754_infinity s' => s' = s /\ 971 < reach M e
  | S754_finite s' _ e' => s' = s /\ e' <= reach M e
  | S754_nan => False
  end.
Proof.
  intros HM. unfold binary_round_aux, reach.
  pose proof (shr_fexp_val M e l HM) as H; cbv zeta in H.
  destruct H as [H1 H2].
  rewrite fexp_eq in H1, H2.
  assert (HD : 0 < M -> Zdigits2 M = Z.log2 M + 1) by apply Zdigits2_pos_log2.
  pose proof (Zdigits2_nonneg M HM) as HD0.
  set (D := Zdigits2 M) in *.
  set (k := Z.max 0 (Z.max (D + e - 53) (-1074) - e)) in *.
  assert (Hk : k = Z.max 0 (Z.max (D + e - 53) (-1074) - e)) by reflexivity.
  clearbody k D.
  destruct (shr_fexp prec emax M e l) as [mrs1 e1]. simpl in H1, H2.
  pose proof (round_nearest_even_range (shr_m mrs1) (loc_of_shr_record mrs1)) as Hr.
  set (m2 := round_nearest_even (shr_m mrs1) (loc_of_shr_record mrs1)) in *.
  clearbody m2.
  assert (Hm1 : 0 <= shr_m mrs1) by (rewrite H1; apply Z.shiftr_nonneg; lia).
  assert (Hm2 : 0 <= m2) by lia.
  pose proof (shr_fexp_val m2 e1 loc_Exact Hm2) as H; cbv zeta in H.
  destruct H as [H3 H4]. rewrite fexp_eq in H3, H4.
  destruct (shr_fexp prec emax m2 e1 loc_Exact) as [mrs2 e2]. simpl in H3, H4.
  assert (Hm3 : 0 <= shr_m mrs2) by (rewrite H3; apply Z.shiftr_nonneg; lia).
  assert (Hb : e2 <= Z.max (Z.max e (D + e - 52)) (-1074)).
  { destruct (Z.eq_dec m2 0) as [E|E].
    { subst m2. simpl Zdigits2 in H4. clear - H4 H2 Hk HD0. lia. }
    destruct (Z.eq_dec (shr_m mrs1) 0) as [E0|E0].
    { assert (Hone : m2 = 1) by lia. rewrite Hone in H4.
      change (Zdigits2 1) with 1 in H4. clear - H4 H2 Hk HD0. lia. }
    assert (HMpos : 0 < M).
    { destruct (Z.eq_dec M 0) as [->|]; [|lia]. rewrite Z.shiftr_0_l in H1. contradiction. }
    specialize (HD HMpos).
    assert (Hl : Z.log2 (shr_m mrs1) = Z.max 0 (Z.log2 M - k)).
    { rewrite H1. apply Z.log2_shiftr. lia. }
    assert (Hkl : k <= Z.log2 M).
    { destruct (Z.le_gt_cases k (Z.log2 M)) as [|Hgt]; [assumption|].
      exfalso. apply E0. rewrite H1. apply Z.shiftr_eq_0; [lia | exact Hgt]. }
    pose proof (Z.log2_le_mono m2 (shr_m mrs1 + 1)) as Hmono.
    pose proof (Z.log2_succ_le (shr_m mrs1)) as Hsucc.
    unfold Z.succ in Hsucc.
    assert (Hlog : Z.log2 m2 <= Z.log2 (shr_m mrs1) + 1) by lia.
    rewrite (Zdigits2_pos_log2 m2) in H4 by lia.
    clear - Hlog Hl Hkl H2 H4 HD Hk. lia. }
  destruct (shr_m mrs2); try lia.
  - reflexivity.
  - destruct (e2 <=? emax - prec) eqn:E.
    + split; [reflexivity | assumption].
    + split; [reflexivity|]. apply Z.leb_gt in E. change (emax - prec) with 971 in E. lia.
Qed.

End Round.

(** ** The sign of a difference is the order of its operands *)

Module Sub.
Import SF Round.
Local Open Scope Z_scope.

Lemma valid_canonical s m e :
  valid_binary (S754_finite s m e) = true -> canonical m e.
Proof.
  simpl. unfold bounded, canonical_mantissa. rewrite andb_true_iff, Z.eqb_eq.
  intros [H _]. exact H.
Qed.

Lemma canonical_emin m e : canonical m e -> -1074 <= e.
Proof. unfold canonical. lia. Qed.

Lemma mag_lt mx ex my ey :
  canonical mx ex -> canonical my ey -> ex < ey ->
  Zpos mx * 2 ^ (ex - Z.min ex ey) < Zpos my * 2 ^ (ey - Z.min ex ey).
Proof.
  unfold canonical. intros Hx Hy Hlt.
  rewrite Z.min_l by lia. replace (ex - ex) with 0 by lia. rewrite Z.pow_0_r.
  pose proof (Zdigits2_bounds mx) as [_ Bx].
  pose proof (Zdigits2_bounds my) as [By _].
  assert (Dy : Zdigits2 (Zpos my) = 53) by lia.
  assert (Dx : Zdigits2 (Zpos mx) <= 53) by lia.
  rewrite Dy in By. change (2 ^ (53 - 1)) with 4503599627370496 in By.
  assert (H : 2 ^ Zdigits2 (Zpos mx) <= 2 ^ 53) by (apply Z.pow_le_mono_r; lia).
  change (2 ^ 53) with 9007199254740992 in H.
  assert (H0 : 2 ^ 1 <= 2 ^ (ey - ex)) by (apply Z.pow_le_mono_r; lia).
  change (2 ^ 1) with 2 in H0. nia.
Qed.

Lemma compare_aligned sx mx ex sy my ey :
  canonical mx ex -> canonical my ey ->
  SFcompare (S754_finite sx mx ex) (S754_finite sy my ey) =
  Some (aligned sx mx ex (Z.min ex ey) ?= aligned sy my ey (Z.min ex ey)).
Proof.
  intros Hx Hy. unfold aligned.
  assert (Px : 0 < Zpos mx * 2 ^ (ex - Z.min ex ey)).
  { apply Z.mul_pos_pos; [lia | apply Z.pow_pos_nonneg; lia]. }
  assert (Py : 0 < Zpos my * 2 ^ (ey - Z.min ex ey)).
  { apply Z.mul_pos_pos; [lia | apply Z.pow_pos_nonneg; lia]. }
  assert (Hlt : ex < ey ->
    Zpos mx * 2 ^ (ex - Z.min ex ey) < Zpos my * 2 ^ (ey - Z.min ex ey))
    by (now apply mag_lt).
  assert (Hgt : ey < ex ->
    Zpos my * 2 ^ (ey - Z.min ex ey) < Zpos mx * 2 ^ (ex - Z.min ex ey)).
  { intros. rewrite Z.min_comm. now apply mag_lt. }
  assert (Heq : ex = ey ->
    Zpos mx * 2 ^ (ex - Z.min ex ey) = Zpos mx /\
    Zpos my * 2 ^ (ey - Z.min ex ey) = Zpos my).
  { intros ->. rewrite Z.min_id, Z.sub_diag, Z.pow_0_r. lia. }
  simpl. f_equal. symmetry.
  change (Pos.compare_cont Eq mx my) with (Z.compare (Zpos mx) (Zpos my)).
  destruct sx, sy; simpl cond_Zopp.
  - destruct (Z.compare_spec ex ey) as [E|E|E].
    + destruct (Heq E) as [-> ->]. rewrite <- Z.compare_opp.
      simpl. now rewrite Pos.compare_antisym.
    + specialize (Hlt E). rewrite Z.compare_gt_iff. lia.
    + specialize (Hgt E). rewrite Z.compare_lt_iff. lia.
  - rewrite Z.compare_lt_iff. lia.
  - rewrite Z.compare_gt_iff. lia.
  - destruct (Z.compare_spec ex ey) as [E|E|E].
    + destruct (Heq E) as [-> ->]. reflexivity.
    + specialize (Hlt E). rewrite Z.compare_lt_iff. lia.
    + specialize (Hgt E). rewrite Z.compare_gt_iff. lia.
Qed.

Lemma SFsub_finite_sign sx mx ex sy my ey :
  canonical mx ex -> canonical my ey ->
  match SFcompare (S754_finite sx mx ex) (S754_finite sy my ey) with
  | Some Eq => SF64sub (S754_finite sx mx ex) (S754_finite sy my ey) = S754_zero false
  | Some Lt => signed_nonzero true (SF64sub (S754_finite sx mx ex) (S754_finite sy my ey))
  | Some Gt => signed_nonzero false (SF64sub (S754_finite sx mx ex) (S754_finite sy my ey))
  | None => False
  end.
Proof.
  intros Hx Hy. rewrite compare_aligned by assumption.
  unfold SF64sub, SFsub. cbv zeta.
  destruct (shl_align_val mx ex (Z.min ex ey)) as [-> _]; [lia|].
  destruct (shl_align_val my ey (Z.min ex ey)) as [-> _]; [lia|].
  fold (aligned sx mx ex (Z.min ex ey)). fold (aligned sy my ey (Z.min ex ey)).
  rewrite Z.compare_sub.
  apply binary_normalize_sign.
  apply canonical_emin in Hx, Hy. lia.
Qed.

Lemma SFsub_ltb_zero x y :
  valid_binary x = true -> valid_binary y = true ->
  SFltb (SF64sub x y) (S754_zero false) = SFltb x y /\
  SFltb (S754_zero false) (SF64sub x y) = SFltb y x.
Proof.
  intros Vx Vy.
  destruct x as [[]|[]| |sx mx ex]; destruct y as [[]|[]| |sy my ey];
    try (split; reflexivity);
    try (destruct sx; split; reflexivity);
    try (destruct sy; split; reflexivity).
  apply valid_canonical in Vx, Vy.
  pose proof (SFsub_finite_sign sx mx ex sy my ey Vx Vy) as H.
  unfold SFltb at 2 4.
  rewrite (SFOrder.compare_antisym (S754_finite sx mx ex) (S754_finite sy my ey)).
  destruct (SFcompare (S754_finite sx mx ex) (S754_finite sy my ey)) as [[]|];
    try contradiction; simpl option_map; cbv iota.
  - rewrite H. split; reflexivity.
  - destruct (SF64sub _ _) as [?|[]| |[] ? ?]; simpl in H; try contradiction;
      try discriminate; split; reflexivity.
  - destruct (SF64sub _ _) as [?|[]| |[] ? ?]; simpl in H; try contradiction;
      try discriminate; split; reflexivity.
Qed.

End Sub.

(** ** How far the exponent of a product, a sum and a quotient can go *)

Module Bounds.
Import SF Round Sub.
Local Open Scope Z_scope.

Lemma canonical_digits m e : canonical m e -> Zdigits2 (Zpos m) <= 53.
Proof. unfold canonical. lia. Qed.

Lemma below_of_cases s M e l B :
  0 <= M -> reach M e <= B -> B <= 971 ->
  below B (binary_round_aux prec emax s M e l).
Proof.
  intros HM Hr HB. pose proof (binary_round_aux_cases s M e l HM) as H.
  destruct (binary_round_aux prec emax s M e l); simpl; try tauto; lia.
Qed.

Lemma not_nan_of_cases s M e l :
  0 <= M -> nanb (binary_round_aux prec emax s M e l) = false.
Proof.
  intros HM. pose proof (binary_round_aux_cases s M e l HM) as H.
  destruct (binary_round_aux prec emax s M e l); simpl; try tauto.
Qed.

Lemma digits_mul_le a b :
  Zdigits2 (Zpos (a * b)) <= Zdigits2 (Zpos a) + Zdigits2 (Zpos b).
Proof.
  rewrite !Zdigits2_log2, Pos2Z.inj_mul.
  pose proof (Z.log2_mul_above (Zpos a) (Zpos b)). lia.
Qed.

Lemma SFmul_below x y B1 B2 :
  valid_binary x = true -> valid_binary y = true ->
  below B1 x -> below B2 y -> B1 + B2 + 54 <= 971 ->
  below (Z.max (B1 + B2 + 54) (-1074)) (SF64mul x y).
Proof.
  intros Vx Vy Hx Hy HB.
  destruct x as [sx|sx| |sx mx ex]; destruct y as [sy|sy| |sy my ey];
    simpl in Hx, Hy; try contradiction; try exact I.
  apply valid_canonical, canonical_digits in Vx, Vy.
  unfold SF64mul, SFmul. apply below_of_cases; [lia| |lia].
  unfold reach. pose proof (digits_mul_le mx my). lia.
Qed.

Lemma SFmul_comm x y : SF64mul x y = SF64mul y x.
Proof.
  destruct x as [[]|[]| |sx mx ex]; destruct y as [[]|[]| |sy my ey];
    try reflexivity; try (destruct sx; reflexivity); try (destruct sy; reflexivity).
  unfold SF64mul, SFmul.
  now rewrite (Pos.mul_comm mx my), (Z.add_comm ex ey), (xorb_comm sx sy).
Qed.

Lemma SFmul_not_nan x y :
  nanb x = false ->
  match y with S754_finite _ _ _ => True | _ => False end ->
  nanb (SF64mul x y) = false.
Proof.
  intros Hx Hy. destruct y as [| | |sy my ey]; try contradiction.
  destruct x as [sx|sx| |sx mx ex]; try discriminate; try reflexivity.
  unfold SF64mul, SFmul. apply not_nan_of_cases. lia.
Qed.

Lemma binary_round_reach s m e :
  match binary_round prec emax s m e with
  | S754_zero s' => s' = s
  | S754_infinity s' => s' = s /\ 971 < reach (Zpos m) e
  | S754_finite s' _ e' => s' = s /\ e' <= reach (Zpos m) e
  | S754_nan => False
  end.
Proof.
  unfold binary_round.
  set (e' := fexp prec emax (Zpos (digits2_pos m) + e)).
  destruct (Z.le_gt_cases e' e) as [Hle|Hgt].
  - destruct (shl_align_val m e e' Hle) as [Hv Hs].
    destruct (shl_align m e e') as [mz ez]. simpl in Hv, Hs. subst ez.
    pose proof (binary_round_aux_cases s (Zpos mz) e' loc_Exact ltac:(lia)) as H.
    assert (Hr : reach (Zpos mz) e' <= reach (Zpos m) e).
    { unfold reach. rewrite !Zdigits2_log2, Hv.
      rewrite Z.log2_mul_pow2 by lia. lia. }
    destruct (binary_round_aux prec emax s (Zpos mz) e' loc_Exact); try tauto;
      (destruct H; split; [assumption | lia]).
  - rewrite shl_align_ge by lia.
    apply (binary_round_aux_cases s (Zpos m) e loc_Exact). lia.
Qed.

Lemma binary_normalize_reach D e :
  match binary_normalize prec emax D e false with
  | S754_zero _ => True
  | S754_infinity _ => 971 < reach D e
  | S754_finite _ _ e' => e' <= reach D e
  | S754_nan => False
  end.
Proof.
  destruct D as [|m|m]; simpl; [exact I| |].
  - pose proof (binary_round_reach false m e) as H.
    destruct (binary_round prec emax false m e); tauto.
  - pose proof (binary_round_reach true m e) as H.
    change (reach (Zneg m) e) with (reach (Zpos m) e).
    destruct (binary_round prec emax true m e); tauto.
Qed.

Lemma digits_sum_le a b d :
  0 <= d -> Z.abs a < 2 ^ d -> Z.abs b < 2 ^ d -> Zdigits2 (a + b) <= d + 1.
Proof.
  intros Hd Ha Hb.
  assert (Hs : Z.abs (a + b) < 2 ^ (d + 1)).
  { rewrite Z.pow_add_r by lia. change (2 ^ 1) with 2. lia. }
  destruct (a + b) as [|p|p] eqn:E; simpl Zdigits2.
  - lia.
  - change (Zpos (digits2_pos p)) with (Zdigits2 (Zpos p)). rewrite Zdigits2_log2.
    change (Z.abs (Zpos p)) with (Zpos p) in Hs.
    apply Z.log2_lt_pow2 in Hs; lia.
  - change (Zpos (digits2_pos p)) with (Zdigits2 (Zpos p)). rewrite Zdigits2_log2.
    change (Z.abs (Zneg p)) with (Zpos p) in Hs.
    apply Z.log2_lt_pow2 in Hs; lia.
Qed.

Lemma aligned_abs_lt s m e ez :
  ez <= e -> Z.abs (aligned s m e ez) < 2 ^ (Zdigits2 (Zpos m) + (e - ez)).
Proof.
  intros H. unfold aligned.
  assert (Z.abs (cond_Zopp s (Zpos m * 2 ^ (e - ez))) = Zpos m * 2 ^ (e - ez)) as ->.
  { assert (0 < 2 ^ (e - ez)) by (apply Z.pow_pos_nonneg; lia).
    destruct s; simpl cond_Zopp; lia. }
  rewrite Z.pow_add_r by (pose proof (Zdigits2_log2 m); pose proof (Z.log2_nonneg (Zpos m)); lia).
  apply Z.mul_lt_mono_pos_r; [apply Z.pow_pos_nonneg; lia|].
  apply Zdigits2_bounds.
Qed.

Lemma SFadd_finite_reach sx mx ex sy my ey :
  canonical mx ex -> canonical my ey ->
  match SF64add (S754_finite sx mx ex) (S754_finite sy my ey) with
  | S754_zero _ => True
  | S754_infinity _ => 971 < Z.max (Z.max ex ey + 2) (-1074)
  | S754_finite _ _ e' => e' <= Z.max (Z.max ex ey + 2) (-1074)
  | S754_nan => False
  end.
Proof.
  intros Hx Hy. unfold SF64add, SFadd. cbv zeta.
  destruct (shl_align_val mx ex (Z.min ex ey)) as [-> _]; [lia|].
  destruct (shl_align_val my ey (Z.min ex ey)) as [-> _]; [lia|].
  fold (aligned sx mx ex (Z.min ex ey)). fold (aligned sy my ey (Z.min ex ey)).
  set (D := aligned sx mx ex (Z.min ex ey) + aligned sy my ey (Z.min ex ey)).
  pose proof (binary_normalize_reach D (Z.min ex ey)) as H.
  assert (Hr : reach D (Z.min ex ey) <= Z.max (Z.max ex ey + 2) (-1074)).
  { unfold reach.
    pose proof (canonical_digits _ _ Hx). pose proof (canonical_digits _ _ Hy).
    pose proof (aligned_abs_lt sx mx ex (Z.min ex ey) ltac:(lia)) as Ax.
    pose proof (aligned_abs_lt sy my ey (Z.min ex ey) ltac:(lia)) as Ay.
    pose proof (Zdigits2_log2 mx). pose proof (Z.log2_nonneg (Zpos mx)).
    pose proof (Zdigits2_log2 my). pose proof (Z.log2_nonneg (Zpos my)).
    set (d := Z.max (Zdigits2 (Zpos mx) + (ex - Z.min ex ey))
                    (Zdigits2 (Zpos my) + (ey - Z.min ex ey))).
    assert (Hd : Zdigits2 D <= d + 1).
    { apply digits_sum_le; [lia| |].
      - eapply Z.lt_le_trans; [exact Ax|]. apply Z.pow_le_mono_r; lia.
      - eapply Z.lt_le_trans; [exact Ay|]. apply Z.pow_le_mono_r; lia. }
    lia. }
  destruct (binary_normalize prec emax D (Z.min ex ey) false); try tauto; lia.
Qed.

Lemma SFadd_below x y B1 B2 :
  valid_binary x = true -> valid_binary y = true ->
  below B1 x -> below B2 y -> Z.max B1 B2 + 2 <= 971 ->
  below (Z.max (Z.max B1 B2 + 2) (-1074)) (SF64add x y).
Proof.
  intros Vx Vy Hx Hy HB.
  destruct x as [sx|sx| |sx mx ex]; destruct y as [sy|sy| |sy my ey];
    simpl in Hx, Hy; try contradiction.
  - destruct sx, sy; exact I.
  - simpl. lia.
  - simpl. lia.
  - apply valid_canonical in Vx, Vy.
    pose proof (SFadd_finite_reach sx mx ex sy my ey Vx Vy) as H.
    destruct (SF64add _ _); simpl; try tauto; lia.
Qed.

(** a finite operand never turns a number into NaN by addition *)
Lemma SFadd_not_nan x y B :
  valid_binary x = true -> valid_binary y = true ->
  below B x -> nanb y = false -> nanb (SF64add x y) = false.
Proof.
  intros Vx Vy Hx Hy.
  destruct x as [sx|sx| |sx mx ex]; destruct y as [sy|sy| |sy my ey];
    simpl in Hx; try contradiction; try discriminate; try reflexivity.
  - destruct sx, sy; reflexivity.
  - apply valid_canonical in Vx, Vy.
    pose proof (SFadd_finite_reach sx mx ex sy my ey Vx Vy) as H.
    destruct (SF64add _ _); simpl; try tauto.
Qed.

Lemma Zdigits2_le a b : 0 <= a <= b -> Zdigits2 a <= Zdigits2 b.
Proof.
  intros [Ha Hab]. destruct (Z.eq_dec a 0) as [->|Hnz].
  - simpl. now apply Zdigits2_nonneg.
  - rewrite (Zdigits2_pos_log2 a), (Zdigits2_pos_log2 b) by lia.
    pose proof (Z.log2_le_mono a b Hab). lia.
Qed.

Lemma SFdiv_core_reach mx ex my ey :
  canonical mx ex ->
  let '(q, e', _) := SFdiv_core_binary prec emax (Zpos mx) ex (Zpos my) ey in
  0 <= q /\ reach q e' <= Z.max (ex - ey + 1) (-1074).
Proof.
  intros Hx. unfold SFdiv_core_binary.
  set (e' := Z.min (fexp prec emax (Zdigits2 (Zpos mx) + ex - (Zdigits2 (Zpos my) + ey))) (ex - ey)).
  assert (He' : e' <= ex - ey) by (unfold e'; lia).
  set (m' := match ex - ey - e' with
             | 0 => Zpos mx
             | Zpos _ => Z.shiftl (Zpos mx) (ex - ey - e')
             | Zneg _ => 0
             end).
  assert (Hm' : m' = Zpos mx * 2 ^ (ex - ey - e')).
  { unfold m'. destruct (ex - ey - e') as [|p|p] eqn:E; try lia.
    apply Z.shiftl_mul_pow2. lia. }
  clearbody m'.
  assert (Hp : 0 < 2 ^ (ex - ey - e')) by (apply Z.pow_pos_nonneg; lia).
  assert (Hm'pos : 0 < m') by (rewrite Hm'; lia).
  pose proof (Z_div_mod_eq_full m' (Zpos my)) as Hdm.
  unfold Z.div, Z.modulo in Hdm.
  pose proof (Z.div_pos m' (Zpos my) ltac:(lia) ltac:(lia)) as Hq.
  pose proof (Z.div_le_upper_bound m' (Zpos my) m' ltac:(lia) ltac:(nia)) as Hq'.
  unfold Z.div in Hq, Hq'.
  destruct (Z.div_eucl m' (Zpos my)) as [q r].
  split; [assumption|].
  unfold reach.
  assert (Hd : Zdigits2 q <= Zdigits2 m') by (apply Zdigits2_le; lia).
  rewrite (Zdigits2_pos_log2 m') in Hd by assumption.
  rewrite Hm', Z.log2_mul_pow2 in Hd by lia.
  pose proof (canonical_digits _ _ Hx) as Hdx. rewrite Zdigits2_log2 in Hdx.
  lia.
Qed.

Lemma SFdiv_below x y B L :
  valid_binary x = true -> below B x -> above L y -> B - L + 1 <= 971 ->
  below (Z.max (B - L + 1) (-1074)) (SF64div x y).
Proof.
  intros Vx Hx Hy HB.
  destruct x as [sx|sx| |sx mx ex]; destruct y as [sy|sy| |sy my ey];
    simpl in Hx, Hy; try contradiction; try exact I.
  apply valid_canonical in Vx.
  unfold SF64div, SFdiv.
  pose proof (SFdiv_core_reach mx ex my ey Vx) as H.
  destruct (SFdiv_core_binary prec emax (Zpos mx) ex (Zpos my) ey) as [[q e'] l].
  destruct H as [Hq Hr]. apply below_of_cases; [assumption| |lia]. lia.
Qed.

(** order against a finite bound bounds the exponent *)
Lemma SFleb_below lo hi x B :
  SFleb lo x = true -> SFleb x hi = true -> below B lo -> below B hi -> below B x.
Proof.
  unfold SFleb.
  destruct lo as [[]|[]| |[] ml el]; destruct hi as [[]|[]| |[] mh eh];
    destruct x as [[]|[]| |[] m e]; simpl; try discriminate; try tauto;
    try (destruct (Z.compare_spec el e); try discriminate; intros; lia);
    try (destruct (Z.compare_spec e eh); try discriminate; intros; lia).
Qed.

Lemma SFleb_above lo x L :
  SFleb lo x = true ->
  match lo with S754_finite false _ e => L <= e | _ => False end ->
  above L x.
Proof.
  unfold SFleb.
  destruct lo as [[]|[]| |[] ml el]; try contradiction.
  destruct x as [[]|[]| |[] m e]; simpl; try discriminate; try tauto.
  destruct (Z.compare_spec el e); try discriminate; intros; lia.
Qed.

End Bounds.

(** ** Order facts on binary64 numbers *)

Module F64.
Import SF Spec.
Local Open Scope float_scope.

Lemma is_nan_spec x : is_nan x = nanb (Prim2SF x).
Proof.
  unfold is_nan. rewrite FloatAxioms.eqb_spec. unfold SFeqb.
  destruct (nanb (Prim2SF x)) eqn:E.
  - destruct (Prim2SF x); try discriminate. reflexivity.
  - now rewrite SFOrder.compare_refl.
Qed.

Lemma ltb_compare x y :
  (x <? y) = true <-> SFcompare (Prim2SF x) (Prim2SF y) = Some Lt.
Proof.
  rewrite FloatAxioms.ltb_spec. unfold SFltb.
  destruct (SFcompare (Prim2SF x) (Prim2SF y)) as [[]|]; intuition congruence.
Qed.

Lemma leb_compare x y :
  (x <=? y) = true <->
  SFcompare (Prim2SF x) (Prim2SF y) = Some Lt \/ SFcompare (Prim2SF x) (Prim2SF y) = Some Eq.
Proof.
  rewrite FloatAxioms.leb_spec. unfold SFleb.
  destruct (SFcompare (Prim2SF x) (Prim2SF y)) as [[]|]; intuition congruence.
Qed.

Lemma ltb_leb x y : (x <? y) = true -> (x <=? y) = true.
Proof. rewrite ltb_compare, leb_compare. tauto. Qed.

Lemma ltb_not_nan x y : (x <? y) = true -> is_nan x = false /\ is_nan y = false.
Proof.
  rewrite ltb_compare, !is_nan_spec. intros H.
  apply SFOrder.compare_not_nan. congruence.
Qed.

Lemma leb_not_nan x y : (x <=? y) = true -> is_nan x = false /\ is_nan y = false.
Proof.
  rewrite leb_compare, !is_nan_spec. intros H.
  apply SFOrder.compare_not_nan. destruct H; congruence.
Qed.

Lemma leb_refl x : is_nan x = false -> (x <=? x) = true.
Proof.
  rewrite is_nan_spec, leb_compare. intros H. right. now apply SFOrder.compare_refl.
Qed.

Lemma ltb_irrefl x : (x <? x) = false.
Proof.
  destruct (x <? x) eqn:E; [|reflexivity].
  destruct (ltb_not_nan _ _ E) as [Hn _].
  apply ltb_compare in E. rewrite is_nan_spec in Hn.
  rewrite SFOrder.compare_refl in E by assumption. discriminate.
Qed.

(** Off NaN the order is total. *)
Lemma leb_total x y :
  is_nan x = false -> is_nan y = false -> (x <? y) = false -> (y <=? x) = true.
Proof.
  rewrite !is_nan_spec. intros Hx Hy Hlt.
  apply leb_compare. rewrite SFOrder.compare_antisym.
  pose proof (SFOrder.compare_total _ _ Hx Hy) as Ht.
  destruct (x <? y) eqn:E; [discriminate|].
  destruct (SFcompare (Prim2SF x) (Prim2SF y)) as [[]|] eqn:C; simpl; auto.
  - apply ltb_compare in C. congruence.
  - congruence.
Qed.

Lemma leb_ltb_false x y : (x <=? y) = true -> (y <? x) = false.
Proof.
  rewrite leb_compare. intros H.
  destruct (y <? x) eqn:E; [|reflexivity].
  apply ltb_compare in E. rewrite SFOrder.compare_antisym in E.
  destruct H as [H|H]; rewrite H in E; discriminate.
Qed.

Lemma ltb_asym x y : (x <? y) = true -> (y <? x) = false.
Proof. intros H. now apply leb_ltb_false, ltb_leb. Qed.

Lemma ltb_trans x y z : (x <? y) = true -> (y <? z) = true -> (x <? z) = true.
Proof. rewrite !ltb_compare. apply SFOrder.compare_lt_trans. Qed.

Lemma leb_ltb_trans x y z : (x <=? y) = true -> (y <? z) = true -> (x <? z) = true.
Proof.
  rewrite leb_compare, !ltb_compare. intros [H|H] H'.
  - eapply SFOrder.compare_lt_trans; eassumption.
  - eapply SFOrder.compare_eq_lt_trans; eassumption.
Qed.

Lemma ltb_leb_trans x y z : (x <? y) = true -> (y <=? z) = true -> (x <? z) = true.
Proof.
  rewrite leb_compare, !ltb_compare. intros H [H'|H'].
  - eapply SFOrder.compare_lt_trans; eassumption.
  - eapply SFOrder.compare_lt_eq_trans; eassumption.
Qed.

Lemma leb_trans x y z : (x <=? y) = true -> (y <=? z) = true -> (x <=? z) = true.
Proof.
  intros H H'. destruct (leb_not_nan _ _ H) as [Hx _].
  destruct (leb_not_nan _ _ H') as [_ Hz].
  apply leb_total; try assumption.
  destruct (z <? x) eqn:E; [|reflexivity].
  pose proof (ltb_leb_trans _ _ _ E H) as E'.
  apply leb_ltb_false in H'. congruence.
Qed.

(** The comparators [(a, b) => b - a] never misreport the order: the sign of a
    difference is the order of its operands, for every pair of numbers. *)
Lemma sub_ltb_zero x y : (x - y <? 0) = (x <? y).
Proof.
  rewrite !FloatAxioms.ltb_spec, FloatAxioms.sub_spec.
  change (Prim2SF 0) with (S754_zero false).
  apply Sub.SFsub_ltb_zero; apply Prim2SF_valid.
Qed.

Lemma zero_ltb_sub x y : (0 <? x - y) = (y <? x).
Proof.
  rewrite !FloatAxioms.ltb_spec, FloatAxioms.sub_spec.
  change (Prim2SF 0) with (S754_zero false).
  apply Sub.SFsub_ltb_zero; apply Prim2SF_valid.
Qed.

(** *** Finite results *)

Lemma mul_below x y B1 B2 :
  finite_below B1 x -> finite_below B2 y -> (B1 + B2 + 54 <= 971)%Z ->
  finite_below (Z.max (B1 + B2 + 54) (-1074)) (x * y).
Proof.
  unfold finite_below. rewrite FloatAxioms.mul_spec.
  apply Bounds.SFmul_below; apply Prim2SF_valid.
Qed.

Lemma add_below x y B1 B2 :
  finite_below B1 x -> finite_below B2 y -> (Z.max B1 B2 + 2 <= 971)%Z ->
  finite_below (Z.max (Z.max B1 B2 + 2) (-1074)) (x + y).
Proof.
  unfold finite_below. rewrite FloatAxioms.add_spec.
  apply Bounds.SFadd_below; apply Prim2SF_valid.
Qed.

Lemma div_below x y B L :
  finite_below B x -> exponent_above L y -> (B - L + 1 <= 971)%Z ->
  finite_below (Z.max (B - L + 1) (-1074)) (x / y).
Proof.
  unfold finite_below, exponent_above. rewrite FloatAxioms.div_spec.
  apply Bounds.SFdiv_below; apply Prim2SF_valid.
Qed.

Lemma mul_comm x y : x * y = y * x.
Proof. apply Prim2SF_inj. rewrite !FloatAxioms.mul_spec. apply Bounds.SFmul_comm. Qed.

Lemma below_mono B B' x : (B <= B')%Z -> finite_below B x -> finite_below B' x.
Proof.
  unfold finite_below. intros H. destruct (Prim2SF x); simpl; try tauto. lia.
Qed.

Lemma within_below lo hi x B :
  within lo hi x -> finite_below B lo -> finite_below B hi -> finite_below B x.
Proof.
  unfold within, finite_below. rewrite !FloatAxioms.leb_spec. intros [H1 H2].
  now apply Bounds.SFleb_below.
Qed.

Lemma leb_above lo x L :
  (lo <=? x) = true ->
  match Prim2SF lo with S754_finite false _ e => (L <= e)%Z | _ => False end ->
  exponent_above L x.
Proof.
  unfold exponent_above. rewrite FloatAxioms.leb_spec. apply Bounds.SFleb_above.
Qed.

Lemma below_not_nan B x : finite_below B x -> is_nan x = false.
Proof.
  unfold finite_below. rewrite F64.is_nan_spec. now destruct (Prim2SF x).
Qed.

Lemma below_is_finite B x : finite_below B x -> is_finite x = true.
Proof.
  intros H. unfold is_finite, is_infinity.
  rewrite (below_not_nan B x H). simpl.
  rewrite FloatAxioms.eqb_spec, FloatAxioms.abs_spec.
  change (Prim2SF infinity) with (S754_infinity false).
  unfold finite_below in H. destruct (Prim2SF x) as [[]|[]| |[] ? ?]; simpl in *; tauto.
Qed.

Lemma mul_not_nan x c :
  is_nan x = false ->
  match Prim2SF c with S754_finite _ _ _ => True | _ => False end ->
  is_nan (x * c) = false.
Proof.
  rewrite !F64.is_nan_spec, FloatAxioms.mul_spec. apply Bounds.SFmul_not_nan.
Qed.

Lemma add_not_nan x y B :
  finite_below B x -> is_nan y = false -> is_nan (x + y) = false.
Proof.
  unfold finite_below. rewrite !F64.is_nan_spec, FloatAxioms.add_spec.
  apply Bounds.SFadd_not_nan; apply Prim2SF_valid.
Qed.

Lemma recip_positive t :
  (0 <? t) = true ->
  is_zero t = false /\ is_nan (1 / t) = false /\ (0 <=? 1 / t) = true.
Proof.
  unfold is_zero.
  rewrite F64.is_nan_spec, FloatAxioms.ltb_spec, FloatAxioms.leb_spec,
    FloatAxioms.eqb_spec, FloatAxioms.div_spec.
  change (Prim2SF 0) with (S754_zero false).
  change (Prim2SF 1) with (S754_finite false 4503599627370496 (-52)).
  pose proof (Prim2SF_valid t) as V.
  destruct (Prim2SF t) as [[]|[]| |[] m e]; try discriminate; intros _.
  - repeat split.
  - split; [reflexivity|].
    unfold SF64div, SFdiv.
    pose proof (Bounds.SFdiv_core_reach 4503599627370496 (-52) m e eq_refl) as H.
    destruct (SFdiv_core_binary prec emax 4503599627370496 (-52) (Z.pos m) e) as [[q e'] l].
    destruct H as [Hq _].
    pose proof (Round.binary_round_aux_cases (xorb false false) q e' l Hq) as Hc.
    destruct (binary_round_aux prec emax (xorb false false) q e' l) as [s|s| |s ? ?];
      simpl in Hc; try contradiction.
    + subst s. split; reflexivity.
    + destruct Hc as [-> _]. split; reflexivity.
    + destruct Hc as [-> _]. split; reflexivity.
Qed.

End F64.

(** ** Facts about the JavaScript primitives *)

Module JsFacts.
Import Spec.
Local Open Scope float_scope.

Lemma or_else_none d : Js.or_else None d = d.
Proof. reflexivity. Qed.

Lemma or_else_truthy x d : Js.truthy x = true -> Js.or_else (Some x) d = x.
Proof. intros H. simpl. now rewrite H. Qed.

Lemma math_min_nan a b : is_nan b = true -> is_nan (Js.math_min a b) = true.
Proof. intros H. unfold Js.math_min. rewrite H, orb_true_r. reflexivity. Qed.

Lemma math_max_nan a b : is_nan b = true -> is_nan (Js.math_max a b) = true.
Proof. intros H. unfold Js.math_max. rewrite H, orb_true_r. reflexivity. Qed.

Lemma math_min_le hi u :
  is_nan hi = false -> is_nan u = false ->
  is_nan (Js.math_min hi u) = false /\ (Js.math_min hi u <=? hi) = true.
Proof.
  intros Hh Hu. unfold Js.math_min. rewrite Hh, Hu. simpl.
  destruct (hi <? u) eqn:E1; [split; [assumption | now apply F64.leb_refl]|].
  destruct (u <? hi) eqn:E2; [split; [assumption | now apply F64.ltb_leb]|].
  destruct (get_sign hi); (split; [assumption|]).
  - now apply F64.leb_refl.
  - now apply F64.leb_total.
Qed.

Lemma math_max_ge lo t hi :
  (lo <=? hi) = true -> is_nan t = false -> (t <=? hi) = true ->
  within lo hi (Js.math_max lo t).
Proof.
  intros Hlh Ht Hth. destruct (F64.leb_not_nan _ _ Hlh) as [Hl Hh].
  unfold Js.math_max, within. rewrite Hl, Ht. simpl.
  destruct (lo <? t) eqn:E1; [split; [now apply F64.ltb_leb | assumption]|].
  destruct (t <? lo) eqn:E2; [split; [now apply F64.leb_refl | assumption]|].
  destruct (get_sign lo).
  - split; [now apply F64.leb_total | assumption].
  - split; [now apply F64.leb_refl | assumption].
Qed.

(** [Math.max(lo, Math.min(hi, u))] clamps every number [u] into [lo .. hi],
    and is NaN when [u] is. *)
Lemma clamp_within lo hi u :
  (lo <=? hi) = true -> is_nan u = false ->
  within lo hi (Js.math_max lo (Js.math_min hi u)).
Proof.
  intros Hlh Hu. destruct (F64.leb_not_nan _ _ Hlh) as [_ Hh].
  destruct (math_min_le hi u Hh Hu) as [Hn Hle].
  now apply math_max_ge.
Qed.

Lemma clamp_nan lo hi u :
  is_nan u = true -> is_nan (Js.math_max lo (Js.math_min hi u)) = true.
Proof. intros H. now apply math_max_nan, math_min_nan. Qed.

Lemma within_not_nan lo hi x : within lo hi x -> is_nan x = false.
Proof. intros [H _]. now apply F64.leb_not_nan in H. Qed.

(** *** The first element of a descending sort *)

Section SortHead.
Context {A : Type} (score : A -> float).

#[local] Abbreviation desc := (by_desc score).

Lemma first_max_scores l x y :
  first_max score l x -> scores_defined score l -> In y l -> (score y <=? score x) = true.
Proof.
  intros (l1 & l2 & -> & H1 & H2) Hd Hy.
  apply in_app_or in Hy. destruct Hy as [Hy|[<-|Hy]].
  - now apply F64.ltb_leb, H1.
  - apply F64.leb_refl, Hd. apply in_or_app. right. now left.
  - now apply H2.
Qed.

Lemma first_max_In l x : first_max score l x -> In x l.
Proof. intros (l1 & l2 & -> & _). apply in_or_app. right. now left. Qed.

Lemma first_max_cons_keep l x h :
  first_max score l h -> (score x <? score h) = true -> first_max score (x :: l) h.
Proof.
  intros (l1 & l2 & -> & H1 & H2) Hlt.
  exists (x :: l1), l2. split; [reflexivity|]. split; [|assumption].
  intros y [<-|Hy]; auto.
Qed.

Lemma insert_sorted_head x l :
  exists t, Js.insert_sorted desc x l =
    match l with
    | [] => x :: t
    | h :: _ => if score x <? score h then h :: t else x :: t
    end.
Proof.
  destruct l as [|h l']; simpl.
  - now exists [].
  - unfold by_desc at 1. rewrite F64.zero_ltb_sub.
    destruct (score x <? score h); eexists; reflexivity.
Qed.

Lemma sort_nil_inv l : Js.sort desc l = [] -> l = [].
Proof.
  destruct l as [|x l']; [reflexivity|]. simpl.
  destruct (insert_sorted_head x (Js.sort desc l')) as [t Ht]. rewrite Ht.
  destruct (Js.sort desc l') as [|h ?]; [discriminate|].
  destruct (score x <? score h); discriminate.
Qed.

(** The head of [l.sort((a, b) => score(b) - score(a))] is the earliest
    element of [l] of maximal score. *)
Lemma sort_head l :
  scores_defined score l ->
  forall h t, Js.sort desc l = h :: t -> first_max score l h.
Proof.
  induction l as [|x l IH]; intros Hd h t; [discriminate|].
  assert (Hdl : scores_defined score l) by (intros z Hz; apply Hd; now right).
  simpl. destruct (insert_sorted_head x (Js.sort desc l)) as [t' Ht']. rewrite Ht'.
  destruct (Js.sort desc l) as [|h' s'] eqn:Es.
  - intros [= <- _]. apply sort_nil_inv in Es. subst l.
    exists [], []. repeat split; intros ? [].
  - specialize (IH Hdl h' s' eq_refl).
    destruct (score x <? score h') eqn:E; intros [= <- _].
    + now apply first_max_cons_keep.
    + exists [], l. split; [reflexivity|]. split; [intros ? []|].
      intros y Hy. apply F64.leb_trans with (score h').
      * now apply (first_max_scores l h' y).
      * apply F64.leb_total; [apply Hd; now left| |assumption].
        apply Hdl. eapply first_max_In; eassumption.
Qed.

Lemma sort_nonempty l : l <> [] -> exists h t, Js.sort desc l = h :: t.
Proof.
  intros H. destruct (Js.sort desc l) as [|h t] eqn:E; [|eauto].
  apply sort_nil_inv in E. contradiction.
Qed.

(** The whole result: a rearrangement of [l], in descending order. *)
Lemma insert_sorted_permutation x l : Permutation (Js.insert_sorted desc x l) (x :: l).
Proof.
  induction l as [|y l IH]; simpl; [reflexivity|].
  destruct (0 <? desc x y); [|reflexivity].
  rewrite IH. apply perm_swap.
Qed.

Lemma sort_permutation l : Permutation (Js.sort desc l) l.
Proof.
  induction l as [|x l IH]; simpl; [reflexivity|].
  rewrite insert_sorted_permutation. now constructor.
Qed.

Lemma insert_sorted_descending x l :
  is_nan (score x) = false -> scores_defined score l ->
  descending score l -> descending score (Js.insert_sorted desc x l).
Proof.
  intros Hx Hd Hs. induction Hs as [|y l Hs IH Hy]; simpl.
  - repeat constructor.
  - assert (Hdl : scores_defined score l) by (intros z Hz; apply Hd; now right).
    unfold by_desc at 1. rewrite F64.zero_ltb_sub.
    destruct (score x <? score y) eqn:E.
    + constructor; [now apply IH|].
      apply List.Forall_forall. intros z Hz.
      apply (Permutation_in _ (insert_sorted_permutation x l)) in Hz.
      destruct Hz as [<-|Hz]; [now apply F64.ltb_leb|].
      rewrite List.Forall_forall in Hy. now apply Hy.
    + assert (Hyx : (score y <=? score x) = true).
      { apply F64.leb_total; [assumption| |assumption]. apply Hd. now left. }
      constructor; [now constructor|].
      constructor; [assumption|].
      rewrite List.Forall_forall in Hy |- *. intros z Hz.
      apply F64.leb_trans with (score y); auto.
Qed.

Lemma sort_descending l : scores_defined score l -> descending score (Js.sort desc l).
Proof.
  induction l as [|x l IH]; intros Hd; simpl; [constructor|].
  assert (Hdl : scores_defined score l) by (intros z Hz; apply Hd; now right).
  apply insert_sorted_descending; [apply Hd; now left| |now apply IH].
  intros z Hz. apply Hdl. now apply (Permutation_in _ (sort_permutation l)).
Qed.

End SortHead.

(** A descending list stays so through a [map] that carries the score along. *)
Lemma descending_map {A B} (f : A -> B) (score : A -> float) (score' : B -> float) l :
  (forall x, In x l -> score x = score' (f x)) ->
  descending score l -> descending score' (map f l).
Proof.
  intros Hs Hl. induction Hl as [|x l Hl IH Hx]; simpl; [constructor|].
  constructor.
  - apply IH. intros y Hy. apply Hs. now right.
  - rewrite List.Forall_forall in Hx |- *. intros y Hy.
    apply in_map_iff in Hy. destruct Hy as (z & <- & Hz).
    rewrite <- (Hs z), <- (Hs x); [now apply Hx|now left|now right].
Qed.

(** [first_max] through a [map] that carries the score along. *)
Lemma first_max_map {A B} (f : A -> B) (score : A -> float) (score' : B -> float) l y :
  (forall a, score' (f a) = score a) ->
  first_max score' (map f l) y ->
  exists x, y = f x /\ first_max score l x.
Proof.
  intros Hs (l1 & l2 & E & H1 & H2).
  apply map_eq_app in E. destruct E as (k1 & k2 & -> & <- & E).
  apply map_eq_cons in E. destruct E as (x & k3 & -> & <- & <-).
  exists x. split; [reflexivity|]. exists k1, k3. split; [reflexivity|]. split.
  - intros a Ha. rewrite <- !Hs. apply H1. now apply in_map.
  - intros a Ha. rewrite <- !Hs. apply H2. now apply in_map.
Qed.


(** *** A left-to-right scan that keeps the first best element *)

Section Reduce.
Context {A : Type} (score : A -> float).

Lemma first_max_singleton x : first_max score [x] x.
Proof. exists [], []. repeat split; intros ? []. Qed.

Lemma first_max_snoc_keep l b cur :
  first_max score l b -> (score cur <=? score b) = true ->
  first_max score (l ++ [cur]) b.
Proof.
  intros (l1 & l2 & -> & H1 & H2) Hle.
  exists l1, (l2 ++ [cur]). split; [now rewrite <- app_assoc|]. split; [assumption|].
  intros y Hy. apply in_app_or in Hy. destruct Hy as [Hy|[<-|[]]]; auto.
Qed.

Lemma first_max_snoc_new l b cur :
  first_max score l b -> scores_defined score l -> (score b <? score cur) = true ->
  first_max score (l ++ [cur]) cur.
Proof.
  intros Hb Hd Hlt. exists l, []. split; [reflexivity|]. split; [|intros ? []].
  intros y Hy. apply F64.leb_ltb_trans with (score b); [|assumption].
  now apply (first_max_scores score l b y).
Qed.

Lemma scan_first_max rest :
  forall seen best,
    first_max score seen best ->
    scores_defined score (seen ++ rest) ->
    first_max score (seen ++ rest)
      (fold_left (fun best cur => if Js.gt (score cur) (score best) then cur else best)
         rest best).
Proof.
  induction rest as [|cur rest IH]; intros seen best Hb Hd; simpl.
  - now rewrite app_nil_r.
  - assert (Hds : scores_defined score seen).
    { intros y Hy. apply Hd, in_or_app. now left. }
    replace (seen ++ cur :: rest) with ((seen ++ [cur]) ++ rest) in *
      by (rewrite <- app_assoc; reflexivity).
    apply IH; [|assumption]. unfold Js.gt.
    destruct (score best <? score cur) eqn:E.
    + now apply first_max_snoc_new with best.
    + apply first_max_snoc_keep; [assumption|].
      apply F64.leb_total; [| |assumption].
      * apply Hds. eapply first_max_In; eassumption.
      * apply Hd. apply in_or_app. left. apply in_or_app. right. now left.
Qed.

(** [l.reduce((best, cur) => score(cur) > score(best) ? cur : best)] *)
Lemma reduce_first_max first rest :
  scores_defined score (first :: rest) ->
  first_max score (first :: rest)
    (fold_left (fun best cur => if Js.gt (score cur) (score best) then cur else best)
       rest first).
Proof.
  intros Hd. apply (scan_first_max rest [first] first); [|assumption].
  apply first_max_singleton.
Qed.

End Reduce.

(** *** Insertion-ordered maps *)

Lemma map_set_fresh {V} k (v : V) m :
  ~ In k (map fst m) -> Js.map_set k v m = m ++ [(k, v)].
Proof.
  induction m as [|[k' v'] m IH]; simpl; intros Hn; [reflexivity|].
  destruct (String.eqb_spec k' k) as [->|Hne]; [tauto|].
  rewrite IH by tauto. reflexivity.
Qed.

Lemma fold_map_set_nodup {P V} (key : P -> string) (val : P -> V) ps :
  forall acc,
    NoDup (map fst acc ++ map key ps) ->
    fold_left (fun m p => Js.map_set (key p) (val p) m) ps acc =
    acc ++ map (fun p => (key p, val p)) ps.
Proof.
  induction ps as [|p ps IH]; intros acc Hnd; simpl.
  - now rewrite app_nil_r.
  - simpl in Hnd. apply NoDup_app in Hnd. destruct Hnd as (Hacc & Hdisj & Hps).
    apply NoDup_cons in Hps. destruct Hps as [Hp Hps].
    rewrite map_set_fresh.
    + rewrite IH.
      * rewrite <- app_assoc. reflexivity.
      * rewrite map_app. simpl. apply NoDup_app. split; [|split; [|assumption]].
        -- apply NoDup_app. split; [assumption|]. split; [|apply NoDup_singleton].
           intros x Hx Hx'. apply list_elem_of_singleton in Hx'. subst x.
           apply (Hdisj (key p)); [assumption | left].
        -- intros x Hx Hx'. apply elem_of_app in Hx. destruct Hx as [Hx|Hx].
           ++ apply (Hdisj x); [assumption | now right].
           ++ apply list_elem_of_singleton in Hx. subst x. contradiction.
    + intros Hin. apply list_elem_of_In in Hin. apply (Hdisj (key p)); [assumption | left].
Qed.

Lemma find_nodup {P} (key : P -> string) ps x :
  NoDup (map key ps) -> In x ps ->
  find (fun p => String.eqb (key p) (key x)) ps = Some x.
Proof.
  induction ps as [|p ps IH]; simpl; intros Hnd Hin; [destruct Hin|].
  apply NoDup_cons in Hnd. destruct Hnd as [Hnotin Hnd'].
  destruct Hin as [->|Hin].
  - now rewrite String.eqb_refl.
  - destruct (String.eqb_spec (key p) (key x)) as [E|_]; [|auto].
    exfalso. apply Hnotin. rewrite E. apply list_elem_of_In. now apply in_map.
Qed.

(** *** Numbers that compare alike *)

Lemma zero_same_order x : is_zero x = true -> same_order 0 x.
Proof.
  unfold is_zero, same_order. rewrite FloatAxioms.eqb_spec. intros H v.
  rewrite !FloatAxioms.ltb_spec. change (Prim2SF 0) with (S754_zero false) in *.
  unfold SFeqb in H. unfold SFltb.
  destruct (Prim2SF x) as [[]|[]| |[] ? ?]; simpl in H; try discriminate;
    destruct (Prim2SF v) as [[]|[]| |[] ? ?]; reflexivity.
Qed.

Lemma or_else_same_order x : is_nan x = false -> same_order (Js.or_else (Some x) 0) x.
Proof.
  intros Hn. unfold Js.or_else, Js.truthy. rewrite Hn. simpl.
  destruct (is_zero x) eqn:E; simpl.
  - now apply zero_same_order.
  - intros v. reflexivity.
Qed.


End JsFacts.

(** ** Insertion-ordered maps and the scans over them *)

Module MapFacts.
Import Spec JsFacts.

Lemma map_get_set {V} k k' (v : V) m :
  Js.map_get k (Js.map_set k' v m) = if String.eqb k' k then Some v else Js.map_get k m.
Proof.
  induction m as [|[k0 v0] m IH]; simpl.
  - reflexivity.
  - destruct (String.eqb_spec k0 k') as [->|Hne]; simpl.
    + destruct (String.eqb k' k); reflexivity.
    + rewrite IH. destruct (String.eqb_spec k0 k) as [->|Hne'].
      * destruct (String.eqb_spec k' k) as [->|_]; [contradiction | reflexivity].
      * reflexivity.
Qed.

Lemma map_get_In {V} k (v : V) m : Js.map_get k m = Some v -> In (k, v) m.
Proof.
  induction m as [|[k0 v0] m IH]; simpl; [discriminate|].
  destruct (String.eqb_spec k0 k) as [->|Hne].
  - intros [= ->]. now left.
  - intros H. right. auto.
Qed.

Lemma map_get_None {V} k (m : list (string * V)) :
  Js.map_get k m = None -> ~ In k (map fst m).
Proof.
  induction m as [|[k0 v0] m IH]; simpl; [tauto|].
  destruct (String.eqb_spec k0 k) as [->|Hne]; [discriminate|].
  intros H [E|Hin]; [contradiction | now apply IH].
Qed.

(** Writing the value a key already has changes nothing. *)
Lemma map_set_same {V} k (v : V) m : Js.map_get k m = Some v -> Js.map_set k v m = m.
Proof.
  induction m as [|[k0 v0] m IH]; simpl; [discriminate|].
  destruct (String.eqb_spec k0 k) as [->|Hne].
  - now intros [= ->].
  - intros H. now rewrite IH.
Qed.

Lemma map_set_map {V W} (g : string -> V -> W) k (v : V) m :
  map (fun e => (fst e, g (fst e) (snd e))) (Js.map_set k v m) =
  Js.map_set k (g k v) (map (fun e => (fst e, g (fst e) (snd e))) m).
Proof.
  induction m as [|[k0 v0] m IH]; simpl; [reflexivity|].
  destruct (String.eqb k0 k); simpl; [reflexivity | now rewrite IH].
Qed.

Lemma map_set_keys {V} k (v : V) m :
  map fst (Js.map_set k v m) =
  if in_dec string_dec k (map fst m) then map fst m else map fst m ++ [k].
Proof.
  induction m as [|[k0 v0] m IH]; simpl; [reflexivity|].
  destruct (String.eqb_spec k0 k) as [E|Hne]; simpl.
  - subst k0. destruct (string_dec k k); [reflexivity | contradiction].
  - rewrite IH. destruct (string_dec k0 k) as [E|Hne']; [contradiction|].
    destruct (in_dec string_dec k (map fst m)); reflexivity.
Qed.

Lemma map_set_NoDup {V} k (v : V) m :
  NoDup (map fst m) -> NoDup (map fst (Js.map_set k v m)).
Proof.
  intros H. rewrite map_set_keys.
  destruct (in_dec string_dec k (map fst m)) as [|Hout]; [assumption|].
  apply NoDup_app. split; [assumption|]. split; [|apply NoDup_singleton].
  intros x Hx Hx'. apply list_elem_of_singleton in Hx'. subst x.
  apply Hout. now apply list_elem_of_In.
Qed.

(** Entries that already hold the value of their key are left as they are. *)
Lemma values_fixed {V} (c : string -> V) m :
  NoDup (map fst m) ->
  (forall k v, Js.map_get k m = Some v -> v = c k) ->
  map (fun e => (fst e, c (fst e))) m = m.
Proof.
  induction m as [|[k0 v0] m IH]; simpl; intros Hnd H; [reflexivity|].
  apply NoDup_cons in Hnd. destruct Hnd as [Hout Hnd].
  f_equal.
  - f_equal. symmetry. apply (H k0). now rewrite String.eqb_refl.
  - apply IH; [assumption|]. intros k v Hk. apply (H k).
    destruct (String.eqb_spec k0 k) as [->|_]; [|assumption].
    exfalso. apply Hout. apply list_elem_of_In.
    apply map_get_In in Hk. now apply (in_map fst) in Hk.
Qed.

Lemma fold_left_ext {A B} (f g : A -> B -> A) l :
  (forall a b, f a b = g a b) -> forall a, fold_left f l a = fold_left g l a.
Proof.
  intros H. induction l as [|b l IH]; intros a; simpl; [reflexivity|].
  now rewrite H, IH.
Qed.

(** *** A scan for the first largest value, over any strict order *)

Section Scan.
Context {V X : Type} (lt : V -> V -> bool) (upd : string -> X) (f : string -> V).
Hypothesis lt_trans : forall a b c, lt a b = true -> lt b c = true -> lt a c = true.
Hypothesis lt_irrefl : forall a, lt a a = false.

Lemma pick_no_better acc e v :
  lt (fst acc) v = false -> lt (snd e) v = false -> lt (fst (pick lt upd acc e)) v = false.
Proof. unfold pick. destruct (lt (fst acc) (snd e)); auto. Qed.

Lemma scan_keeps_no_better l : forall acc v,
  lt (fst acc) v = false -> lt (fst (fold_left (pick lt upd) l acc)) v = false.
Proof.
  induction l as [|e l IH]; intros acc v H; simpl; [assumption|].
  apply IH. unfold pick. destruct (lt (fst acc) (snd e)) eqn:E; [|assumption].
  simpl. destruct (lt (snd e) v) eqn:E'; [|reflexivity].
  rewrite (lt_trans _ _ _ E E') in H. discriminate.
Qed.

Lemma scan_no_better ids : forall acc y,
  In y ids -> lt (fst (fold_left (pick lt upd) (listed f ids) acc)) (f y) = false.
Proof.
  induction ids as [|k ids IH]; intros acc y Hy; [destruct Hy|].
  simpl. destruct Hy as [->|Hy]; [|now apply IH].
  apply scan_keeps_no_better. unfold pick. simpl.
  destruct (lt (fst acc) (f y)) eqn:E; [apply lt_irrefl | assumption].
Qed.

Lemma entries_snoc ids k :
  entries f (ids ++ [k]) = Js.map_set k (f k) (entries f ids).
Proof. unfold entries. now rewrite fold_left_app. Qed.

Lemma entries_get ids : forall k,
  Js.map_get k (entries f ids) = if in_dec string_dec k ids then Some (f k) else None.
Proof.
  induction ids as [|x ids IH] using rev_ind; intros k; [reflexivity|].
  rewrite entries_snoc, map_get_set, IH.
  destruct (String.eqb_spec x k) as [->|Hne].
  - destruct (in_dec string_dec k (ids ++ [k])) as [|n]; [reflexivity|].
    exfalso. apply n, in_or_app. right. now left.
  - destruct (in_dec string_dec k ids) as [i|n];
      destruct (in_dec string_dec k (ids ++ [x])) as [i'|n']; try reflexivity.
    + exfalso. apply n', in_or_app. now left.
    + exfalso. apply in_app_or in i'. destruct i' as [|[|[]]]; [contradiction | congruence].
Qed.

(** The entries of the map can be scanned in place of the list the map was
    built from: a repeated key never improves on the best value so far. *)
Lemma scan_entries ids : forall acc,
  fold_left (pick lt upd) (entries f ids) acc = fold_left (pick lt upd) (listed f ids) acc.
Proof.
  induction ids as [|x ids IH] using rev_ind; intros acc; [reflexivity|].
  rewrite entries_snoc. unfold listed. rewrite map_app, fold_left_app. fold (listed f ids).
  simpl. rewrite <- IH.
  destruct (in_dec string_dec x ids) as [Hin|Hout].
  - rewrite map_set_same.
    + unfold pick at 2. simpl. rewrite IH.
      now rewrite (scan_no_better ids acc x Hin).
    + rewrite entries_get. destruct (in_dec string_dec x ids); [reflexivity | contradiction].
  - rewrite map_set_fresh.
    + now rewrite fold_left_app.
    + apply map_get_None. rewrite entries_get.
      destruct (in_dec string_dec x ids); [contradiction | reflexivity].
Qed.

End Scan.

(** *** The first most frequent key *)

Section FirstMost.
Context {X : Type} (upd : string -> X) (c : string -> nat).

Lemma first_most_all keys b y : first_most c keys b -> In y keys -> c y <= c b.
Proof.
  intros (l1 & l2 & -> & H1 & H2) Hy.
  apply in_app_or in Hy. destruct Hy as [Hy|[<-|Hy]]; [|lia|auto].
  apply H1 in Hy. lia.
Qed.

Lemma scan_first_most_from rest : forall seen b,
  first_most c seen b ->
  exists b',
    fold_left (pick Nat.ltb upd) (listed c rest) (c b, upd b) = (c b', upd b') /\
    first_most c (seen ++ rest) b'.
Proof.
  induction rest as [|x rest IH]; intros seen b Hb; simpl.
  - exists b. now rewrite app_nil_r.
  - replace (seen ++ x :: rest) with ((seen ++ [x]) ++ rest)
      by (rewrite <- app_assoc; reflexivity).
    unfold pick at 2. simpl. destruct (Nat.ltb_spec (c b) (c x)) as [Hlt|Hge].
    + apply IH. exists seen, []. split; [reflexivity|]. split; [|intros ? []].
      intros y Hy. pose proof (first_most_all seen b y Hb Hy). lia.
    + apply IH. destruct Hb as (l1 & l2 & -> & H1 & H2).
      exists l1, (l2 ++ [x]). split; [now rewrite <- app_assoc|]. split; [assumption|].
      intros y Hy. apply in_app_or in Hy. destruct Hy as [Hy|[<-|[]]]; auto.
Qed.

Lemma scan_first_most k0 rest (none : X) :
  0 < c k0 ->
  exists b,
    fold_left (pick Nat.ltb upd) (listed c (k0 :: rest)) (0, none) = (c b, upd b) /\
    first_most c (k0 :: rest) b.
Proof.
  intros Hpos. simpl. unfold pick at 2. simpl.
  destruct (Nat.ltb_spec 0 (c k0)) as [_|]; [|lia].
  apply (scan_first_most_from rest [k0] k0).
  exists [], []. repeat split; intros ? [].
Qed.

End FirstMost.

End MapFacts.

(* ===================================================================== *)
(** * Part III: properties of the consensus engine *)
(* ===================================================================== *)

Module EngineProps.
Import Spec Engine.
Local Open Scope float_scope.
Local Open Scope string_scope.

(** ** Learned tables: the defaults *)

Lemma culturalWeight_absent s context d :
  culturalWeights s !! context = None -> culturalWeight s context d = d.
Proof. unfold culturalWeight. now intros ->. Qed.

Lemma expertiseOf_absent s agent d :
  agentExpertise s !! agent = None -> expertiseOf s agent d = d.
Proof. unfold expertiseOf. now intros ->. Qed.

Lemma culturalWeight_present s context d x :
  culturalWeights s !! context = Some x -> Js.truthy x = true ->
  culturalWeight s context d = x.
Proof. unfold culturalWeight. intros -> H. now apply JsFacts.or_else_truthy. Qed.

Lemma expertiseOf_present s agent d x :
  agentExpertise s !! agent = Some x -> Js.truthy x = true ->
  expertiseOf s agent d = x.
Proof. unfold expertiseOf. intros -> H. now apply JsFacts.or_else_truthy. Qed.

(** ** Auction-based allocation *)

Section Auction.
Variable numberToString : float -> string.

(** C8.  With no bid the auction returns the sentinel result, whatever the
    engine's state, the task and the context are: it does not throw, and the
    state it leaves is the state it found. *)
Theorem auction_empty_bids taskId culturalContext s :
  auctionBasedAllocation numberToString taskId [] culturalContext s =
  (Js.Returned {| ConsensusResult.selectedAgent := "default";
                  ConsensusResult.consensusScore := 0;
                  ConsensusResult.minorityReports := [];
                  ConsensusResult.culturalAdaptations := None |},
   s).
Proof. reflexivity. Qed.

(** The auction never writes to the engine. *)
Lemma auction_state_unchanged taskId bids culturalContext s :
  snd (auctionBasedAllocation numberToString taskId bids culturalContext s) = s.
Proof. destruct bids; reflexivity. Qed.

Lemma auction_selected taskId bids culturalContext s :
  bids <> [] ->
  exists r top rest,
    auctionBasedAllocation numberToString taskId bids culturalContext s = (Js.Returned r, s) /\
    Js.sort byScoreDesc
      (map (fun bid => (bid, calculateCompositeScore s bid culturalContext)) bids)
    = top :: rest /\
    ConsensusResult.selectedAgent r = AgentBid.agentId (fst top).
Proof.
  intros Hne.
  destruct (JsFacts.sort_nonempty (@snd AgentBid.t float)
    (map (fun bid => (bid, calculateCompositeScore s bid culturalContext)) bids))
    as (top & rest & Hs).
  { destruct bids; [contradiction | discriminate]. }
  change (by_desc snd) with (@byScoreDesc AgentBid.t) in Hs.
  destruct bids as [|b bids']; [contradiction|].
  eexists _, top, rest. split; [|split; [exact Hs|]].
  - unfold auctionBasedAllocation, bind, read, ret. cbv beta iota. rewrite Hs.
    reflexivity.
  - reflexivity.
Qed.

(** C1 (amended).  For a non-empty list of bids none of whose composite scores
    is NaN, the auction selects the agent of the earliest bid of maximal
    composite score; the score is the weighted sum of the claim, with the
    cultural weight read as 1.0 and the agent's expertise read as 0.5 when the
    learned tables have no entry for the key; the engine's state is unchanged. *)
Theorem auction_selects_first_max taskId bids culturalContext s :
  bids <> [] ->
  scores_defined (fun bid => calculateCompositeScore s bid culturalContext) bids ->
  (exists r winner,
     auctionBasedAllocation numberToString taskId bids culturalContext s = (Js.Returned r, s) /\
     ConsensusResult.selectedAgent r = AgentBid.agentId winner /\
     first_max (fun bid => calculateCompositeScore s bid culturalContext) bids winner) /\
  (forall bid,
     calculateCompositeScore s bid culturalContext =
     0.30 * AgentBid.confidence bid + 0.25 * AgentBid.expertise bid +
     0.20 * AgentBid.culturalRelevance bid * culturalWeight s culturalContext 1.0 +
     0.15 * (1 / AgentBid.estimatedTime bid) + 0.10 * (1 / AgentBid.resourceCost bid) +
     0.10 * expertiseOf s (AgentBid.agentId bid) 0.5) /\
  (culturalWeights s !! culturalContext = None -> culturalWeight s culturalContext 1.0 = 1.0) /\
  (forall agent, agentExpertise s !! agent = None -> expertiseOf s agent 0.5 = 0.5).
Proof.
  intros Hne Hd. split; [|split; [|split]].
  2:{ intros bid. unfold calculateCompositeScore.
      now rewrite (F64.mul_comm 0.30), (F64.mul_comm 0.25), (F64.mul_comm 0.20),
        (F64.mul_comm 0.15), (F64.mul_comm 0.10 (1 / _)), (F64.mul_comm 0.10). }
  - destruct (auction_selected taskId bids culturalContext s Hne)
      as (r & top & rest & Hrun & Hsort & Hsel).
    assert (Hfm : first_max snd
      (map (fun bid => (bid, calculateCompositeScore s bid culturalContext)) bids) top).
    { apply (JsFacts.sort_head (@snd AgentBid.t float)) with rest; [|exact Hsort].
      intros y Hy. apply in_map_iff in Hy. destruct Hy as (b & <- & Hb). now apply Hd. }
    apply (JsFacts.first_max_map _ (fun bid => calculateCompositeScore s bid culturalContext))
      in Hfm; [|reflexivity].
    destruct Hfm as (winner & -> & Hw).
    exists r, winner. auto.
  - apply culturalWeight_absent.
  - intros agent. apply expertiseOf_absent.
Qed.

End Auction.

(** ** Adaptive consensus *)

(** C9.  On an empty list of agents, [adaptiveConsensus] throws for 'simple'
    (the reduce over the empty list has no initial value), and returns with no
    participant for 'moderate' and for 'complex'. *)
Theorem adaptive_empty_agents culturalContext s :
  adaptiveConsensus simple [] culturalContext s =
    (Js.Thrown (Js.TypeError "Reduce of empty array with no initial value"), s) /\
  adaptiveConsensus moderate [] culturalContext s =
    (Js.Returned {| Plan.method := "expertise_weighted"; Plan.threshold := 0.7;
                    Plan.participants := [] |}, s) /\
  adaptiveConsensus complex [] culturalContext s =
    (Js.Returned {| Plan.method := "full_swarm_consensus"; Plan.threshold := 0.8;
                    Plan.participants := [] |}, s).
Proof. repeat split. Qed.

(** ** Metrics *)

(** C5 (the code as it is).  With an empty decision history the average
    confidence is [0 / 0], that is NaN, not [0]: the division is not guarded. *)
Theorem metrics_empty_history_nan threshold weights expertise :
  getConsensusMetrics
    {| consensusThreshold := threshold; culturalWeights := weights;
       agentExpertise := expertise; decisionHistory := [] |} =
  (Js.Returned {| Metrics.totalDecisions := 0;
                  Metrics.averageConfidence := nan;
                  Metrics.culturalCoverage := 0 |},
   {| consensusThreshold := threshold; culturalWeights := weights;
      agentExpertise := expertise; decisionHistory := [] |}).
Proof. reflexivity. Qed.


(** ** Expertise-weighted voting *)

Lemma collectVotes_distinct s culturalContext proposals :
  NoDup (map Proposal.agentId proposals) ->
  collectVotes s culturalContext proposals =
  map (fun p => (Proposal.agentId p, adjustedWeight s culturalContext p)) proposals.
Proof.
  intros Hnd. unfold collectVotes.
  now rewrite (JsFacts.fold_map_set_nodup Proposal.agentId (adjustedWeight s culturalContext)).
Qed.

(** C3 (amended).  For a non-empty list of proposals that come from pairwise
    distinct agents, have truthy proposal values and whose weights
    [agentExpertise(agentId) * culturalWeight(context) * confidence] are not
    NaN (expertise read as 0.5 and cultural weight as 1.0 when the table has no
    entry), the vote returns the proposal of the earliest proposal of maximal
    weight, with confidence [winnerWeight / total] when the total of the
    weights is positive and [0] otherwise, and pushes exactly that one decision
    on the history. *)
Theorem voting_selects_first_max now proposals culturalContext s :
  proposals <> [] ->
  NoDup (map Proposal.agentId proposals) ->
  scores_defined (adjustedWeight s culturalContext) proposals ->
  (forall p, In p proposals -> Js.truthy_value (Proposal.proposal p) = true) ->
  (exists winner,
     first_max (adjustedWeight s culturalContext) proposals winner /\
     let total :=
       fold_left (fun sum weight => sum + weight)
         (map (adjustedWeight s culturalContext) proposals) 0 in
     let d :=
       {| SwarmDecision.taskId := "decision_" ++ pretty now;
          SwarmDecision.decision := Proposal.proposal winner;
          SwarmDecision.confidence :=
            if (0 <? total)%float then adjustedWeight s culturalContext winner / total else 0;
          SwarmDecision.participatingAgents := map Proposal.agentId proposals;
          SwarmDecision.culturalContext := culturalContext |} in
     expertiseWeightedVoting now proposals culturalContext s = (Js.Returned d, recorded s d)) /\
  (forall p,
     adjustedWeight s culturalContext p =
     expertiseOf s (Proposal.agentId p) 0.5 * culturalWeight s culturalContext 1.0
     * Proposal.confidence p) /\
  (culturalWeights s !! culturalContext = None -> culturalWeight s culturalContext 1.0 = 1.0) /\
  (forall agent, agentExpertise s !! agent = None -> expertiseOf s agent 0.5 = 0.5).
Proof.
  intros Hne Hnd Hd Htruthy. split; [|split; [reflexivity|split]].
  - set (entry := fun p => (Proposal.agentId p, adjustedWeight s culturalContext p)).
    destruct (JsFacts.sort_nonempty (@snd string float) (map entry proposals))
      as (top & rest & Hs).
    { destruct proposals; [contradiction | discriminate]. }
    assert (Hfm : first_max snd (map entry proposals) top).
    { apply (JsFacts.sort_head (@snd string float)) with rest; [|exact Hs].
      intros y Hy. apply in_map_iff in Hy. destruct Hy as (p & <- & Hp). now apply Hd. }
    apply (JsFacts.first_max_map entry (adjustedWeight s culturalContext)) in Hfm;
      [|reflexivity].
    destruct Hfm as (winner & -> & Hw).
    exists winner. split; [assumption|]. cbv zeta.
    change (by_desc snd) with (@byScoreDesc string) in Hs.
    pose proof (JsFacts.first_max_In _ _ _ Hw) as Hin.
    destruct proposals as [|p0 ps]; [contradiction|].
    unfold expertiseWeightedVoting, bind, read, update, ret. cbv beta iota.
    rewrite (collectVotes_distinct s culturalContext (p0 :: ps) Hnd).
    fold entry. rewrite Hs. cbv beta iota zeta.
    change (fst (entry winner)) with (Proposal.agentId winner).
    rewrite (JsFacts.find_nodup Proposal.agentId (p0 :: ps) winner Hnd Hin).
    rewrite (Htruthy winner Hin).
    rewrite map_map. unfold Js.gt. reflexivity.
  - apply culturalWeight_absent.
  - intros agent. apply expertiseOf_absent.
Qed.

(** ** Adaptive consensus: what the expert selectors rank by *)

Lemma selectTopExpert_first_max s agents culturalContext :
  agents <> [] ->
  scores_defined (expertRank s culturalContext) agents ->
  exists top,
    selectTopExpert s agents culturalContext = Js.Returned top /\
    first_max (expertRank s culturalContext) agents top.
Proof.
  intros Hne Hd. destruct agents as [|first rest]; [contradiction|].
  eexists. split; [reflexivity|].
  now apply (JsFacts.reduce_first_max (expertRank s culturalContext)).
Qed.

(** The rank of an agent: its learned expertise times the cultural weight
    when the table knows it (with a value that is not zero), and zero times
    the weight when it does not. *)
Lemma expertRank_known s culturalContext agent x :
  agentExpertise s !! agent = Some x -> Js.truthy x = true ->
  expertRank s culturalContext agent = (x * culturalWeight s culturalContext 1)%float.
Proof. intros H T. unfold expertRank. now rewrite (expertiseOf_present _ _ _ x). Qed.

Lemma expertRank_unknown s culturalContext agent :
  agentExpertise s !! agent = None ->
  expertRank s culturalContext agent = (0 * culturalWeight s culturalContext 1)%float.
Proof. intros H. unfold expertRank. now rewrite expertiseOf_absent. Qed.

(** [selectTopExperts] returns the first [count] agents of the ranking. *)
Lemma selectTopExperts_ranked s agents culturalContext count :
  scores_defined (expertRank s culturalContext) agents ->
  exists ranked,
    Permutation ranked agents /\
    descending (expertRank s culturalContext) ranked /\
    selectTopExperts s agents culturalContext count = firstn count ranked.
Proof.
  intros Hd. unfold selectTopExperts.
  set (r := expertRank s culturalContext) in *.
  set (pairs := map (fun agent => (agent, r agent)) agents).
  change (@byScoreDesc string) with (by_desc (@snd string float)).
  pose proof (JsFacts.sort_permutation snd pairs) as Hp.
  assert (Hin : forall p, In p (Js.sort (by_desc snd) pairs) -> snd p = r (fst p)).
  { intros p Hp'. apply (Permutation_in _ Hp) in Hp'.
    apply in_map_iff in Hp'. now destruct Hp' as (a & <- & _). }
  exists (map fst (Js.sort (by_desc snd) pairs)). split; [|split].
  - rewrite Hp. unfold pairs. rewrite map_map. simpl. now rewrite map_id.
  - apply (JsFacts.descending_map fst snd r); [assumption|].
    apply JsFacts.sort_descending.
    intros p Hp'. unfold pairs in Hp'. apply in_map_iff in Hp'.
    destruct Hp' as (a & <- & Ha). now apply Hd.
  - unfold Js.slice. simpl. rewrite Nat.sub_0_r. symmetry. apply firstn_map.
Qed.

(** The three plans: method, threshold and participants, the experts being
    taken in the order of [expertRank]. *)
Lemma adaptive_plans taskComplexity agents culturalContext s :
  agents <> [] ->
  scores_defined (expertRank s culturalContext) agents ->
  exists plan,
    adaptiveConsensus taskComplexity agents culturalContext s = (Js.Returned plan, s) /\
    match taskComplexity with
    | simple =>
        Plan.method plan = "single_expert" /\ Plan.threshold plan = 0.6%float /\
        exists top, Plan.participants plan = [top] /\
                    first_max (expertRank s culturalContext) agents top
    | moderate =>
        Plan.method plan = "expertise_weighted" /\ Plan.threshold plan = 0.7%float /\
        exists ranked, Permutation ranked agents /\
                       descending (expertRank s culturalContext) ranked /\
                       Plan.participants plan = firstn 3 ranked
    | complex =>
        Plan.method plan = "full_swarm_consensus" /\ Plan.threshold plan = 0.8%float /\
        Plan.participants plan = agents
    end.
Proof.
  intros Hne Hd. destruct taskComplexity.
  - destruct (selectTopExpert_first_max s agents culturalContext Hne Hd) as (top & E & F).
    eexists. split.
    + unfold adaptiveConsensus, bind, read. rewrite E. reflexivity.
    + simpl. repeat split. now exists top.
  - destruct (selectTopExperts_ranked s agents culturalContext 3 Hd) as (ranked & P & D & E).
    eexists. split; [reflexivity|]. simpl. repeat split. now exists ranked.
  - eexists. split; [reflexivity|]. simpl. repeat split.
Qed.

(** C6 (the code as it is).  The plans have the documented method, threshold
    and participants, but the experts are ranked with an expertise of [0], not
    of [0.5], for an agent the table does not know: with the table
    [{A: 0.3}] the simple plan for [A; B] is [A], although ranked with the
    default 0.5 agent [B] stands above [A]. *)
Theorem adaptive_ranks_unknown_agents_at_zero :
  let s := {| consensusThreshold := 0.7; culturalWeights := ∅;
              agentExpertise := {[ "A" := 0.3 ]}; decisionHistory := [] |} in
  adaptiveConsensus simple ["A"; "B"] "ctx" s =
    (Js.Returned {| Plan.method := "single_expert"; Plan.threshold := 0.6;
                    Plan.participants := ["A"] |}, s) /\
  adaptiveConsensus moderate ["B"; "A"] "ctx" s =
    (Js.Returned {| Plan.method := "expertise_weighted"; Plan.threshold := 0.7;
                    Plan.participants := ["A"; "B"] |}, s) /\
  expertRank s "ctx" "B" = 0 /\
  (expertiseOf s "A" 0.5 * culturalWeight s "ctx" 1 <?
   expertiseOf s "B" 0.5 * culturalWeight s "ctx" 1)%float = true.
Proof. vm_compute. repeat split. Qed.

(** A constant is finite with the exponent its literal has. *)
Ltac const_below := unfold finite_below; vm_compute; try exact I; intro; discriminate.

Lemma expertiseOf_within s agent :
  expertise_in_range s -> within 0.1 1.0 (expertiseOf s agent 0.5).
Proof.
  intros Hr. unfold expertiseOf, Js.or_else.
  destruct (agentExpertise s !! agent) as [x|] eqn:E.
  - destruct (Js.truthy x); [exact (Hr _ _ E) | split; reflexivity].
  - split; reflexivity.
Qed.

Lemma culturalWeight_within s context :
  weights_in_range s -> within 0.5 2.0 (culturalWeight s context 1.0).
Proof.
  intros Hr. unfold culturalWeight, Js.or_else.
  destruct (culturalWeights s !! context) as [x|] eqn:E.
  - destruct (Js.truthy x); [exact (Hr _ _ E) | split; reflexivity].
  - split; reflexivity.
Qed.

Lemma expertise_blend_defined s agentId performance :
  expertise_in_range s -> is_nan performance = false ->
  is_nan (expertiseOf s agentId 0.5 * 0.8 + performance * 0.2) = false.
Proof.
  intros Hr Hp.
  pose proof (expertiseOf_within s agentId Hr) as Hw.
  assert (Hc : finite_below (-52) (expertiseOf s agentId 0.5)).
  { apply (F64.within_below 0.1 1.0); [assumption | const_below | const_below]. }
  assert (H8 : finite_below (-53) 0.8) by const_below.
  pose proof (F64.mul_below _ _ _ _ Hc H8 ltac:(lia)) as Hm.
  eapply F64.add_not_nan; [exact Hm|].
  apply F64.mul_not_nan; [assumption | exact I].
Qed.

Lemma weight_blend_defined s context effectiveness :
  weights_in_range s -> is_nan effectiveness = false ->
  is_nan (culturalWeight s context 1.0 * 0.9 + effectiveness * 0.1) = false.
Proof.
  intros Hr Hp.
  pose proof (culturalWeight_within s context Hr) as Hw.
  assert (Hc : finite_below (-51) (culturalWeight s context 1.0)).
  { apply (F64.within_below 0.5 2.0); [assumption | const_below | const_below]. }
  assert (H9 : finite_below (-53) 0.9) by const_below.
  pose proof (F64.mul_below _ _ _ _ Hc H9 ltac:(lia)) as Hm.
  eapply F64.add_not_nan; [exact Hm|].
  apply F64.mul_not_nan; [assumption | exact I].
Qed.

Lemma blendedExpertise_within s agentId performance :
  is_nan (expertiseOf s agentId 0.5 * 0.8 + performance * 0.2) = false ->
  within 0.1 1.0 (blendedExpertise s agentId performance).
Proof. intros H. unfold blendedExpertise. now apply JsFacts.clamp_within. Qed.

Lemma blendedWeight_within s context effectiveness :
  is_nan (culturalWeight s context 1.0 * 0.9 + effectiveness * 0.1) = false ->
  within 0.5 2.0 (blendedWeight s context effectiveness).
Proof. intros H. unfold blendedWeight. now apply JsFacts.clamp_within. Qed.

Section Runs.
Variable numberToString : float -> string.

Lemma step_tables_in_range c s :
  learns_a_number c -> expertise_in_range s /\ weights_in_range s ->
  expertise_in_range (step numberToString c s) /\ weights_in_range (step numberToString c s).
Proof.
  intros Hc [He Hw].
  destruct c as [t bids ctx|now ps ctx|k agents ctx|a p|c e|size rs ctx draws|]; simpl in *.
  - now rewrite auction_state_unchanged.
  - destruct ps; simpl; split; assumption.
  - destruct k; simpl; [|split; assumption|split; assumption].
    unfold bind. destruct (selectTopExpert s agents ctx); simpl; split; assumption.
  - split; [|assumption]. unfold expertise_in_range. simpl.
    apply map_Forall_insert_2; [|assumption].
    apply blendedExpertise_within. now apply expertise_blend_defined.
  - split; [assumption|]. unfold weights_in_range. simpl.
    apply map_Forall_insert_2; [|assumption].
    apply blendedWeight_within. now apply weight_blend_defined.
  - split; assumption.
  - split; assumption.
Qed.

Lemma run_tables_in_range calls : forall s,
  Forall learns_a_number calls -> expertise_in_range s /\ weights_in_range s ->
  expertise_in_range (run numberToString calls s) /\
  weights_in_range (run numberToString calls s).
Proof.
  induction calls as [|c calls IH]; intros s Hc Hs; simpl; [assumption|].
  apply Forall_cons in Hc. destruct Hc as [Hc Hcs].
  apply IH; [assumption|]. now apply step_tables_in_range.
Qed.

(** C7 (amended).  Whenever the blended value [0.8 * old + 0.2 * performance]
    is not NaN, [updateAgentExpertise] stores a value within [0.1 .. 1.0], and
    whenever [0.9 * old + 0.1 * effectiveness] is not NaN,
    [updateCulturalWeights] stores a value within [0.5 .. 2.0]; the blended
    value is not NaN as soon as the input is not NaN and the table's entries
    are in range; and since no other method writes to the tables, after any
    run of calls on a fresh engine whose learning inputs are not NaN every
    entry of [agentExpertise] lies in [0.1 .. 1.0] and every entry of
    [culturalWeights] in [0.5 .. 2.0]. *)
Theorem learned_tables_stay_in_range :
  (forall s agentId performance,
     is_nan (expertiseOf s agentId 0.5 * 0.8 + performance * 0.2) = false ->
     agentExpertise (snd (updateAgentExpertise agentId performance s)) !! agentId
       = Some (blendedExpertise s agentId performance) /\
     within 0.1 1.0 (blendedExpertise s agentId performance)) /\
  (forall s context effectiveness,
     is_nan (culturalWeight s context 1.0 * 0.9 + effectiveness * 0.1) = false ->
     culturalWeights (snd (updateCulturalWeights context effectiveness s)) !! context
       = Some (blendedWeight s context effectiveness) /\
     within 0.5 2.0 (blendedWeight s context effectiveness)) /\
  (forall s agentId performance,
     expertise_in_range s -> is_nan performance = false ->
     is_nan (expertiseOf s agentId 0.5 * 0.8 + performance * 0.2) = false) /\
  (forall s context effectiveness,
     weights_in_range s -> is_nan effectiveness = false ->
     is_nan (culturalWeight s context 1.0 * 0.9 + effectiveness * 0.1) = false) /\
  (forall threshold calls,
     Forall learns_a_number calls ->
     expertise_in_range (run numberToString calls (create threshold)) /\
     weights_in_range (run numberToString calls (create threshold))).
Proof.
  split; [|split; [|split; [|split]]].
  - intros s a p H. split; [apply lookup_insert_eq | now apply blendedExpertise_within].
  - intros s c e H. split; [apply lookup_insert_eq | now apply blendedWeight_within].
  - apply expertise_blend_defined.
  - apply weight_blend_defined.
  - intros threshold calls Hc. apply run_tables_in_range; [assumption|].
    split; apply map_Forall_empty.
Qed.
End Runs.

(** ** The composite score is finite on bids of the data model *)

Lemma composite_score_below s bid culturalContext :
  bid_in_model bid -> expertise_in_range s -> weights_in_range s ->
  finite_below 971 (calculateCompositeScore s bid culturalContext).
Proof.
  intros (Hc & He & Hr & Ht & Hk) Hexp Hwt. unfold calculateCompositeScore.
  assert (B01 : forall x, within 0 1 x -> finite_below (-52) x).
  { intros x Hx. apply (F64.within_below 0 1); [assumption | const_below | const_below]. }
  assert (Brecip : forall t, (1e-290 <=? t)%float = true -> finite_below 965 (1 / t)).
  { intros t Hle.
    assert (Ha : exponent_above (-1016) t).
    { apply (F64.leb_above 1e-290); [assumption|]. vm_compute. intro; discriminate. }
    assert (H1 : finite_below (-52) 1) by const_below.
    pose proof (F64.div_below _ _ _ _ H1 Ha ltac:(lia)) as Hd.
    revert Hd. apply F64.below_mono. lia. }
  pose proof (B01 _ Hc) as Bc. pose proof (B01 _ He) as Be. pose proof (B01 _ Hr) as Br.
  pose proof (Brecip _ Ht) as Bt. pose proof (Brecip _ Hk) as Bk.
  assert (Bw : finite_below (-51) (culturalWeight s culturalContext 1.0)).
  { apply (F64.within_below 0.5 2.0);
      [now apply culturalWeight_within | const_below | const_below]. }
  assert (Bx : finite_below (-52) (expertiseOf s (AgentBid.agentId bid) 0.5)).
  { apply (F64.within_below 0.1 1.0);
      [now apply expertiseOf_within | const_below | const_below]. }
  assert (K3 : finite_below (-54) 0.3) by const_below.
  assert (K25 : finite_below (-54) 0.25) by const_below.
  assert (K2 : finite_below (-55) 0.2) by const_below.
  assert (K15 : finite_below (-55) 0.15) by const_below.
  assert (K1 : finite_below (-56) 0.1) by const_below.
  pose proof (F64.mul_below _ _ _ _ Bc K3 ltac:(lia)) as T1.
  pose proof (F64.mul_below _ _ _ _ Be K25 ltac:(lia)) as T2.
  pose proof (F64.mul_below _ _ _ _ Br K2 ltac:(lia)) as T3a.
  pose proof (F64.mul_below _ _ _ _ T3a Bw ltac:(lia)) as T3.
  pose proof (F64.mul_below _ _ _ _ Bt K15 ltac:(lia)) as T4.
  pose proof (F64.mul_below _ _ _ _ Bk K1 ltac:(lia)) as T5.
  pose proof (F64.mul_below _ _ _ _ Bx K1 ltac:(lia)) as T6.
  pose proof (F64.add_below _ _ _ _ T1 T2 ltac:(lia)) as S2.
  pose proof (F64.add_below _ _ _ _ S2 T3 ltac:(lia)) as S3.
  pose proof (F64.add_below _ _ _ _ S3 T4 ltac:(lia)) as S4.
  pose proof (F64.add_below _ _ _ _ S4 T5 ltac:(lia)) as S5.
  pose proof (F64.add_below _ _ _ _ S5 T6 ltac:(lia)) as S6.
  revert S6. apply F64.below_mono. lia.
Qed.

(** In particular no bid of the data model has the score NaN. *)
Lemma model_bids_scores_defined s bids culturalContext :
  Forall bid_in_model bids -> expertise_in_range s -> weights_in_range s ->
  scores_defined (fun bid => calculateCompositeScore s bid culturalContext) bids.
Proof.
  intros Hb He Hw bid Hin. rewrite List.Forall_forall in Hb.
  apply (F64.below_not_nan 971). apply composite_score_below; auto.
Qed.

(** C10 (amended).  When [estimatedTime > 0] and [resourceCost > 0], neither
    division of the composite score divides by zero, and both reciprocals are
    numbers that are not NaN and not negative (they are [+Infinity] when the
    divisor is small enough).  The score itself is finite when moreover the bid
    lies within the data model's ranges with a time and a cost of at least
    [1e-290], and the learned tables are in range. *)
Theorem composite_score_well_defined s bid culturalContext :
  ((0 <? AgentBid.estimatedTime bid)%float = true ->
   (0 <? AgentBid.resourceCost bid)%float = true ->
   is_zero (AgentBid.estimatedTime bid) = false /\
   is_zero (AgentBid.resourceCost bid) = false /\
   is_nan (1 / AgentBid.estimatedTime bid) = false /\
   (0 <=? 1 / AgentBid.estimatedTime bid)%float = true /\
   is_nan (1 / AgentBid.resourceCost bid) = false /\
   (0 <=? 1 / AgentBid.resourceCost bid)%float = true) /\
  (bid_in_model bid -> expertise_in_range s -> weights_in_range s ->
   is_finite (calculateCompositeScore s bid culturalContext) = true).
Proof.
  split.
  - intros Ht Hk.
    destruct (F64.recip_positive _ Ht) as (Z1 & N1 & P1).
    destruct (F64.recip_positive _ Hk) as (Z2 & N2 & P2).
    repeat split; assumption.
  - intros Hb He Hw. apply (F64.below_is_finite 971).
    now apply composite_score_below.
Qed.

(** ** Concrete runs *)

Import Sample.

(** C1, as stated, fails on a bid whose score is NaN: the sort leaves it in
    front, the auction selects it, and it is no maximiser. *)
Lemma auction_nan_score_counterexample :
  let s := create 0.7 in
  let bids := [bid "A" nan 10; bid "B" 0.9 10] in
  let score := fun b => calculateCompositeScore s b "ctx" in
  ConsensusResult.selectedAgent <$>
    Js.returned (fst (auctionBasedAllocation (fun _ => "") "t" bids "ctx" s)) = Some "A" /\
  is_nan (score (bid "A" nan 10)) = true /\
  (score (bid "B" 0.9 10) <=? score (bid "A" nan 10))%float = false /\
  (forall winner, ~ first_max score bids winner).
Proof.
  cbv zeta. split; [|split; [|split]].
  - reflexivity.
  - reflexivity.
  - reflexivity.
  - intros winner (before & after & E & Hb & Ha).
    destruct before as [|b0 before].
    + injection E as <- <-. specialize (Ha _ (or_introl eq_refl)).
      vm_compute in Ha. discriminate.
    + injection E as <- E. specialize (Hb _ (or_introl eq_refl)).
      destruct before as [|b1 before].
      * injection E as <- <-. vm_compute in Hb. discriminate.
      * injection E as _ E. destruct before; discriminate.
Qed.

(** The amended C1 on three bids, two of them tied at the top. *)
Lemma auction_selects_first_max_witness :
  let s := create 0.7 in
  let bids := [bid "A" 0.4 10; bid "B" 0.9 10; bid "C" 0.9 10] in
  bids <> [] /\
  scores_defined (fun b => calculateCompositeScore s b "ctx") bids /\
  exists r winner,
    auctionBasedAllocation (fun _ => "") "t" bids "ctx" s = (Js.Returned r, s) /\
    ConsensusResult.selectedAgent r = AgentBid.agentId winner /\
    first_max (fun b => calculateCompositeScore s b "ctx") bids winner.
Proof.
  cbv zeta.
  assert (Hne : [bid "A" 0.4 10; bid "B" 0.9 10; bid "C" 0.9 10] <> []) by discriminate.
  assert (Hd : scores_defined (fun b => calculateCompositeScore (create 0.7) b "ctx")
                 [bid "A" 0.4 10; bid "B" 0.9 10; bid "C" 0.9 10]).
  { intros y [<-|[<-|[<-|[]]]]; reflexivity. }
  split; [exact Hne|]. split; [exact Hd|].
  exact (proj1 (auction_selects_first_max (fun _ => "") "t" _ "ctx" (create 0.7) Hne Hd)).
Defined.

(** C3, as stated, fails when an agent sends two proposals: the later weight
    overwrites the earlier one, the first proposal of the agent is returned,
    and the confidence is not the winner's share of all the weights. *)
Lemma voting_repeated_agent_counterexample :
  let s := create 0.7 in
  let p1 := proposal "A" "p1" 0.1 in
  let p2 := proposal "A" "p2" 0.9 in
  let p3 := proposal "B" "p3" 0.5 in
  let weight := adjustedWeight s "ctx" in
  let total := fold_left (fun sum w => sum + w) (map weight [p1; p2; p3]) 0 in
  let d := Js.returned (fst (expertiseWeightedVoting 0 [p1; p2; p3] "ctx" s)) in
  first_max weight [p1; p2; p3] p2 /\
  SwarmDecision.decision <$> d = Some (Js.Str "p1") /\
  SwarmDecision.confidence <$> d = Some (weight p2 / (weight p2 + weight p3)) /\
  (weight p2 / total <? weight p2 / (weight p2 + weight p3))%float = true.
Proof.
  cbv zeta. split; [|split; [|split]]; try reflexivity.
  exists [proposal "A" "p1" 0.1], [proposal "B" "p3" 0.5].
  split; [reflexivity|]. split; intros y [<-|[]]; reflexivity.
Qed.

(** The amended C3 on the scenario of the specification. *)
Lemma voting_selects_first_max_witness :
  let s := learned [("ctx", 1.0)] [("A", 0.5); ("B", 0.9)] in
  let proposals := [proposal "A" "p1" 0.9; proposal "B" "p2" 0.5] in
  proposals <> [] /\
  NoDup (map Proposal.agentId proposals) /\
  scores_defined (adjustedWeight s "ctx") proposals /\
  (forall p, In p proposals -> Js.truthy_value (Proposal.proposal p) = true) /\
  exists winner,
    first_max (adjustedWeight s "ctx") proposals winner /\
    let total :=
      fold_left (fun sum weight => sum + weight) (map (adjustedWeight s "ctx") proposals) 0 in
    let d :=
      {| SwarmDecision.taskId := "decision_" ++ pretty 0%Z;
         SwarmDecision.decision := Proposal.proposal winner;
         SwarmDecision.confidence :=
           if (0 <? total)%float then adjustedWeight s "ctx" winner / total else 0;
         SwarmDecision.participatingAgents := map Proposal.agentId proposals;
         SwarmDecision.culturalContext := "ctx" |} in
    expertiseWeightedVoting 0 proposals "ctx" s = (Js.Returned d, recorded s d).
Proof.
  cbv zeta.
  set (s := learned [("ctx", 1.0)] [("A", 0.5); ("B", 0.9)]).
  set (proposals := [proposal "A" "p1" 0.9; proposal "B" "p2" 0.5]).
  assert (Hne : proposals <> []) by discriminate.
  assert (Hnd : NoDup (map Proposal.agentId proposals)).
  { apply (bool_decide_unpack _). vm_compute. exact I. }
  assert (Hd : scores_defined (adjustedWeight s "ctx") proposals).
  { intros y [<-|[<-|[]]]; reflexivity. }
  assert (Ht : forall p, In p proposals -> Js.truthy_value (Proposal.proposal p) = true).
  { intros y [<-|[<-|[]]]; reflexivity. }
  repeat (split; [assumption|]).
  exact (proj1 (voting_selects_first_max 0 proposals "ctx" s Hne Hnd Hd Ht)).
Defined.

(** The scenario of the specification, evaluated: a tie of two weights of
    0.45 goes to the first proposal, with confidence 0.5. *)
Lemma voting_tie_scenario :
  let s := learned [("ctx", 1.0)] [("A", 0.5); ("B", 0.9)] in
  let proposals := [proposal "A" "p1" 0.9; proposal "B" "p2" 0.5] in
  map (adjustedWeight s "ctx") proposals = [0.45; 0.45] /\
  fst (expertiseWeightedVoting 0 proposals "ctx" s) =
  Js.Returned {| SwarmDecision.taskId := "decision_0";
                 SwarmDecision.decision := Js.Str "p1";
                 SwarmDecision.confidence := 0.5;
                 SwarmDecision.participatingAgents := ["A"; "B"];
                 SwarmDecision.culturalContext := "ctx" |}.
Proof. split; reflexivity. Qed.

(** C7, as stated, fails on the input NaN: NaN is stored. *)
Lemma expertise_update_nan_counterexample :
  let s := snd (updateAgentExpertise "A" nan (create 0.7)) in
  agentExpertise s !! "A" = Some nan /\
  ~ within 0.1 1.0 nan /\
  ~ expertise_in_range s.
Proof.
  cbv zeta. split; [reflexivity|]. split.
  - intros [H _]. vm_compute in H. discriminate.
  - intros H. specialize (H "A" nan eq_refl). destruct H as [H _].
    vm_compute in H. discriminate.
Qed.

(** C10, as stated, fails on a positive time near zero: its reciprocal
    overflows and the score is infinite. *)
Lemma composite_score_overflow_counterexample :
  let b := bid "A" 0.5 5e-324 in
  (0 <? AgentBid.estimatedTime b)%float = true /\
  (0 <? AgentBid.resourceCost b)%float = true /\
  1 / AgentBid.estimatedTime b = infinity /\
  calculateCompositeScore (create 0.7) b "ctx" = infinity /\
  is_finite (calculateCompositeScore (create 0.7) b "ctx") = false.
Proof. repeat split. Qed.

(** The amended C10 on a bid of the data model. *)
Lemma composite_score_well_defined_witness :
  let b := bid "A" 0.9 10 in
  let s := create 0.7 in
  ((0 <? AgentBid.estimatedTime b)%float = true /\
   (0 <? AgentBid.resourceCost b)%float = true /\
   is_zero (AgentBid.estimatedTime b) = false /\
   is_nan (1 / AgentBid.estimatedTime b) = false) /\
  (bid_in_model b /\ expertise_in_range s /\ weights_in_range s /\
   is_finite (calculateCompositeScore s b "ctx") = true).
Proof.
  cbv zeta.
  destruct (composite_score_well_defined (create 0.7) (bid "A" 0.9 10) "ctx") as [HA HB].
  assert (Ht : (0 <? AgentBid.estimatedTime (bid "A" 0.9 10))%float = true) by reflexivity.
  assert (Hk : (0 <? AgentBid.resourceCost (bid "A" 0.9 10))%float = true) by reflexivity.
  assert (Hm : bid_in_model (bid "A" 0.9 10)) by (repeat split).
  assert (He : expertise_in_range (create 0.7)) by apply map_Forall_empty.
  assert (Hw : weights_in_range (create 0.7)) by apply map_Forall_empty.
  split.
  - destruct (HA Ht Hk) as (Z1 & _ & N1 & _). repeat split; assumption.
  - repeat (split; [assumption|]). exact (HB Hm He Hw).
Defined.

(** The amended C7 on a run that learns from large and negative inputs. *)
Lemma learned_tables_stay_in_range_witness :
  let s := create 0.7 in
  let calls := [LearnExpertise "A" 0.9; LearnWeight "ctx" 3; LearnExpertise "A" infinity;
                Vote 0 [proposal "A" "p1" 0.9] "ctx"; LearnWeight "ctx" (-5)] in
  (is_nan (expertiseOf s "A" 0.5 * 0.8 + 0.9 * 0.2) = false /\
   within 0.1 1.0 (blendedExpertise s "A" 0.9)) /\
  (Forall learns_a_number calls /\
   expertise_in_range (run (fun _ => "") calls s) /\
   weights_in_range (run (fun _ => "") calls s)).
Proof.
  cbv zeta.
  destruct (learned_tables_stay_in_range (fun _ => "")) as (H1 & _ & _ & _ & H5).
  assert (Hn : is_nan (expertiseOf (create 0.7) "A" 0.5 * 0.8 + 0.9 * 0.2) = false)
    by reflexivity.
  split.
  - split; [exact Hn|]. exact (proj2 (H1 (create 0.7) "A" 0.9 Hn)).
  - assert (Hc : Forall learns_a_number
        [LearnExpertise "A" 0.9; LearnWeight "ctx" 3; LearnExpertise "A" infinity;
         Vote 0 [proposal "A" "p1" 0.9] "ctx"; LearnWeight "ctx" (-5)]).
    { repeat constructor. }
    split; [exact Hc|]. exact (H5 0.7 _ Hc).
Defined.

End EngineProps.

(* ===================================================================== *)
(** * Part IV: properties of the two [SwarmManager] routines *)
(* ===================================================================== *)

Module ManagerProps.
Import Spec Manager JsFacts MapFacts.

(** ** Collaborative consensus *)

(** A count as a number: the nearest binary64 number. *)
Lemma of_nat_nearest n :
  (Z.of_nat n < 2 ^ 63)%Z -> Prim2SF (Js.of_nat n) = nearest n.
Proof.
  intros H. unfold Js.of_nat, nearest. rewrite FloatAxioms.of_uint63_spec.
  rewrite Uint63.of_Z_spec. rewrite Z.mod_small; [reflexivity|].
  split; [lia|]. exact H.
Qed.

Lemma of_nat_small :
  Js.of_nat 0 = 0%float /\ Js.of_nat 1 = 1%float /\ Js.of_nat 2 = 2%float /\
  Js.of_nat 3 = 3%float /\ Js.of_nat 10 = 10%float.
Proof. repeat split. Qed.

Lemma quotient_nearest a b :
  (Z.of_nat a < 2 ^ 63)%Z -> (Z.of_nat b < 2 ^ 63)%Z ->
  Prim2SF (Js.of_nat a / Js.of_nat b) = SFdiv prec emax (nearest a) (nearest b).
Proof.
  intros Ha Hb. rewrite FloatAxioms.div_spec. now rewrite !of_nat_nearest.
Qed.

(** *** The tally of texts *)

Lemma tally_snoc keys k :
  tally (keys ++ [k]) =
  Js.map_set k (default 0 (Js.map_get k (tally keys)) + 1) (tally keys).
Proof. unfold tally. now rewrite fold_left_app. Qed.

Lemma tally_get keys : forall k,
  Js.map_get k (tally keys) =
  match count_occ string_dec keys k with
  | 0 => None
  | S n => Some (S n)
  end.
Proof.
  induction keys as [|x keys IH] using rev_ind; intros k; [reflexivity|].
  rewrite tally_snoc, map_get_set, count_occ_app. simpl.
  destruct (String.eqb_spec x k) as [->|Hne].
  - rewrite IH. destruct (string_dec k k); [|contradiction].
    destruct (count_occ string_dec keys k); simpl; f_equal; lia.
  - rewrite IH. destruct (string_dec x k); [contradiction|].
    now rewrite Nat.add_0_r.
Qed.

Lemma tally_NoDup keys : NoDup (map fst (tally keys)).
Proof.
  induction keys as [|x keys IH] using rev_ind; [apply NoDup_nil_2|].
  rewrite tally_snoc. now apply map_set_NoDup.
Qed.

Lemma tally_entries keys (c : string -> nat) :
  map (fun e => (fst e, c (fst e))) (tally keys) = entries c keys.
Proof.
  induction keys as [|x keys IH] using rev_ind; [reflexivity|].
  rewrite tally_snoc. rewrite entries_snoc, <- IH.
  apply (map_set_map (fun k _ => c k)).
Qed.

Lemma tally_final keys : tally keys = entries (count_occ string_dec keys) keys.
Proof.
  rewrite <- tally_entries. symmetry. apply values_fixed.
  - apply tally_NoDup.
  - intros k v. rewrite tally_get.
    destruct (count_occ string_dec keys k); congruence.
Qed.

Lemma tally_keys keys e : In e (tally keys) -> In (fst e) keys.
Proof.
  intros H. apply (in_map fst) in H. revert H. generalize (fst e). clear e.
  induction keys as [|x keys IH] using rev_ind; intros k; [intros []|].
  rewrite tally_snoc, map_set_keys. intros H. apply in_or_app.
  destruct (in_dec string_dec x (map fst (tally keys))) as [_|_].
  - left. now apply IH.
  - apply in_app_or in H. destruct H as [H|[<-|[]]]; [left; now apply IH | right; now left].
Qed.

(** The first most frequent text, as the scan over the tally finds it. *)
Lemma tally_first_most k0 rest :
  let keys := k0 :: rest in
  let count := count_occ string_dec keys in
  exists k,
    fold_left (pick Nat.ltb Some) (tally keys) (0, None) = (count k, Some k) /\
    first_most count keys k.
Proof.
  intros keys count.
  rewrite tally_final. fold count.
  rewrite (scan_entries Nat.ltb Some count).
  - apply (scan_first_most Some count k0 rest).
    unfold count, keys. simpl. destruct (string_dec k0 k0); [lia|contradiction].
  - intros a b c0 H1 H2. apply Nat.ltb_lt in H1, H2. apply Nat.ltb_lt. lia.
  - intros a. apply Nat.ltb_irrefl.
Qed.

(** ** Collaborative consensus *)

Section Consensus.
Variable result : Type.
Variable stringify : result -> Js.outcome (option string).
Variable parse : string -> Js.outcome result.
Variable text : result -> string.

(** An entry of the tally as an entry of the [resultCounts] map. *)
#[local] Abbreviation entry := (fun e : string * nat => (Some (fst e), snd e)).

Lemma counts_get_entries k m : counts_get (Some k) (map entry m) = Js.map_get k m.
Proof.
  induction m as [|[k0 v0] m IH]; simpl; [reflexivity|].
  destruct (String.eqb k0 k); [reflexivity | exact IH].
Qed.

Lemma counts_set_entries k v m :
  counts_set (Some k) v (map entry m) = map entry (Js.map_set k v m).
Proof.
  induction m as [|[k0 v0] m IH]; simpl; [reflexivity|].
  destruct (String.eqb k0 k); simpl; [reflexivity | now rewrite IH].
Qed.

(** On results that have a text the counting loop computes the tally of
    the texts. *)
Lemma countResults_tally results :
  (forall r, In r results -> stringify r = Js.Returned (Some (text r))) ->
  countResults result stringify results = Js.Returned (map entry (tally (map text results))).
Proof.
  unfold countResults, tally.
  change (@nil (option string * nat)) with (map entry []).
  generalize (@nil (string * nat)).
  induction results as [|r rs IH]; intros m H; [reflexivity|].
  cbn [fold_left map]. rewrite (H r (or_introl eq_refl)).
  rewrite counts_get_entries, counts_set_entries.
  apply IH. intros r' Hr'. apply H. now right.
Qed.

(** What the scan of the texts holds against what the loop of the code
    holds: the text of the value parsed. *)
Definition parsed_as (k : option string) (v : option result) : Prop :=
  match k, v with
  | None, None => True
  | Some k, Some v => parse k = Js.Returned v
  | _, _ => False
  end.

Lemma mostCommon_scan m : forall n k v,
  (forall e, In e m -> exists parsed, parse (fst e) = Js.Returned parsed) ->
  parsed_as k v ->
  exists v',
    fold_left
      (fun best '(resultStr, count) =>
         match best with
         | Js.Thrown e => Js.Thrown e
         | Js.Returned (maxCount, consensusResult) =>
             if maxCount <? count then
               match JSON_parse result parse resultStr with
               | Js.Thrown e => Js.Thrown e
               | Js.Returned parsed => Js.Returned (count, Some parsed)
               end
             else Js.Returned (maxCount, consensusResult)
         end)
      (map entry m) (Js.Returned (n, v)) =
    Js.Returned (fst (fold_left (pick Nat.ltb Some) m (n, k)), v') /\
    parsed_as (snd (fold_left (pick Nat.ltb Some) m (n, k))) v'.
Proof.
  induction m as [|[k0 n0] m IH]; intros n k v Hp Hk.
  - exists v. split; [reflexivity | exact Hk].
  - cbn [map fold_left fst snd]. unfold pick at 2 4. cbn [fst snd].
    destruct (n <? n0) eqn:E.
    + destruct (Hp (k0, n0) (or_introl eq_refl)) as [parsed Hparsed].
      unfold JSON_parse. cbn [fst] in Hparsed. rewrite Hparsed.
      apply IH; [intros e He; apply Hp; now right | exact Hparsed].
    + apply IH; [intros e He; apply Hp; now right | exact Hk].
Qed.

(** On results that have a text which can be read back, the two loops find
    the first most frequent text and its value. *)
Lemma mostCommon_first_most r0 rs :
  serializable stringify parse text (r0 :: rs) ->
  let keys := map text (r0 :: rs) in
  let count := count_occ string_dec keys in
  exists k v,
    countResults result stringify (r0 :: rs) = Js.Returned (map entry (tally keys)) /\
    mostCommon result parse (map entry (tally keys)) = Js.Returned (count k, Some v) /\
    parse k = Js.Returned v /\
    stringify v = Js.Returned (Some k) /\
    first_most count keys k.
Proof.
  intros Hs keys count.
  destruct (tally_first_most (text r0) (map text rs)) as (k & Hscan & Hk).
  cbv zeta in Hscan, Hk. change (text r0 :: map text rs) with keys in Hscan, Hk.
  change (count_occ string_dec keys) with count in Hscan, Hk.
  assert (Hparse : forall e, In e (tally keys) ->
            exists parsed, parse (fst e) = Js.Returned parsed).
  { intros e He. apply tally_keys, in_map_iff in He. destruct He as (r & <- & Hr).
    destruct (Hs r Hr) as (_ & v & Hv & _). now exists v. }
  destruct (mostCommon_scan (tally keys) 0 None None Hparse I) as (v' & Hm & Hv').
  rewrite Hscan in Hm, Hv'. cbn [fst snd] in Hm, Hv'.
  destruct v' as [v|]; [|contradiction]. cbn in Hv'.
  exists k, v. split; [|split; [exact Hm|split; [exact Hv'|split; [|exact Hk]]]].
  - apply countResults_tally. intros r Hr. exact (proj1 (Hs r Hr)).
  - assert (Hin : In k keys).
    { destruct Hk as (l1 & l2 & -> & _). apply in_or_app. right. now left. }
    apply in_map_iff in Hin. destruct Hin as (r & <- & Hr).
    destruct (Hs r Hr) as (_ & w & Hw & Hw'). rewrite Hw in Hv'. now injection Hv' as <-.
Qed.

(** On results that have a text, the filter keeps the results whose text
    is not the winning one. *)
Lemma dissenting_filter v k results :
  (forall r, In r results -> stringify r = Js.Returned (Some (text r))) ->
  stringify v = Js.Returned (Some k) ->
  dissenting result stringify (Some v) results =
  Js.Returned (List.filter (fun r => negb (String.eqb (text r) k)) results).
Proof.
  intros H Hv. induction results as [|r rs IH]; [reflexivity|].
  cbn [dissenting List.filter]. rewrite (H r (or_introl eq_refl)).
  cbn [stringifyOrNull]. rewrite Hv, IH by (intros r' Hr'; apply H; now right).
  cbn [same_key]. now destruct (String.eqb (text r) k).
Qed.

(** On results that have a text which can be read back, [applyConsensus]
    returns. *)
Lemma applyConsensus_returns results :
  results <> [] -> serializable stringify parse text results ->
  exists c, applyConsensus result stringify parse results = Js.Returned c.
Proof.
  intros Hne Hs. destruct results as [|r0 [|r1 rs]]; [contradiction| |].
  - eexists. reflexivity.
  - destruct (mostCommon_first_most r0 (r1 :: rs) Hs) as (k & v & Hc & Hm & _ & Hv & _).
    unfold applyConsensus. rewrite Hc, Hm.
    rewrite (dissenting_filter v k) by (first [exact Hv | intros r Hr; exact (proj1 (Hs r Hr))]).
    eexists. reflexivity.
Qed.

(** C2 (amended).  For a non-empty list of results each of which has a
    JSON text that [JSON.parse] reads back as a value with the same text,
    [applyConsensus] returns: as decision a value whose text is the most
    frequent one, the first seen among the most frequent; as agreement level
    the count of that text divided by the number of results, which is the
    binary64 quotient of the two whole numbers; as confidence the agreement
    level; as dissenting opinions exactly the results whose text differs from
    the decision's. *)
Theorem consensus_majority results :
  results <> [] ->
  serializable stringify parse text results ->
  exists c d k,
    applyConsensus result stringify parse results = Js.Returned c /\
    decision result c = Some d /\
    stringify d = Js.Returned (Some k) /\
    let keys := map text results in
    let count := count_occ string_dec keys in
    first_most count keys k /\
    agreementLevel result c =
      (Js.of_nat (count k) / Js.of_nat (length results))%float /\
    ((Z.of_nat (length results) < 2 ^ 63)%Z ->
     Prim2SF (agreementLevel result c) =
       SFdiv prec emax (nearest (count k)) (nearest (length results))) /\
    confidence result c = agreementLevel result c /\
    dissentingOpinions result c =
      List.filter (fun r => negb (String.eqb (text r) k)) results.
Proof.
  intros Hne Hs.
  assert (Hq : forall k : string,
            (Z.of_nat (length results) < 2 ^ 63)%Z ->
            Prim2SF (Js.of_nat (count_occ string_dec (map text results) k)
                     / Js.of_nat (length results)) =
            SFdiv prec emax (nearest (count_occ string_dec (map text results) k))
              (nearest (length results))).
  { intros k Hlen. apply quotient_nearest; [|exact Hlen].
    pose proof (count_occ_bound string_dec k (map text results)) as Hb.
    rewrite length_map in Hb. lia. }
  destruct results as [|r0 [|r1 rs]]; [contradiction| |].
  - destruct (Hs r0 (or_introl eq_refl)) as (Hr0 & _).
    exists {| decision := Some r0; agreementLevel := 1.0; confidence := 1.0;
              dissentingOpinions := [] |}, r0, (text r0).
    split; [reflexivity|]. split; [reflexivity|]. split; [exact Hr0|].
    cbv zeta. specialize (Hq (text r0)). cbn [map count_occ length] in Hq |- *.
    destruct (string_dec (text r0) (text r0)); [|contradiction].
    cbn [List.filter]. rewrite String.eqb_refl.
    split; [exists [], []; repeat split; intros ? []|].
    split; [reflexivity|]. split; [exact Hq|]. split; reflexivity.
  - destruct (mostCommon_first_most r0 (r1 :: rs) Hs) as (k & v & Hc & Hm & _ & Hv & Hk).
    unfold applyConsensus. rewrite Hc, Hm.
    rewrite (dissenting_filter v k) by (first [exact Hv | intros r Hr; exact (proj1 (Hs r Hr))]).
    eexists _, v, k. split; [reflexivity|]. split; [reflexivity|]. split; [exact Hv|].
    cbv zeta. split; [exact Hk|]. split; [reflexivity|]. split; [exact (Hq k)|].
    split; reflexivity.
Qed.

End Consensus.

(** ** Intelligent selection *)

Local Open Scope float_scope.

Section Select.
Variable s : Manager.state.
Variable task : Manager.SwarmTask.

#[local] Abbreviation f := (intelligentScore s task).

Lemma collectScores_registered ids : forall acc,
  (forall id, In id ids -> registered s id) ->
  fold_left
    (fun scores agentId =>
       match agents s !! agentId, agentNetworks s !! agentId with
       | Some agent, Some network => Js.map_set agentId (agentScore agent network task) scores
       | _, _ => scores
       end) ids acc =
  fold_left (fun m k => Js.map_set k (f k) m) ids acc.
Proof.
  induction ids as [|id ids IH]; intros acc Hr; simpl; [reflexivity|].
  rewrite IH by (intros; apply Hr; now right). f_equal.
  destruct (Hr id (or_introl eq_refl)) as [[a Ha] [n Hn]].
  unfold intelligentScore. now rewrite Ha, Hn.
Qed.

Lemma code_scan_pick l : forall best maxScore,
  fst (fold_left
         (fun '(bestAgent, maxScore) '(agentId, score) =>
            if Js.gt score maxScore then (agentId, score) else (bestAgent, maxScore))
         l (best, maxScore)) =
  snd (fold_left (pick PrimFloat.ltb (fun k => k)) l (maxScore, best)).
Proof.
  induction l as [|[k v] l IH]; intros best m; simpl; [reflexivity|].
  unfold pick at 2, Js.gt. simpl. destruct (m <? v); apply IH.
Qed.

Lemma pick_scan_reduce rest : forall best m,
  same_order m (f best) ->
  snd (fold_left (pick PrimFloat.ltb (fun k => k)) (listed f rest) (m, best)) =
  fold_left (fun best cur => if Js.gt (f cur) (f best) then cur else best) rest best.
Proof.
  induction rest as [|x rest IH]; intros best m Hm; simpl; [reflexivity|].
  unfold pick at 2, Js.gt. simpl. rewrite (Hm (f x)).
  destruct (f best <? f x); apply IH; [intros v; reflexivity | assumption].
Qed.

Lemma includes_in capabilities cap :
  includes capabilities cap = if in_dec string_dec cap capabilities then true else false.
Proof.
  unfold includes. destruct (in_dec string_dec cap capabilities) as [Hin|Hout].
  - apply existsb_exists. exists cap. split; [exact Hin | apply String.eqb_refl].
  - apply not_true_is_false. intros H. apply existsb_exists in H.
    destruct H as (x & Hx & E). apply String.eqb_eq in E. subst x. contradiction.
Qed.

Lemma slice_last_entries {A} n (l : list A) : Js.slice_last n l = last_entries n l.
Proof.
  unfold Js.slice_last, last_entries. rewrite firstn_rev, rev_involutive.
  reflexivity.
Qed.

Lemma slice_last_nil {A} (l : list A) : Js.slice_last 10 l = [] -> l = [].
Proof.
  unfold Js.slice_last. intros H. apply (f_equal (@length A)) in H.
  rewrite length_skipn in H. cbn [length] in H.
  destruct l as [|x l]; [reflexivity|]. cbn [length] in H. lia.
Qed.

Lemma mean_fold {A} (f : A -> float) (l : list A) :
  fold_left (fun sum p => sum + f p) l 0 / Js.of_nat (length l) = mean (map f l).
Proof.
  unfold mean. rewrite length_map. f_equal.
  generalize 0. induction l as [|x l IH]; intros acc; [reflexivity|]. apply IH.
Qed.

(** The score the code computes is the point score. *)
Lemma agentScore_points agent network :
  agentScore agent network task = pointScore agent network task.
Proof.
  unfold agentScore, pointScore.
  rewrite (filter_ext _ _ (includes_in (availableCapabilities agent))).
  pose proof (slice_last_nil (performanceHistory agent)) as Hnil.
  rewrite <- !slice_last_entries.
  destruct (Js.slice_last 10 (performanceHistory agent)) as [|p recent] eqn:E.
  - now rewrite (Hnil eq_refl).
  - rewrite !mean_fold.
    destruct (performanceHistory agent); [discriminate E | reflexivity].
Qed.

Lemma intelligentScore_points id : intelligentScore s task id = points s task id.
Proof.
  unfold intelligentScore, points.
  destruct (agents s !! id); [|reflexivity].
  destruct (agentNetworks s !! id); [apply agentScore_points | reflexivity].
Qed.

(** C4 (amended).  For a non-empty list of registered agents whose scores are
    not NaN, the intelligent strategy returns the earliest agent of maximal
    point score, the score being
    [40 * matches/required + 20 * meanAccuracy/10 + max(0, 10 - meanTime/1000)
     + 20 * centrality + 10 * trust/100]
    with the means taken over the last 10 history entries, and the two history
    terms being absent on an empty history. *)
Theorem select_intelligently_first_max ids :
  ids <> [] ->
  (forall id, In id ids -> registered s id) ->
  scores_defined (points s task) ids ->
  exists best,
    selectIntelligently s ids task = Js.Returned best /\
    first_max (points s task) ids best.
Proof.
  intros Hne Hr Hd.
  assert (Hd' : scores_defined f ids).
  { intros id Hid. rewrite intelligentScore_points. now apply Hd. }
  assert (Hf : exists best,
            selectIntelligently s ids task = Js.Returned best /\ first_max f ids best).
  { destruct ids as [|first rest]; [contradiction|].
    eexists. split; [reflexivity|].
    unfold collectScores. rewrite collectScores_registered by assumption.
    fold (entries f (first :: rest)).
    rewrite entries_get. destruct (in_dec string_dec first (first :: rest)) as [_|n];
      [|exfalso; apply n; now left].
    rewrite code_scan_pick.
    rewrite (scan_entries PrimFloat.ltb (fun k => k) f F64.ltb_trans F64.ltb_irrefl).
    assert (Hn : is_nan (f first) = false) by (apply Hd'; now left).
    pose proof (or_else_same_order (f first) Hn) as Hm.
    set (m0 := Js.or_else (Some (f first)) 0) in *.
    change (listed f (first :: rest)) with ((first, f first) :: listed f rest).
    cbn [fold_left]. unfold pick at 2. cbn [fst snd].
    rewrite (Hm (f first)), F64.ltb_irrefl.
    rewrite (pick_scan_reduce rest first m0 Hm).
    now apply (JsFacts.reduce_first_max f). }
  destruct Hf as (best & Hbest & before & after & Hsplit & Hb & Ha).
  exists best. split; [exact Hbest|]. exists before, after.
  split; [exact Hsplit|]. rewrite <- !intelligentScore_points.
  split; intros y Hy; rewrite <- intelligentScore_points; auto.
Qed.

End Select.

(** ** Concrete runs *)

Import Sample.
Local Open Scope string_scope.

(** The scenario of the specification, evaluated: over [X, X, Y] the winner
    is [X], the agreement level is 2/3, the binary64 number
    [0.6666666666666666], and [Y] dissents. *)
Lemma consensus_scenario :
  applyConsensus (option string) stringify parse [Some "X"; Some "X"; Some "Y"] =
  Js.Returned {| decision := Some (Some "X");
                 agreementLevel := 0.6666666666666666;
                 confidence := 0.6666666666666666;
                 dissentingOpinions := [Some "Y"] |}.
Proof. reflexivity. Qed.

(** C2, as stated, fails on a result without a JSON text: over
    [undefined, X, X] the first key of the map is [undefined], its count
    exceeds the initial maximum, and [JSON.parse(undefined)] throws, although
    [X] is the most frequent result.  (With [undefined] last the call
    returns; with [undefined] twice after [X] it throws again, the count of
    the key [undefined] being the larger one.) *)
Lemma consensus_undefined_result_counterexample :
  applyConsensus (option string) stringify parse [None; Some "X"; Some "X"] =
    Js.Thrown (Js.SyntaxError (quoted "undefined" ++ " is not valid JSON")) /\
  countResults (option string) stringify [None; Some "X"; Some "X"] =
    Js.Returned [(None, 1%nat); (Some (quoted "X"), 2%nat)] /\
  applyConsensus (option string) stringify parse [Some "X"; Some "X"; None] =
    Js.Returned {| decision := Some (Some "X");
                   agreementLevel := 0.6666666666666666;
                   confidence := 0.6666666666666666;
                   dissentingOpinions := [None] |} /\
  countResults (option string) stringify [Some "X"; None; None] =
    Js.Returned [(Some (quoted "X"), 1%nat); (None, 2%nat)] /\
  applyConsensus (option string) stringify parse [Some "X"; None; None] =
    Js.Thrown (Js.SyntaxError (quoted "undefined" ++ " is not valid JSON")).
Proof. repeat split. Qed.

(** C2 (amended) on the scenario of the specification. *)
Lemma consensus_majority_witness :
  let results := [Some "X"; Some "X"; Some "Y"] in
  let keys := map text results in
  let count := count_occ string_dec keys in
  results <> [] /\
  serializable stringify parse text results /\
  exists c d k,
    applyConsensus (option string) stringify parse results = Js.Returned c /\
    decision (option string) c = Some d /\
    stringify d = Js.Returned (Some k) /\
    first_most count keys k /\
    agreementLevel (option string) c = Js.of_nat (count k) / Js.of_nat (length results) /\
    ((Z.of_nat (length results) < 2 ^ 63)%Z ->
     Prim2SF (agreementLevel (option string) c) =
       SFdiv prec emax (nearest (count k)) (nearest (length results))) /\
    confidence (option string) c = agreementLevel (option string) c /\
    dissentingOpinions (option string) c =
      List.filter (fun r => negb (String.eqb (text r) k)) results.
Proof.
  cbv zeta.
  assert (Hne : [Some "X"; Some "X"; Some "Y"] <> []) by discriminate.
  assert (Hs : serializable stringify parse text [Some "X"; Some "X"; Some "Y"]).
  { intros r [<-|[<-|[<-|[]]]]; (split; [reflexivity|]); eexists; split; reflexivity. }
  split; [exact Hne|]. split; [exact Hs|].
  exact (consensus_majority (option string) stringify parse text
           [Some "X"; Some "X"; Some "Y"] Hne Hs).
Defined.

(** C4, as stated, fails: with the claim's weight of 0.10 on the speed term
    the fast agent [B] has the larger score, but the code adds the speed term
    unscaled, ranks the central agent [A] first and returns it. *)
Lemma select_intelligently_weights_counterexample :
  selectIntelligently swarm ["A"; "B"] task = Js.Returned "A" /\
  (intelligentScore swarm task "B" <? intelligentScore swarm task "A")%float = true /\
  (claimedScore (agent ["x"] 10000 0) {| centrality := 1.0 |} task <?
   claimedScore (agent ["x"] 0 0) {| centrality := 0.3 |} task)%float = true.
Proof. repeat split. Qed.

(** The points of the sample team, as numbers: [C] has one of the two
    capabilities (20 points), a mean accuracy of 8 over its last ten entries
    (16 points) and a mean time of two seconds (8 points), centrality 0.5 (10
    points) and trust 80 (8 points); [D] has both capabilities and no
    history. *)
Lemma team_points :
  points team teamTask "C" = 62 /\ points team teamTask "D" = 50 /\
  intelligentScore team teamTask "C" = 62 /\ intelligentScore team teamTask "D" = 50.
Proof. repeat split. Qed.

(** The amended C4 on the sample team. *)
Lemma select_intelligently_first_max_witness :
  let ids := ["D"; "C"] in
  ids <> [] /\
  (forall id, In id ids -> registered team id) /\
  scores_defined (points team teamTask) ids /\
  selectIntelligently team ids teamTask = Js.Returned "C" /\
  exists best,
    selectIntelligently team ids teamTask = Js.Returned best /\
    first_max (points team teamTask) ids best.
Proof.
  cbv zeta.
  assert (Hne : ["D"; "C"] <> []) by discriminate.
  assert (Hr : forall id, In id ["D"; "C"] -> registered team id).
  { intros id [<-|[<-|[]]]; split; eexists; reflexivity. }
  assert (Hd : scores_defined (points team teamTask) ["D"; "C"]).
  { intros id [<-|[<-|[]]]; reflexivity. }
  split; [exact Hne|]. split; [exact Hr|]. split; [exact Hd|]. split; [reflexivity|].
  exact (select_intelligently_first_max team teamTask ["D"; "C"] Hne Hr Hd).
Defined.

End ManagerProps.

(* ===================================================================== *)
(** * Part V: further facts about binary64 and about lists *)
(* ===================================================================== *)

(** ** Signs of products, sums and differences *)

Module Signs.
Import SF Round Sub Bounds Spec Notions.
Local Open Scope Z_scope.

Lemma SFleb_zero x : SFleb (S754_zero false) x = true <-> nonneg x.
Proof. destruct x as [[]|[]| |[] ? ?]; simpl; intuition discriminate. Qed.

Lemma SFmul_nonneg x y :
  nonneg x -> nonneg y -> nanb (SF64mul x y) = false -> nonneg (SF64mul x y).
Proof.
  destruct x as [sx|[]| |[] mx ex]; destruct y as [sy|[]| |[] my ey];
    simpl; try tauto; try discriminate; intros _ _ _.
  pose proof (binary_round_aux_cases (xorb false false) (Zpos (mx * my)) (ex + ey)
                SpecFloat.loc_Exact ltac:(lia)) as H.
  fold (SFmul prec emax (S754_finite false mx ex) (S754_finite false my ey)).
  unfold SFmul.
  destruct (binary_round_aux _ _ _ _ _ _) as [?|?| |? ? ?]; simpl in *; try tauto;
    destruct H as [-> _]; exact I.
Qed.

Lemma SFadd_nonneg x y :
  valid_binary x = true -> valid_binary y = true ->
  nonneg x -> nonneg y -> nonneg (SF64add x y).
Proof.
  intros Vx Vy Hx Hy.
  destruct x as [sx|[]| |[] mx ex]; destruct y as [sy|[]| |[] my ey];
    simpl in Hx, Hy; try contradiction; try exact I.
  - destruct sx, sy; exact I.
  - apply valid_canonical in Vx, Vy.
    unfold SF64add, SFadd. cbv zeta.
    destruct (shl_align_val mx ex (Z.min ex ey)) as [-> _]; [lia|].
    destruct (shl_align_val my ey (Z.min ex ey)) as [-> _]; [lia|].
    simpl cond_Zopp.
    set (D := Zpos mx * 2 ^ (ex - Z.min ex ey) + Zpos my * 2 ^ (ey - Z.min ex ey)).
    assert (HD : 0 < D).
    { assert (0 < 2 ^ (ex - Z.min ex ey)) by (apply Z.pow_pos_nonneg; lia).
      assert (0 < 2 ^ (ey - Z.min ex ey)) by (apply Z.pow_pos_nonneg; lia).
      unfold D. nia. }
    pose proof (binary_normalize_sign D (Z.min ex ey)) as H.
    apply canonical_emin in Vx, Vy.
    rewrite (proj2 (Z.compare_gt_iff D 0)) in H by lia.
    specialize (H ltac:(lia)).
    destruct (binary_normalize _ _ _ _ _) as [?|[]| |[] ? ?]; simpl in *;
      try tauto; discriminate.
Qed.

(** The difference of two finite numbers is a number. *)
Lemma SFsub_not_nan x y B1 B2 :
  valid_binary x = true -> valid_binary y = true ->
  below B1 x -> below B2 y -> nanb (SF64sub x y) = false.
Proof.
  intros Vx Vy Hx Hy.
  destruct x as [sx|[]| |sx mx ex]; destruct y as [sy|[]| |sy my ey];
    simpl in Hx, Hy; try contradiction; try reflexivity.
  - destruct sx, sy; reflexivity.
  - apply valid_canonical in Vx, Vy.
    pose proof (SFsub_finite_sign sx mx ex sy my ey Vx Vy) as H.
    destruct (SFcompare _ _) as [[]|]; try contradiction.
    + now rewrite H.
    + now destruct (SF64sub _ _).
    + now destruct (SF64sub _ _).
Qed.

End Signs.

Module F64Signs.
Import SF Spec Notions Signs.
Local Open Scope float_scope.

Lemma leb_zero x : (0 <=? x) = true <-> nonneg (Prim2SF x).
Proof. rewrite FloatAxioms.leb_spec. apply SFleb_zero. Qed.

Lemma mul_nonneg x y :
  (0 <=? x) = true -> (0 <=? y) = true -> is_nan (x * y) = false -> (0 <=? x * y) = true.
Proof.
  rewrite !leb_zero, F64.is_nan_spec, FloatAxioms.mul_spec. apply SFmul_nonneg.
Qed.

Lemma add_nonneg x y : (0 <=? x) = true -> (0 <=? y) = true -> (0 <=? x + y) = true.
Proof.
  rewrite !leb_zero, FloatAxioms.add_spec. apply SFadd_nonneg; apply Prim2SF_valid.
Qed.

Lemma sub_not_nan x y B1 B2 :
  finite_below B1 x -> finite_below B2 y -> is_nan (x - y) = false.
Proof.
  unfold finite_below. rewrite F64.is_nan_spec, FloatAxioms.sub_spec.
  apply SFsub_not_nan; apply Prim2SF_valid.
Qed.

Lemma sub_nonneg x y :
  (y <=? x) = true -> is_nan (x - y) = false -> (0 <=? x - y) = true.
Proof.
  intros Hle Hn. apply F64.leb_total; [assumption|reflexivity|].
  rewrite F64.sub_ltb_zero. now apply F64.leb_ltb_false.
Qed.

Lemma mul_nan_l x y : is_nan x = true -> is_nan (x * y) = true.
Proof.
  rewrite !F64.is_nan_spec, FloatAxioms.mul_spec.
  destruct (Prim2SF x); try discriminate. intros _.
  now destruct (Prim2SF y).
Qed.

Lemma add_nan_r x y : is_nan y = true -> is_nan (x + y) = true.
Proof.
  rewrite !F64.is_nan_spec, FloatAxioms.add_spec.
  destruct (Prim2SF y); try discriminate. intros _.
  now destruct (Prim2SF x).
Qed.

(** No number is at most NaN. *)
Lemma leb_nan x y : is_nan y = true -> (x <=? y) = false.
Proof.
  rewrite F64.is_nan_spec, FloatAxioms.leb_spec.
  destruct (Prim2SF y); try discriminate. intros _.
  now destruct (Prim2SF x) as [[]|[]| |[] ? ?].
Qed.

Lemma zero_leb_zero x : is_zero x = true -> (x <=? 0) = true.
Proof.
  unfold is_zero. rewrite FloatAxioms.eqb_spec, FloatAxioms.leb_spec.
  change (Prim2SF 0) with (S754_zero false).
  now destruct (Prim2SF x) as [[]|[]| |[] ? ?].
Qed.

(** A number within a positive range is truthy, finite and not zero. *)
Lemma within_truthy lo hi x : (0 <? lo) = true -> within lo hi x -> Js.truthy x = true.
Proof.
  intros Hlo [Hx _]. pose proof (F64.ltb_leb_trans _ _ _ Hlo Hx) as H.
  unfold Js.truthy. destruct (F64.ltb_not_nan _ _ H) as [_ ->]. simpl.
  unfold is_zero. rewrite FloatAxioms.eqb_spec. rewrite FloatAxioms.ltb_spec in H.
  change (Prim2SF 0) with (S754_zero false) in *.
  now destruct (Prim2SF x) as [[]|[]| |[] ? ?].
Qed.

Lemma within_finite lo hi x B :
  (0 <? lo) = true -> within lo hi x -> finite_below B hi ->
  match Prim2SF x with S754_finite _ _ _ => True | _ => False end.
Proof.
  intros Hlo [H1 H2] Hh. pose proof (F64.ltb_leb_trans _ _ _ Hlo H1) as Hp.
  unfold finite_below in Hh.
  rewrite FloatAxioms.ltb_spec in Hp. rewrite FloatAxioms.leb_spec in H2.
  change (Prim2SF 0) with (S754_zero false) in Hp.
  destruct (Prim2SF x) as [[]|[]| |[] ? ?]; try discriminate; try exact I.
  destruct (Prim2SF hi) as [[]|[]| |[] ? ?]; simpl in *; try contradiction; discriminate.
Qed.

(** [Math.min(x, hi)] of a number [x] with [lo <= x] and [lo <= hi] lies
    within [lo .. hi]. *)
Lemma math_min_within lo hi x :
  (lo <=? x) = true -> (lo <=? hi) = true ->
  within lo hi (Js.math_min x hi).
Proof.
  intros Hx Hh.
  destruct (F64.leb_not_nan _ _ Hx) as [_ Nx]. destruct (F64.leb_not_nan _ _ Hh) as [_ Nh].
  unfold Js.math_min, within. rewrite Nx, Nh. simpl.
  destruct (x <? hi) eqn:E1; [split; [assumption | now apply F64.ltb_leb]|].
  destruct (hi <? x) eqn:E2; [split; [assumption | now apply F64.leb_refl]|].
  destruct (get_sign x); split; try assumption.
  - now apply F64.leb_total.
  - now apply F64.leb_refl.
Qed.

(** *** Small numbers *)

Lemma mul_small x y B1 B2 :
  small B1 x -> small B2 y -> (B1 + B2 + 54 <= 971)%Z ->
  small (Z.max (B1 + B2 + 54) (-1074)) (x * y).
Proof.
  intros [Bx Nx] [By Ny] H. pose proof (F64.mul_below _ _ _ _ Bx By H) as Hb.
  split; [assumption|]. apply mul_nonneg; try assumption.
  now apply F64.below_not_nan in Hb.
Qed.

Lemma add_small x y B1 B2 :
  small B1 x -> small B2 y -> (Z.max B1 B2 + 2 <= 971)%Z ->
  small (Z.max (Z.max B1 B2 + 2) (-1074)) (x + y).
Proof.
  intros [Bx Nx] [By Ny] H. split; [now apply F64.add_below | now apply add_nonneg].
Qed.

Lemma small_mono B B' x : (B <= B')%Z -> small B x -> small B' x.
Proof. intros H [H1 H2]. split; [now apply (F64.below_mono B) | assumption]. Qed.

Lemma within_small lo hi x B :
  (0 <=? lo) = true -> within lo hi x -> finite_below B lo -> finite_below B hi -> small B x.
Proof.
  intros H0 Hw Hl Hh. split; [now apply (F64.within_below lo hi)|].
  destruct Hw as [Hw _]. now apply F64.leb_trans with lo.
Qed.

(** [x || 0] keeps what is small small, and keeps the order of numbers that
    are not negative. *)
Lemma or_zero_small B x : small B x -> small B (Js.or_else (Some x) 0).
Proof.
  intros H. unfold Js.or_else. destruct (Js.truthy x); [assumption|].
  split; [|reflexivity]. unfold finite_below.
  change (Prim2SF 0) with (S754_zero false). exact I.
Qed.

Lemma or_zero_mono x y :
  is_nan x = false -> is_nan y = false -> (0 <=? x) = true -> (x <=? y) = true ->
  (Js.or_else (Some x) 0 <=? Js.or_else (Some y) 0) = true.
Proof.
  intros Nx Ny H0 Hxy. unfold Js.or_else, Js.truthy. rewrite Nx, Ny. simpl.
  destruct (is_zero x) eqn:Zx; destruct (is_zero y) eqn:Zy; simpl.
  - reflexivity.
  - now apply F64.leb_trans with x.
  - apply F64.leb_trans with y; [assumption | now apply zero_leb_zero].
  - assumption.
Qed.

(** *** Whole parts *)

(** The whole part of a small number that is not negative: the number
    itself when it is a zero, and else a whole number below a power of two. *)
Lemma math_floor_small x B :
  finite_below B x -> (-53 <= B < 0)%Z -> (0 <=? x) = true ->
  (exists s, Prim2SF x = S754_zero s /\ JsMore.math_floor x = x) \/
  (exists q, (0 <= q < 2 ^ (53 + B))%Z /\ JsMore.math_floor x = JsMore.of_Z q).
Proof.
  unfold finite_below. rewrite leb_zero. intros Hb HB Hn.
  pose proof (Prim2SF_valid x) as V. unfold JsMore.math_floor.
  destruct (Prim2SF x) as [s|[]| |[] m e]; simpl in Hb, Hn; try contradiction.
  - left. now exists s.
  - right. apply Sub.valid_canonical, Bounds.canonical_digits in V.
    destruct (Z.leb_spec 0 e) as [|_]; [lia|].
    exists (Z.shiftr (Zpos m) (- e)). split; [|reflexivity].
    rewrite Z.shiftr_div_pow2 by lia.
    pose proof (Round.Zdigits2_bounds m) as [_ Hm].
    assert (Hm' : (Zpos m < 2 ^ 53)%Z).
    { eapply Z.lt_le_trans; [exact Hm|]. apply Z.pow_le_mono_r; lia. }
    split; [apply Z.div_pos; [lia | apply Z.pow_pos_nonneg; lia]|].
    apply Z.div_lt_upper_bound; [apply Z.pow_pos_nonneg; lia|].
    rewrite <- Z.pow_add_r by lia.
    eapply Z.lt_le_trans; [exact Hm'|]. apply Z.pow_le_mono_r; lia.
Qed.

(** A property checked on every whole number below [n] holds of each. *)
Lemma checked_below (P : Z -> bool) (n : nat) :
  forallb P (map Z.of_nat (seq 0 n)) = true ->
  forall q, (0 <= q < Z.of_nat n)%Z -> P q = true.
Proof.
  intros H q Hq. rewrite forallb_forall in H. apply H.
  apply in_map_iff. exists (Z.to_nat q). split; [lia|]. apply in_seq. lia.
Qed.

(** [Math.floor(r * scale) + base] for a draw [r] in [0 .. 1], with the
    scales and bases of [collectAgentBids]: a number of at least [base]. *)
Lemma scaled_draw_at_least (scale base : float) r :
  finite_below (-46) scale -> (0 <=? scale) = true ->
  forallb (fun q => base <=? JsMore.of_Z q + base) (map Z.of_nat (seq 0 512)) = true ->
  (base <=? -0 + base) = true ->
  (0 <=? r) = true -> (r <=? 1) = true ->
  (base <=? JsMore.math_floor (r * scale) + base) = true.
Proof.
  intros Hs Hs0 Hall Hneg H0 H1.
  assert (Hr : finite_below (-52) r).
  { apply (F64.within_below 0 1); [now split| |]; vm_compute; try exact I; intro; discriminate. }
  pose proof (F64.mul_below _ _ _ _ Hr Hs ltac:(lia)) as Hx.
  change (Z.max (-52 + -46 + 54) (-1074)) with (-44)%Z in Hx.
  pose proof (mul_nonneg _ _ H0 Hs0 (F64.below_not_nan _ _ Hx)) as Hp.
  destruct (math_floor_small _ _ Hx ltac:(lia) Hp) as [(s & Hz & ->)|(q & Hq & ->)].
  - rewrite <- (SF2Prim_Prim2SF (r * scale)), Hz.
    destruct s; [exact Hneg|].
    change (SF2Prim (S754_zero false)) with (JsMore.of_Z 0).
    apply (checked_below _ 512 Hall 0%Z). lia.
  - apply (checked_below _ 512 Hall q). change (Z.of_nat 512) with (2 ^ (53 + -44))%Z. lia.
Qed.

End F64Signs.

(** ** Lists *)

Module ListFacts.
Import Spec.
Local Open Scope string_scope.

(** The earliest element of maximal score is one position of the list. *)
Lemma first_max_unique {A} (score : A -> float) l x y :
  first_max score l x -> first_max score l y -> x = y.
Proof.
  intros (b1 & a1 & -> & B1 & A1) (b2 & a2 & E & B2 & A2).
  apply app_eq_app in E. destruct E as (l & [[-> E]|[-> E]]).
  - destruct l as [|z l]; [now injection E|]. injection E as <- ->.
    assert (H1 : (score y <? score x)%float = true).
    { apply B1. apply in_or_app. right. now left. }
    assert (H2 : (score x <=? score y)%float = true).
    { apply A2. apply in_or_app. right. now left. }
    apply F64.leb_ltb_false in H2. congruence.
  - destruct l as [|z l]; [now injection E|]. injection E as <- ->.
    assert (H1 : (score x <? score y)%float = true).
    { apply B2. apply in_or_app. right. now left. }
    assert (H2 : (score y <=? score x)%float = true).
    { apply A1. apply in_or_app. right. now left. }
    apply F64.leb_ltb_false in H2. congruence.
Qed.

Lemma remove_dups_length (l : list string) : length (remove_dups l) <= length l.
Proof.
  induction l as [|x l IH]; [reflexivity|]. cbn [remove_dups].
  destruct (decide_rel elem_of x l); cbn [length]; lia.
Qed.

(** [s.split(sep)[0]] is a prefix of [s] that holds no separator. *)
Lemma split_head_spec sep s :
  String.prefix (Js.split_head sep s) s = true /\
  Js.includes (String sep EmptyString) (Js.split_head sep s) = false.
Proof.
  induction s as [|c s [IH1 IH2]]; [split; reflexivity|].
  cbn [Js.split_head]. destruct (Ascii.eqb_spec c sep) as [->|Hne]; [split; reflexivity|].
  split.
  - cbn. destruct (ascii_dec c c); [assumption|contradiction].
  - cbn [Js.includes String.prefix]. rewrite IH2.
    destruct (ascii_dec sep c) as [->|_]; [contradiction|reflexivity].
Qed.

(** What [simulateReview] writes as feedback says whether it approved. *)
Lemma reviews_feedback (reviews : list Review.t) :
  (forall r, In r reviews ->
     Review.feedback r =
     if Review.approved r then "Approved with minor suggestions"
     else "Requires cultural adaptation") ->
  List.filter (fun r => negb (String.eqb (Review.feedback r) "")) reviews = reviews /\
  count_occ string_dec (map Review.feedback reviews) "Approved with minor suggestions"
    = length (List.filter Review.approved reviews) /\
  (forall f, In f (map Review.feedback reviews) ->
     f = "Approved with minor suggestions" \/ f = "Requires cultural adaptation").
Proof.
  induction reviews as [|r reviews IH]; intros H.
  - repeat split. intros f [].
  - destruct IH as (IH1 & IH2 & IH3); [intros r' Hr'; apply H; now right|].
    pose proof (H r (or_introl eq_refl)) as Hr.
    cbn [List.filter map count_occ]. rewrite Hr, IH1, IH2.
    destruct (Review.approved r); cbn; repeat split; auto;
      intros f [<-|Hf]; auto.
Qed.

End ListFacts.
(* ===================================================================== *)
(** * Part VI: the engine at its edges *)
(* ===================================================================== *)

Module EngineEdges.
Import Spec Notions Engine EngineProps F64Signs ListFacts.
Local Open Scope string_scope.

(** ** Auctions *)

Ltac const_small := split; [const_below | reflexivity].

(** On a bid of the data model the composite score is finite and not
    negative. *)
Lemma composite_score_small s bid culturalContext :
  bid_in_model bid -> expertise_in_range s -> weights_in_range s ->
  small 971 (calculateCompositeScore s bid culturalContext).
Proof.
  intros (Hc & He & Hr & Ht & Hk) Hexp Hwt. unfold calculateCompositeScore.
  assert (B01 : forall x, within 0 1 x -> small (-52) x).
  { intros x Hx. apply (within_small 0 1); [reflexivity | assumption | const_below | const_below]. }
  assert (Brecip : forall t, (1e-290 <=? t)%float = true -> small 965 (1 / t)).
  { intros t Hle. split.
    - assert (Ha : exponent_above (-1016) t).
      { apply (F64.leb_above 1e-290); [assumption|]. vm_compute. intro; discriminate. }
      assert (H1 : finite_below (-52) 1) by const_below.
      pose proof (F64.div_below _ _ _ _ H1 Ha ltac:(lia)) as Hd.
      revert Hd. apply F64.below_mono. lia.
    - apply F64.recip_positive. apply F64.ltb_leb_trans with 1e-290%float; [reflexivity | assumption]. }
  pose proof (B01 _ Hc) as Bc. pose proof (B01 _ He) as Be. pose proof (B01 _ Hr) as Br.
  pose proof (Brecip _ Ht) as Bt. pose proof (Brecip _ Hk) as Bk.
  assert (Bw : small (-51) (culturalWeight s culturalContext 1.0)).
  { apply (within_small 0.5 2.0);
      [reflexivity | now apply culturalWeight_within | const_below | const_below]. }
  assert (Bx : small (-52) (expertiseOf s (AgentBid.agentId bid) 0.5)).
  { apply (within_small 0.1 1.0);
      [reflexivity | now apply expertiseOf_within | const_below | const_below]. }
  assert (K3 : small (-54) 0.3) by const_small.
  assert (K25 : small (-54) 0.25) by const_small.
  assert (K2 : small (-55) 0.2) by const_small.
  assert (K15 : small (-55) 0.15) by const_small.
  assert (K1 : small (-56) 0.1) by const_small.
  pose proof (mul_small _ _ _ _ Bc K3 ltac:(lia)) as T1.
  pose proof (mul_small _ _ _ _ Be K25 ltac:(lia)) as T2.
  pose proof (mul_small _ _ _ _ Br K2 ltac:(lia)) as T3a.
  pose proof (mul_small _ _ _ _ T3a Bw ltac:(lia)) as T3.
  pose proof (mul_small _ _ _ _ Bt K15 ltac:(lia)) as T4.
  pose proof (mul_small _ _ _ _ Bk K1 ltac:(lia)) as T5.
  pose proof (mul_small _ _ _ _ Bx K1 ltac:(lia)) as T6.
  pose proof (add_small _ _ _ _ T1 T2 ltac:(lia)) as S2.
  pose proof (add_small _ _ _ _ S2 T3 ltac:(lia)) as S3.
  pose proof (add_small _ _ _ _ S3 T4 ltac:(lia)) as S4.
  pose proof (add_small _ _ _ _ S4 T5 ltac:(lia)) as S5.
  pose proof (add_small _ _ _ _ S5 T6 ltac:(lia)) as S6.
  revert S6. apply small_mono. lia.
Qed.

(** The consensus score of a ranking whose scores are finite, not negative
    and in descending order lies between 0 and 1. *)
Lemma validateConsensus_within s (ranking : list scored) culturalContext :
  weights_in_range s ->
  (forall p, In p ranking -> small 971 (snd p)) ->
  descending snd ranking ->
  within 0 1 (validateConsensus s ranking culturalContext).
Proof.
  intros Hw Hs Hd. destruct ranking as [|top rest]; [split; reflexivity|].
  unfold validateConsensus. cbn [lookup list_lookup fmap option_fmap option_map].
  pose proof (Hs top (or_introl eq_refl)) as St.
  pose proof (or_zero_small _ _ St) as [Tb Tn].
  assert (Hsec : small 971 (Js.or_else (snd <$> rest !! 0%nat) 0) /\
                 (Js.or_else (snd <$> rest !! 0%nat) 0 <=? Js.or_else (Some (snd top)) 0)%float
                 = true).
  { destruct rest as [|second rest']; cbn.
    - split; [const_small | exact Tn].
    - pose proof (Hs second (or_intror (or_introl eq_refl))) as Ss.
      split; [now apply or_zero_small|].
      destruct Ss as [Sb Sn]. destruct St as [Tb' Tn'].
      apply or_zero_mono; try assumption;
        try (eapply F64.below_not_nan; eassumption).
      apply StronglySorted_inv in Hd. destruct Hd as [_ Hd].
      rewrite List.Forall_forall in Hd. apply Hd. now left. }
  destruct Hsec as [[Sb Sn] Hle].
  set (T := Js.or_else (Some (snd top)) 0) in *.
  set (S := Js.or_else (snd <$> rest !! 0%nat) 0) in *.
  pose proof (sub_not_nan _ _ _ _ Tb Sb) as Ng.
  pose proof (sub_nonneg _ _ Hle Ng) as Pg.
  pose proof (culturalWeight_within s culturalContext Hw) as Ww.
  assert (Na : is_nan ((T - S) * culturalWeight s culturalContext 1.0) = false).
  { apply F64.mul_not_nan; [assumption|].
    apply (within_finite 0.5 2.0 _ (-51)); [reflexivity | assumption | const_below]. }
  apply math_min_within; [|reflexivity].
  apply mul_nonneg; [assumption | | assumption].
  destruct Ww as [Ww _]. apply F64.leb_trans with 0.5%float; [reflexivity | assumption].
Qed.

Section Auction.
Variable numberToString : float -> string.

(** The result of an auction over at least one bid, field by field. *)
Lemma auction_result taskId first rest culturalContext s :
  let ranking :=
    Js.sort byScoreDesc
      (map (fun bid => (bid, calculateCompositeScore s bid culturalContext)) (first :: rest)) in
  exists r,
    auctionBasedAllocation numberToString taskId (first :: rest) culturalContext s
      = (Js.Returned r, s) /\
    ConsensusResult.consensusScore r = validateConsensus s ranking culturalContext /\
    ConsensusResult.selectedAgent r =
      match ranking with top :: _ => AgentBid.agentId (fst top) | [] => "default" end.
Proof.
  cbv zeta. eexists. split.
  - unfold auctionBasedAllocation, bind, read, ret. cbv beta iota zeta. reflexivity.
  - split; reflexivity.
Qed.

Lemma ranking_small bids culturalContext s :
  Forall bid_in_model bids -> expertise_in_range s -> weights_in_range s ->
  let ranking :=
    Js.sort byScoreDesc
      (map (fun bid => (bid, calculateCompositeScore s bid culturalContext)) bids) in
  (forall p, In p ranking -> small 971 (snd p)) /\ descending snd ranking.
Proof.
  intros Hb He Hw ranking. rewrite List.Forall_forall in Hb.
  assert (Hs : forall p,
    In p (map (fun bid => (bid, calculateCompositeScore s bid culturalContext)) bids) ->
    small 971 (snd p)).
  { intros p Hp. apply in_map_iff in Hp. destruct Hp as (b & <- & Hin).
    apply composite_score_small; auto. }
  split.
  - intros p Hp. apply Hs.
    now apply (Permutation_in _ (JsFacts.sort_permutation (@snd AgentBid.t float) _)).
  - apply (JsFacts.sort_descending (@snd AgentBid.t float)).
    intros p Hp. destruct (Hs p Hp) as [H _]. now apply (F64.below_not_nan 971).
Qed.

Lemma auction_score_within taskId bids culturalContext s :
  Forall bid_in_model bids -> expertise_in_range s -> weights_in_range s ->
  exists r,
    auctionBasedAllocation numberToString taskId bids culturalContext s = (Js.Returned r, s) /\
    within 0 1 (ConsensusResult.consensusScore r).
Proof.
  intros Hb He Hw. destruct bids as [|first rest].
  - eexists. split; [reflexivity|]. split; reflexivity.
  - destruct (auction_result taskId first rest culturalContext s) as (r & Hr & Hs & _).
    exists r. split; [assumption|]. rewrite Hs.
    destruct (ranking_small (first :: rest) culturalContext s Hb He Hw) as [H1 H2].
    now apply validateConsensus_within.
Qed.

(** On bids whose confidence, expertise and cultural relevance lie in
    [0 .. 1] and whose estimated time and resource cost are at least [1e-290]
    (so that no reciprocal overflows), with the learned tables in range, the
    consensus score an auction reports lies between 0 and 1, and so an
    expertise update fed with it keeps the selected agent's expertise within
    [0.1 .. 1.0].  (Below that bound the score can be NaN: see
    [auction_score_of_vanishing_times].) *)
Theorem auction_score_in_unit_interval taskId bids culturalContext s :
  Forall bid_in_model bids -> expertise_in_range s -> weights_in_range s ->
  exists r,
    auctionBasedAllocation numberToString taskId bids culturalContext s = (Js.Returned r, s) /\
    within 0 1 (ConsensusResult.consensusScore r) /\
    within 0.1 1.0
      (blendedExpertise s (ConsensusResult.selectedAgent r) (ConsensusResult.consensusScore r)).
Proof.
  intros Hb He Hw.
  destruct (auction_score_within taskId bids culturalContext s Hb He Hw) as (r & Hr & Hs).
  exists r. split; [assumption|]. split; [assumption|].
  apply blendedExpertise_within, expertise_blend_defined; [assumption|].
  now apply (JsFacts.within_not_nan 0 1).
Qed.

(** An auction over bids none of whose scores is NaN ranks the bids in
    descending order of score: it selects the agent of the first, generates
    the adaptations for that agent, and writes its minority reports on the
    runners-up, in their order: on those of the next three bids that score
    above 0.6. *)
Theorem auction_reports_the_runners_up taskId first rest culturalContext s :
  let score := fun bid => calculateCompositeScore s bid culturalContext in
  scores_defined score (first :: rest) ->
  exists r top others,
    auctionBasedAllocation numberToString taskId (first :: rest) culturalContext s
      = (Js.Returned r, s) /\
    Permutation (top :: others) (first :: rest) /\
    descending score (top :: others) /\
    ConsensusResult.selectedAgent r = AgentBid.agentId top /\
    ConsensusResult.culturalAdaptations r =
      Some (generateCulturalAdaptations s (AgentBid.agentId top) culturalContext) /\
    ConsensusResult.minorityReports r =
      map (fun bid => minorityReport numberToString (bid, score bid))
        (List.filter (fun bid => (0.6 <? score bid)%float) (firstn 3 others)).
Proof.
  intros score Hd.
  set (scored := fun bid : AgentBid.t => (bid, score bid)).
  pose proof (JsFacts.sort_permutation (@snd AgentBid.t float) (map scored (first :: rest)))
    as Hp.
  assert (Hds : scores_defined (@snd AgentBid.t float) (map scored (first :: rest))).
  { intros p Hin. apply in_map_iff in Hin. destruct Hin as (b & <- & Hb). now apply Hd. }
  pose proof (JsFacts.sort_descending (@snd AgentBid.t float) _ Hds) as Hs.
  change (by_desc snd) with (@byScoreDesc AgentBid.t) in Hp, Hs.
  assert (Hin : forall p,
    In p (Js.sort byScoreDesc (map scored (first :: rest))) -> p = scored (fst p)).
  { intros p Hp'. apply (Permutation_in _ Hp) in Hp'. apply in_map_iff in Hp'.
    now destruct Hp' as (b & <- & Hb). }
  unfold auctionBasedAllocation, bind, read, ret. cbv beta iota.
  change (map (fun bid => (bid, calculateCompositeScore s bid culturalContext)) (first :: rest))
    with (map scored (first :: rest)).
  destruct (Js.sort byScoreDesc (map scored (first :: rest))) as [|top sorted] eqn:Es.
  { apply Permutation_length in Hp. discriminate. }
  assert (Hfst : top :: sorted = map scored (map fst (top :: sorted))).
  { rewrite map_map. rewrite <- (map_id (top :: sorted)) at 1.
    apply map_ext_in. intros p Hp'. now apply Hin. }
  exists {| ConsensusResult.selectedAgent := AgentBid.agentId (fst top);
            ConsensusResult.consensusScore :=
              validateConsensus s (top :: sorted) culturalContext;
            ConsensusResult.minorityReports :=
              map (minorityReport numberToString)
                (List.filter (fun bid => Js.gt (snd bid) 0.6) (Js.slice 1 4 (top :: sorted)));
            ConsensusResult.culturalAdaptations :=
              Some (generateCulturalAdaptations s (AgentBid.agentId (fst top))
                      culturalContext) |},
    (fst top), (map fst sorted).
  split; [reflexivity|].
  cbn [ConsensusResult.selectedAgent ConsensusResult.culturalAdaptations
       ConsensusResult.minorityReports].
  split; [|split; [|split; [reflexivity|split; [reflexivity|]]]].
  - change (fst top :: map fst sorted) with (map fst (top :: sorted)).
    rewrite (Permutation_map fst Hp). rewrite map_map. cbn [fst scored].
    now rewrite map_id.
  - change (fst top :: map fst sorted) with (map fst (top :: sorted)).
    apply (JsFacts.descending_map fst (@snd AgentBid.t float) score); [|exact Hs].
    intros p Hp'. rewrite (Hin p Hp') at 1. reflexivity.
  - unfold Js.slice. change (skipn 1 (top :: sorted)) with sorted.
    change (4 - 1) with 3.
    assert (Hsorted : sorted = map scored (map fst sorted)).
    { cbn [map] in Hfst. now injection Hfst. }
    rewrite Hsorted at 1. rewrite firstn_map.
    generalize (firstn 3 (map fst sorted)). intros l.
    induction l as [|b l IH]; [reflexivity|].
    cbn [map List.filter]. unfold Js.gt at 1. cbn [snd scored].
    destruct (0.6 <? score b)%float; cbn [map]; now rewrite IH.
Qed.

End Auction.

(** ** Voting *)

(** A vote over at least one proposal. *)
Lemma vote_nonempty now p0 ps culturalContext e :
  exists d,
    expertiseWeightedVoting now (p0 :: ps) culturalContext e = (Js.Returned d, recorded e d) /\
    SwarmDecision.taskId d = "decision_" ++ pretty now /\
    SwarmDecision.participatingAgents d = map Proposal.agentId (p0 :: ps) /\
    SwarmDecision.culturalContext d = culturalContext /\
    (SwarmDecision.decision d = Js.Null \/
     exists p, In p (p0 :: ps) /\ SwarmDecision.decision d = Proposal.proposal p).
Proof.
  eexists. split.
  { unfold expertiseWeightedVoting, bind, read, update, ret. cbv beta iota zeta. reflexivity. }
  cbn [SwarmDecision.taskId SwarmDecision.participatingAgents SwarmDecision.culturalContext
       SwarmDecision.decision].
  repeat split.
  destruct (find _ (p0 :: ps)) as [p|] eqn:F; [|now left].
  destruct (Js.truthy_value (Proposal.proposal p)); [|now left].
  right. exists p. split; [|reflexivity]. now apply find_some in F.
Qed.

(** The vote an agent ends with is what the [votes] map holds for it. *)
Lemma collectVotes_get s culturalContext proposals agent :
  Js.map_get agent (collectVotes s culturalContext proposals) =
  finalVote s culturalContext proposals agent.
Proof.
  unfold collectVotes, finalVote.
  induction proposals as [|p ps IH] using rev_ind; [reflexivity|].
  rewrite fold_left_app, rev_app_distr. cbn [fold_left rev app find].
  rewrite MapFacts.map_get_set.
  destruct (String.eqb (Proposal.agentId p) agent); [reflexivity | exact IH].
Qed.

Lemma collectVotes_NoDup s culturalContext proposals :
  NoDup (map fst (collectVotes s culturalContext proposals)).
Proof.
  unfold collectVotes.
  induction proposals as [|p ps IH] using rev_ind; [apply NoDup_nil_2|].
  rewrite fold_left_app. cbn [fold_left]. now apply MapFacts.map_set_NoDup.
Qed.

Lemma map_get_of_entry {V} k (v : V) m :
  NoDup (map fst m) -> In (k, v) m -> Js.map_get k m = Some v.
Proof.
  induction m as [|[k0 v0] m IH]; intros Hnd Hin; [destruct Hin|].
  cbn [map fst] in Hnd. apply NoDup_cons in Hnd. destruct Hnd as [Hout Hnd].
  cbn [Js.map_get]. destruct Hin as [[= -> ->]|Hin].
  - now rewrite String.eqb_refl.
  - destruct (String.eqb_spec k0 k) as [->|_]; [|now apply IH].
    exfalso. apply Hout. apply list_elem_of_In. now apply (in_map fst) in Hin.
Qed.

(** The agent a vote over at least one proposal goes to: the first of the
    ranked votes, with the vote it ends with and the first of its proposals. *)
Lemma vote_winner now p0 ps culturalContext s :
  exists d winner weight sorted first,
    expertiseWeightedVoting now (p0 :: ps) culturalContext s = (Js.Returned d, recorded s d) /\
    SwarmDecision.participatingAgents d = map Proposal.agentId (p0 :: ps) /\
    Js.sort byScoreDesc (collectVotes s culturalContext (p0 :: ps))
      = (winner, weight) :: sorted /\
    finalVote s culturalContext (p0 :: ps) winner = Some weight /\
    find (fun p => String.eqb (Proposal.agentId p) winner) (p0 :: ps) = Some first /\
    SwarmDecision.decision d =
      if Js.truthy_value (Proposal.proposal first) then Proposal.proposal first else Js.Null.
Proof.
  set (votes := collectVotes s culturalContext (p0 :: ps)).
  destruct (JsFacts.sort_nonempty (@snd string float) votes) as (top & sorted & Hs).
  { intros E. pose proof (collectVotes_get s culturalContext (p0 :: ps) (Proposal.agentId p0))
      as G. fold votes in G. rewrite E in G. unfold finalVote in G.
    destruct (find _ (rev (p0 :: ps))) as [p|] eqn:F; [discriminate|].
    assert (Hp0 : In p0 (rev (p0 :: ps))) by (apply in_rev; rewrite rev_involutive; now left).
    pose proof (find_none _ _ F p0 Hp0) as C. cbn beta in C.
    rewrite String.eqb_refl in C. discriminate C. }
  assert (Hin : In top votes).
  { apply (Permutation_in _ (JsFacts.sort_permutation (@snd string float) votes)).
    rewrite Hs. now left. }
  destruct top as [winner weight].
  assert (Hw : finalVote s culturalContext (p0 :: ps) winner = Some weight).
  { rewrite <- collectVotes_get. apply map_get_of_entry; [apply collectVotes_NoDup | exact Hin]. }
  assert (Hfirst : exists first,
            find (fun p => String.eqb (Proposal.agentId p) winner) (p0 :: ps) = Some first).
  { unfold finalVote in Hw.
    destruct (find _ (rev (p0 :: ps))) as [p|] eqn:F; [|discriminate].
    apply find_some in F. destruct F as [Fin Feq]. apply in_rev in Fin.
    destruct (find (fun p => String.eqb (Proposal.agentId p) winner) (p0 :: ps))
      as [first|] eqn:G; [now exists first|].
    rewrite (find_none _ _ G p Fin) in Feq. discriminate. }
  destruct Hfirst as (first & Hfirst).
  change (by_desc snd) with (@byScoreDesc string) in Hs.
  eexists _, winner, weight, sorted, first. split.
  { unfold expertiseWeightedVoting, bind, read, update, ret. cbv beta iota zeta.
    fold votes. rewrite Hs. cbn [fst snd]. rewrite Hfirst. reflexivity. }
  cbn [SwarmDecision.participatingAgents SwarmDecision.decision].
  split; [reflexivity|]. split; [exact Hs|]. split; [exact Hw|]. split; [exact Hfirst|].
  reflexivity.
Qed.

(** A vote without a proposal returns the empty decision and records
    nothing.  A vote over proposals whose weights are not NaN returns,
    records that one decision and lists every proposer as a participant; an
    agent that proposes more than once votes with the weight of its last
    proposal; the vote goes to an agent whose vote no other vote exceeds,
    and the decision is the first proposal of that agent, or [null] when that
    proposal is falsy. *)
Theorem voting_decides_among_proposals now proposals culturalContext s :
  scores_defined (adjustedWeight s culturalContext) proposals ->
  exists d,
    expertiseWeightedVoting now proposals culturalContext s =
      (Js.Returned d, match proposals with [] => s | _ => recorded s d end) /\
    SwarmDecision.taskId d = "decision_" ++ pretty now /\
    SwarmDecision.participatingAgents d = map Proposal.agentId proposals /\
    SwarmDecision.culturalContext d = culturalContext /\
    (SwarmDecision.decision d = Js.Null \/
     exists p, In p proposals /\ SwarmDecision.decision d = Proposal.proposal p) /\
    (proposals = [] ->
     SwarmDecision.decision d = Js.Null /\ SwarmDecision.confidence d = 0%float) /\
    (proposals <> [] ->
     exists winner weight first,
       finalVote s culturalContext proposals winner = Some weight /\
       (forall agent vote,
          finalVote s culturalContext proposals agent = Some vote ->
          (vote <=? weight)%float = true) /\
       find (fun p => String.eqb (Proposal.agentId p) winner) proposals = Some first /\
       SwarmDecision.decision d =
         if Js.truthy_value (Proposal.proposal first) then Proposal.proposal first
         else Js.Null).
Proof.
  intros Hd. destruct proposals as [|p0 ps].
  - eexists. split; [reflexivity|]. repeat split; [now left | contradiction].
  - destruct (vote_nonempty now p0 ps culturalContext s) as (d & H1 & H2 & H3 & H4 & H5).
    exists d. split; [exact H1|]. split; [exact H2|]. split; [exact H3|].
    split; [exact H4|]. split; [exact H5|]. split; [discriminate|]. intros _.
    destruct (vote_winner now p0 ps culturalContext s)
      as (d' & winner & weight & sorted & first & G1 & _ & Hs & Hw & Hfirst & Hdec).
    rewrite H1 in G1. injection G1 as <- _.
    set (votes := collectVotes s culturalContext (p0 :: ps)) in *.
    assert (Hvd : scores_defined (@snd string float) votes).
    { intros [a w] Hin. cbn [snd].
      apply (map_get_of_entry a w votes (collectVotes_NoDup _ _ _)) in Hin.
      unfold votes in Hin. rewrite collectVotes_get in Hin. unfold finalVote in Hin.
      destruct (find _ (rev (p0 :: ps))) as [p|] eqn:F; [|discriminate].
      injection Hin as <-. apply Hd. apply find_some in F. apply in_rev. exact (proj1 F). }
    pose proof (JsFacts.sort_head (@snd string float) votes Hvd _ _ Hs) as Hfm.
    exists winner, weight, first. split; [exact Hw|]. split; [|split; [exact Hfirst|exact Hdec]].
    intros agent vote Hv. rewrite <- collectVotes_get in Hv.
    apply MapFacts.map_get_In in Hv. fold votes in Hv.
    exact (JsFacts.first_max_scores (@snd string float) votes (winner, weight) (agent, vote)
             Hfm Hvd Hv).
Qed.

(** ** Peer review *)

Lemma peer_review_returns contentSize reviewers culturalContext draws s :
  exists r,
    peerReviewConsensus contentSize reviewers culturalContext draws s = (Js.Returned r, s) /\
    length (PeerReview.feedback r) = length reviewers /\
    (reviewers = [] -> PeerReview.approved r = false).
Proof.
  eexists. split; [reflexivity|].
  cbn [PeerReview.feedback PeerReview.approved]. split.
  - set (reviews := imap _ reviewers).
    destruct (reviews_feedback reviews) as (H1 & _).
    { intros r Hr. apply list_elem_of_In, elem_of_lookup_imap_1 in Hr.
      destruct Hr as (i & y & -> & _). reflexivity. }
    rewrite H1. unfold reviews. now rewrite length_map, length_imap.
  - intros ->. now apply leb_nan.
Qed.

(** A peer review leaves the engine as it is and returns one feedback line
    for each reviewer, each one of the two verdict texts; it approves exactly
    when the share of approving lines reaches the engine's threshold. *)
Theorem peer_review_verdict contentSize reviewers culturalContext draws s :
  exists r,
    peerReviewConsensus contentSize reviewers culturalContext draws s = (Js.Returned r, s) /\
    length (PeerReview.feedback r) = length reviewers /\
    (forall f, In f (PeerReview.feedback r) ->
       f = "Approved with minor suggestions" \/ f = "Requires cultural adaptation") /\
    PeerReview.approved r =
      (consensusThreshold s <=?
       Js.of_nat (count_occ string_dec (PeerReview.feedback r) "Approved with minor suggestions")
       / Js.of_nat (length reviewers))%float.
Proof.
  eexists. split; [reflexivity|].
  cbn [PeerReview.feedback PeerReview.approved].
  set (reviews := imap _ reviewers).
  destruct (reviews_feedback reviews) as (H1 & H2 & H3).
  { intros r Hr. apply list_elem_of_In, elem_of_lookup_imap_1 in Hr.
    destruct Hr as (i & y & -> & _). reflexivity. }
  rewrite H1, H2. unfold reviews at 1 3 4. rewrite length_map, !length_imap.
  repeat split. exact H3.
Qed.

(** With no reviewer the approval rate is [0 / 0]: the review is rejected
    whatever the threshold is, and the cultural score is NaN. *)
Theorem peer_review_without_reviewers contentSize culturalContext draws s :
  exists r,
    peerReviewConsensus contentSize [] culturalContext draws s = (Js.Returned r, s) /\
    PeerReview.approved r = false /\
    PeerReview.feedback r = [] /\
    is_nan (PeerReview.culturalScore r) = true.
Proof.
  eexists. split; [reflexivity|]. cbn. repeat split. now apply leb_nan.
Qed.

(** ** The decision history and the metrics *)

Section History.
Variable numberToString : float -> string.

Lemma step_history c s :
  consensusThreshold (step numberToString c s) = consensusThreshold s /\
  exists new,
    decisionHistory (step numberToString c s) = (decisionHistory s ++ new)%list /\
    length new = votes_cast [c].
Proof.
  destruct c as [t bids ctx|now ps ctx|k agents ctx|a p|c e|size rs ctx draws|]; cbn [step].
  - rewrite auction_state_unchanged. split; [reflexivity|]. exists []. now rewrite app_nil_r.
  - destruct ps as [|p ps]; (split; [reflexivity|]).
    + exists []. now rewrite app_nil_r.
    + eexists [_]. split; reflexivity.
  - assert (E : snd (adaptiveConsensus k agents ctx s) = s).
    { destruct k; try reflexivity. unfold adaptiveConsensus, bind.
      now destruct (selectTopExpert s agents ctx). }
    rewrite E. split; [reflexivity|]. exists []. now rewrite app_nil_r.
  - split; [reflexivity|]. exists []. now rewrite app_nil_r.
  - split; [reflexivity|]. exists []. now rewrite app_nil_r.
  - split; [reflexivity|]. exists []. now rewrite app_nil_r.
  - split; [reflexivity|]. exists []. now rewrite app_nil_r.
Qed.

(** No call changes the consensus threshold, and the history only grows: a
    run of calls leaves the decisions already recorded in place and appends
    one decision for each vote that has a proposal, and nothing else; the
    metrics then count that many decisions. *)
Theorem history_is_append_only calls s :
  consensusThreshold (run numberToString calls s) = consensusThreshold s /\
  exists new,
    decisionHistory (run numberToString calls s) = (decisionHistory s ++ new)%list /\
    length new = votes_cast calls /\
    Metrics.totalDecisions <$> Js.returned (fst (getConsensusMetrics (run numberToString calls s)))
      = Some (length (decisionHistory s) + votes_cast calls).
Proof.
  revert s. induction calls as [|c calls IH]; intros s.
  - split; [reflexivity|]. exists []. cbn. rewrite app_nil_r. repeat split.
    now rewrite Nat.add_0_r.
  - destruct (step_history c s) as (T1 & n1 & H1 & L1).
    destruct (IH (step numberToString c s)) as (T2 & n2 & H2 & L2 & M2).
    change (run numberToString (c :: calls) s)
      with (run numberToString calls (step numberToString c s)).
    assert (V : votes_cast (c :: calls) = votes_cast [c] + votes_cast calls).
    { unfold votes_cast. cbn [List.filter].
      now destruct (match c with Vote _ (_ :: _) _ => true | _ => false end). }
    split; [congruence|]. exists (n1 ++ n2)%list. rewrite H2, H1, <- app_assoc.
    split; [reflexivity|]. split; [rewrite length_app; lia|].
    rewrite M2, H1, length_app. f_equal. lia.
Qed.
End History.

(** The metrics count the decisions of the history and the distinct cultural
    contexts among them: the coverage never exceeds the number of decisions
    and is zero only on an empty history. *)
Theorem metrics_count_history s :
  exists m,
    getConsensusMetrics s = (Js.Returned m, s) /\
    Metrics.totalDecisions m = length (decisionHistory s) /\
    Metrics.culturalCoverage m =
      length (remove_dups (map SwarmDecision.culturalContext (decisionHistory s))) /\
    Metrics.culturalCoverage m <= Metrics.totalDecisions m /\
    (Metrics.culturalCoverage m = 0 <-> decisionHistory s = []).
Proof.
  eexists. split; [reflexivity|]. cbn [Metrics.totalDecisions Metrics.culturalCoverage].
  set (cs := map SwarmDecision.culturalContext (decisionHistory s)).
  assert (E : size (list_to_set cs : gset string) = length (remove_dups cs)).
  { rewrite <- (size_list_to_set (C := gset string) (remove_dups cs)) by apply NoDup_remove_dups.
    f_equal. apply set_eq. intros x. rewrite !elem_of_list_to_set. symmetry.
    apply elem_of_remove_dups. }
  rewrite E. split; [reflexivity|]. split; [reflexivity|]. split.
  - etransitivity; [apply remove_dups_length|]. unfold cs. now rewrite length_map.
  - unfold cs. destruct (decisionHistory s) as [|d h]; [easy|].
    split; [|discriminate]. intros H. exfalso.
    apply length_zero_iff_nil in H.
    assert (Hin : SwarmDecision.culturalContext d
                  ∈ remove_dups (map SwarmDecision.culturalContext (d :: h))).
    { apply elem_of_remove_dups. left. }
    rewrite H in Hin. inversion Hin.
Qed.

(** ** Learning *)

(** A NaN that a faulty performance figure has put into the expertise table
    does not spread: every reader takes the entry for absent, and the next
    update with a number stores what it would store for an agent the table
    does not know, a value within [0.1 .. 1.0]. *)
Theorem nan_expertise_is_forgotten s agentId bad performance :
  is_nan bad = true -> is_nan performance = false ->
  let s1 := snd (updateAgentExpertise agentId bad s) in
  let s2 := snd (updateAgentExpertise agentId performance s1) in
  (exists x, agentExpertise s1 !! agentId = Some x /\ is_nan x = true) /\
  (forall d, expertiseOf s1 agentId d = d) /\
  agentExpertise s2 !! agentId =
    Some (Js.math_max 0.1 (Js.math_min 1.0 (0.5 * 0.8 + performance * 0.2)))%float /\
  within 0.1 1.0 (Js.math_max 0.1 (Js.math_min 1.0 (0.5 * 0.8 + performance * 0.2)))%float.
Proof.
  intros Hb Hp s1 s2.
  assert (Hn : is_nan (blendedExpertise s agentId bad) = true).
  { unfold blendedExpertise. apply JsFacts.clamp_nan, add_nan_r.
    now apply mul_nan_l. }
  assert (Hr : forall d, expertiseOf s1 agentId d = d).
  { intros d. unfold expertiseOf, s1. cbn. rewrite lookup_insert_eq.
    unfold Js.or_else, Js.truthy. now rewrite Hn. }
  split; [|split; [exact Hr|split]].
  - exists (blendedExpertise s agentId bad). split; [|assumption].
    unfold s1. cbn. apply lookup_insert_eq.
  - unfold s2. cbn. rewrite lookup_insert_eq. unfold blendedExpertise. now rewrite Hr.
  - apply JsFacts.clamp_within; [reflexivity|].
    apply (F64.add_not_nan _ _ (-53)); [vm_compute; intro; discriminate|].
    apply F64.mul_not_nan; [assumption | exact I].
Qed.

(** An update writes one entry: the other entries of the expertise table,
    the cultural weights, the history and the threshold stay, and the entry
    written is read back as it is, whatever default the reader has. *)
Theorem expertise_update_is_local s agentId performance :
  is_nan (expertiseOf s agentId 0.5 * 0.8 + performance * 0.2)%float = false ->
  let s' := snd (updateAgentExpertise agentId performance s) in
  (forall d, expertiseOf s' agentId d = blendedExpertise s agentId performance) /\
  (forall other d, other <> agentId -> expertiseOf s' other d = expertiseOf s other d) /\
  culturalWeights s' = culturalWeights s /\
  decisionHistory s' = decisionHistory s /\
  consensusThreshold s' = consensusThreshold s.
Proof.
  intros H s'. split; [|split; [|repeat split]].
  - intros d. unfold expertiseOf, s'. cbn. rewrite lookup_insert_eq.
    apply JsFacts.or_else_truthy.
    apply (within_truthy 0.1 1.0); [reflexivity|].
    now apply blendedExpertise_within.
  - intros other d Hne. unfold expertiseOf, s'. cbn. now rewrite lookup_insert_ne.
Qed.

(** ** Cultural adaptations *)

(** The language of the adaptations is never empty and holds no underscore:
    it is the part of the context before the first underscore, and 'en' when
    that part is empty. *)
Theorem adaptation_language s agent culturalContext :
  let language := Adaptations.language (generateCulturalAdaptations s agent culturalContext) in
  language <> "" /\
  Js.includes "_" language = false /\
  (language = "en" \/ String.prefix language culturalContext = true) /\
  (Js.includes "_" culturalContext = false -> culturalContext <> "" ->
   language = culturalContext).
Proof.
  cbn. destruct (split_head_spec "_" culturalContext) as [P I].
  destruct (String.eqb_spec (Js.split_head "_" culturalContext) "") as [E|Hne].
  - repeat split; try discriminate; [now left|].
    intros Hno Hnn. exfalso. destruct culturalContext as [|c r]; [contradiction|].
    cbn in E. destruct (Ascii.eqb_spec c "_") as [->|]; [|discriminate].
    cbn in Hno. destruct r; discriminate Hno.
  - repeat split; auto.
    intros Hno _. clear Hne P I.
    induction culturalContext as [|c r IH]; [reflexivity|].
    cbn [Js.split_head]. cbn [Js.includes String.prefix] in Hno.
    destruct (Ascii.eqb_spec c "_") as [->|Hne].
    + destruct (ascii_dec "_" "_"); [|contradiction]. destruct r; discriminate.
    + f_equal. apply IH. destruct (ascii_dec "_" c) as [|_]; [subst; contradiction|].
      exact Hno.
Qed.

(** ** The expert selectors *)

(** For agents whose ranks are numbers, the expert [selectTopExpert] picks
    heads the experts [selectTopExperts] picks. *)
Lemma top_experts first rest culturalContext e :
  scores_defined (expertRank e culturalContext) (first :: rest) ->
  exists top others,
    selectTopExpert e (first :: rest) culturalContext = Js.Returned top /\
    selectTopExperts e (first :: rest) culturalContext 3 = top :: others /\
    first_max (expertRank e culturalContext) (first :: rest) top /\
    length others = Nat.min 2 (length rest) /\
    (forall a, In a others -> In a (first :: rest)).
Proof.
  intros Hd.
  destruct (selectTopExpert_first_max e (first :: rest) culturalContext) as (top & E & F);
    [discriminate | assumption |].
  set (entry := fun agent => (agent, expertRank e culturalContext agent)).
  pose proof (JsFacts.sort_permutation (@snd string float) (map entry (first :: rest))) as Hp.
  destruct (Js.sort (by_desc snd) (map entry (first :: rest))) as [|h t] eqn:Es.
  { apply Permutation_length in Hp. discriminate. }
  assert (Hfm : first_max snd (map entry (first :: rest)) h).
  { apply (JsFacts.sort_head (@snd string float)) with t; [|exact Es].
    intros y Hy. apply in_map_iff in Hy. destruct Hy as (a & <- & Ha). now apply Hd. }
  apply (JsFacts.first_max_map entry (expertRank e culturalContext)) in Hfm; [|reflexivity].
  destruct Hfm as (top' & -> & Hw).
  pose proof (first_max_unique _ _ _ _ F Hw) as <-.
  change (by_desc snd) with (@byScoreDesc string) in Es.
  exists top, (map fst (firstn 2 t)). split; [assumption|]. split; [|split; [exact F|split]].
  - unfold selectTopExperts. fold entry. rewrite Es. reflexivity.
  - rewrite length_map, length_firstn. apply Permutation_length in Hp.
    rewrite length_map in Hp. cbn [length] in Hp. lia.
  - intros a Ha. apply in_map_iff in Ha. destruct Ha as (p & <- & Hin).
    apply list_elem_of_In, subseteq_take, list_elem_of_In in Hin.
    assert (Hin' : In p (map entry (first :: rest))).
    { apply (Permutation_in _ Hp). now right. }
    apply in_map_iff in Hin'. destruct Hin' as (a & <- & Ha). exact Ha.
Qed.

(** The rank of an agent is a number when the tables are in range. *)
Lemma expertRank_defined e culturalContext agent :
  expertise_in_range e -> weights_in_range e ->
  is_nan (expertRank e culturalContext agent) = false.
Proof.
  intros He Hw. unfold expertRank.
  assert (Hx : finite_below (-52) (expertiseOf e agent 0)).
  { unfold expertiseOf, Js.or_else.
    destruct (agentExpertise e !! agent) as [x|] eqn:E; [|const_below].
    destruct (Js.truthy x); [|const_below].
    apply (F64.within_below 0.1 1.0); [exact (He _ _ E) | const_below | const_below]. }
  assert (Hc : finite_below (-51) (culturalWeight e culturalContext 1)).
  { apply (F64.within_below 0.5 2.0);
      [now apply culturalWeight_within | const_below | const_below]. }
  apply (F64.below_not_nan (Z.max (-52 + -51 + 54) (-1074))).
  apply F64.mul_below; [assumption | assumption | lia].
Qed.

Lemma ranks_defined e culturalContext agents :
  expertise_in_range e -> weights_in_range e ->
  scores_defined (expertRank e culturalContext) agents.
Proof. intros He Hw a _. now apply expertRank_defined. Qed.

(** The plans agree on their expert: with the learned tables in range, the
    expert of the simple plan is the first of the (at most three) experts of
    the moderate plan, all of which are among the agents given; it is the
    earliest agent of maximal rank, where an agent the expertise table does
    not know ranks at zero. *)
Theorem simple_expert_leads_moderate_plan first rest culturalContext s :
  expertise_in_range s -> weights_in_range s ->
  exists top others,
    adaptiveConsensus simple (first :: rest) culturalContext s =
      (Js.Returned {| Plan.method := "single_expert"; Plan.threshold := 0.6;
                      Plan.participants := [top] |}, s) /\
    adaptiveConsensus moderate (first :: rest) culturalContext s =
      (Js.Returned {| Plan.method := "expertise_weighted"; Plan.threshold := 0.7;
                      Plan.participants := top :: others |}, s) /\
    first_max (expertRank s culturalContext) (first :: rest) top /\
    length others = Nat.min 2 (length rest) /\
    (forall a, In a others -> In a (first :: rest)) /\
    (forall a, agentExpertise s !! a = None -> (expertRank s culturalContext a <=? 0)%float = true).
Proof.
  intros He Hw.
  destruct (top_experts first rest culturalContext s) as (top & others & E1 & E2 & F & L & I).
  { now apply ranks_defined. }
  exists top, others. split; [|split; [|repeat split; try assumption]].
  - unfold adaptiveConsensus, bind. rewrite E1. reflexivity.
  - unfold adaptiveConsensus, bind, read, ret. rewrite E2. reflexivity.
  - intros a Ha. rewrite (expertRank_unknown _ _ _ Ha).
    apply zero_leb_zero. unfold is_zero. rewrite FloatAxioms.eqb_spec, FloatAxioms.mul_spec.
    pose proof (culturalWeight_within s culturalContext Hw) as Ww.
    pose proof (within_finite 0.5 2.0 _ (-51) eq_refl Ww ltac:(const_below)) as Hf.
    change (Prim2SF 0) with (S754_zero false).
    change (culturalWeight s culturalContext 1) with (culturalWeight s culturalContext 1.0).
    destruct (Prim2SF (culturalWeight s culturalContext 1.0)) as [| | |[] ? ?];
      try contradiction; reflexivity.
Qed.

(** ** Concrete runs *)

Import Sample.

(** An auction over three sample bids: [C] is selected, and of the two
    runners-up [B] scores above 0.6. *)
Lemma auction_reports_the_runners_up_witness :
  let s := create 0.7 in
  let bids := [bid "A" 0.4 10; bid "B" 0.9 1; bid "C" 1.0 1] in
  let score := fun bid => calculateCompositeScore s bid "ctx" in
  scores_defined score bids /\
  map score bids = [0.43; 0.7150000000000001; 0.7450000000000001]%float /\
  exists r top others,
    auctionBasedAllocation (fun _ => "0.9") "t" bids "ctx" s = (Js.Returned r, s) /\
    Permutation (top :: others) bids /\
    descending score (top :: others) /\
    ConsensusResult.selectedAgent r = AgentBid.agentId top /\
    ConsensusResult.minorityReports r =
      map (fun bid => minorityReport (fun _ => "0.9") (bid, score bid))
        (List.filter (fun bid => (0.6 <? score bid)%float) (firstn 3 others)).
Proof.
  cbv zeta.
  assert (Hd : scores_defined (fun bid => calculateCompositeScore (create 0.7) bid "ctx")
                 [bid "A" 0.4 10; bid "B" 0.9 1; bid "C" 1.0 1]).
  { intros b [<-|[<-|[<-|[]]]]; reflexivity. }
  split; [exact Hd|]. split; [reflexivity|].
  destruct (auction_reports_the_runners_up (fun _ => "0.9") "t" (bid "A" 0.4 10)
              [bid "B" 0.9 1; bid "C" 1.0 1] "ctx" (create 0.7) Hd)
    as (r & top & others & H1 & H2 & H3 & H4 & _ & H6).
  exists r, top, others. split; [exact H1|]. split; [exact H2|]. split; [exact H3|].
  split; [exact H4 | exact H6].
Defined.

(** A vote in which [A] proposes twice: it votes with the weight of its
    second proposal. *)
Lemma voting_decides_among_proposals_witness :
  let s := create 0.7 in
  let proposals := [proposal "A" "p1" 0.1; proposal "A" "p2" 0.9; proposal "B" "p3" 0.5] in
  scores_defined (adjustedWeight s "ctx") proposals /\
  finalVote s "ctx" proposals "A" = Some 0.45%float /\
  finalVote s "ctx" proposals "B" = Some 0.25%float /\
  exists d winner weight first,
    expertiseWeightedVoting 0 proposals "ctx" s = (Js.Returned d, recorded s d) /\
    SwarmDecision.participatingAgents d = ["A"; "A"; "B"] /\
    finalVote s "ctx" proposals winner = Some weight /\
    find (fun p => String.eqb (Proposal.agentId p) winner) proposals = Some first /\
    SwarmDecision.decision d =
      if Js.truthy_value (Proposal.proposal first) then Proposal.proposal first else Js.Null.
Proof.
  cbv zeta.
  assert (Hd : scores_defined (adjustedWeight (create 0.7) "ctx")
                 [proposal "A" "p1" 0.1; proposal "A" "p2" 0.9; proposal "B" "p3" 0.5]).
  { intros p [<-|[<-|[<-|[]]]]; reflexivity. }
  split; [exact Hd|]. split; [reflexivity|]. split; [reflexivity|].
  destruct (voting_decides_among_proposals 0 _ "ctx" (create 0.7) Hd)
    as (d & H1 & _ & H3 & _ & _ & _ & H7).
  destruct H7 as (winner & weight & first & G1 & _ & G3 & G4); [discriminate|].
  exists d, winner, weight, first. split; [exact H1|]. split; [exact H3|].
  split; [exact G1|]. split; [exact G3 | exact G4].
Defined.

(** Two bids with the smallest positive estimated time: both scores are
    infinite, and the consensus score is NaN. *)
Lemma auction_score_of_vanishing_times :
  let s := create 0.7 in
  let bids := [bid "A" 0.4 5e-324; bid "B" 0.9 5e-324] in
  map (fun bid => calculateCompositeScore s bid "ctx") bids = [infinity; infinity] /\
  (is_nan <$> (ConsensusResult.consensusScore <$>
     Js.returned (fst (auctionBasedAllocation (fun _ => "") "t" bids "ctx" s)))) = Some true.
Proof. split; reflexivity. Qed.

(** The consensus score of an auction over two sample bids. *)
Lemma auction_score_in_unit_interval_witness :
  let s := create 0.7 in
  let bids := [bid "A" 0.4 10; bid "B" 0.9 10] in
  Forall bid_in_model bids /\ expertise_in_range s /\ weights_in_range s /\
  exists r,
    auctionBasedAllocation (fun _ => "") "t" bids "ctx" s = (Js.Returned r, s) /\
    within 0 1 (ConsensusResult.consensusScore r) /\
    within 0.1 1.0
      (blendedExpertise s (ConsensusResult.selectedAgent r) (ConsensusResult.consensusScore r)).
Proof.
  cbv zeta.
  assert (Hb : Forall bid_in_model [bid "A" 0.4 10; bid "B" 0.9 10]).
  { repeat constructor. }
  assert (He : expertise_in_range (create 0.7)) by apply map_Forall_empty.
  assert (Hw : weights_in_range (create 0.7)) by apply map_Forall_empty.
  split; [exact Hb|]. split; [exact He|]. split; [exact Hw|].
  exact (auction_score_in_unit_interval (fun _ => "") "t" _ "ctx" (create 0.7) Hb He Hw).
Defined.

(** A NaN then a number, for an agent of a fresh engine. *)
Lemma nan_expertise_is_forgotten_witness :
  let s := create 0.7 in
  let s1 := snd (updateAgentExpertise "A" nan s) in
  let s2 := snd (updateAgentExpertise "A" 0.9 s1) in
  is_nan nan = true /\ is_nan 0.9 = false /\
  (forall d, expertiseOf s1 "A" d = d) /\
  within 0.1 1.0 (Js.math_max 0.1 (Js.math_min 1.0 (0.5 * 0.8 + 0.9 * 0.2)))%float.
Proof.
  cbv zeta.
  assert (Hb : is_nan nan = true) by reflexivity.
  assert (Hp : is_nan 0.9 = false) by reflexivity.
  split; [exact Hb|]. split; [exact Hp|].
  destruct (nan_expertise_is_forgotten (create 0.7) "A" nan 0.9 Hb Hp) as (_ & H2 & _ & H4).
  split; [exact H2 | exact H4].
Defined.

(** One update of a fresh engine. *)
Lemma expertise_update_is_local_witness :
  let s := create 0.7 in
  let s' := snd (updateAgentExpertise "A" 0.9 s) in
  is_nan (expertiseOf s "A" 0.5 * 0.8 + 0.9 * 0.2)%float = false /\
  (forall d, expertiseOf s' "A" d = blendedExpertise s "A" 0.9) /\
  (forall other d, other <> "A" -> expertiseOf s' other d = expertiseOf s other d).
Proof.
  cbv zeta.
  assert (Hn : is_nan (expertiseOf (create 0.7) "A" 0.5 * 0.8 + 0.9 * 0.2)%float = false)
    by reflexivity.
  split; [exact Hn|].
  destruct (expertise_update_is_local (create 0.7) "A" 0.9 Hn) as (H1 & H2 & _).
  split; [exact H1 | exact H2].
Defined.

(** The plans for three agents, one of them unknown to the engine. *)
Lemma simple_expert_leads_moderate_plan_witness :
  let s := learned [] [("A", 0.3); ("B", 0.9)]%float in
  expertise_in_range s /\ weights_in_range s /\
  exists top others,
    adaptiveConsensus simple ["A"; "B"; "C"] "ctx" s =
      (Js.Returned {| Plan.method := "single_expert"; Plan.threshold := 0.6;
                      Plan.participants := [top] |}, s) /\
    adaptiveConsensus moderate ["A"; "B"; "C"] "ctx" s =
      (Js.Returned {| Plan.method := "expertise_weighted"; Plan.threshold := 0.7;
                      Plan.participants := top :: others |}, s) /\
    first_max (expertRank s "ctx") ["A"; "B"; "C"] top.
Proof.
  cbv zeta.
  assert (He : expertise_in_range (learned [] [("A", 0.3); ("B", 0.9)]%float)).
  { unfold expertise_in_range, learned. cbn.
    apply map_Forall_insert_2; [split; reflexivity|].
    apply map_Forall_insert_2; [split; reflexivity|]. apply map_Forall_empty. }
  assert (Hw : weights_in_range (learned [] [("A", 0.3); ("B", 0.9)]%float))
    by apply map_Forall_empty.
  split; [exact He|]. split; [exact Hw|].
  destruct (simple_expert_leads_moderate_plan "A" ["B"; "C"] "ctx" _ He Hw)
    as (top & others & H1 & H2 & H3 & _).
  exists top, others. split; [exact H1|]. split; [exact H2 | exact H3].
Defined.

End EngineEdges.
(* ===================================================================== *)
(** * Part VII: properties of the orchestrator *)
(* ===================================================================== *)

Module SwarmManagerProps.
Import Spec Notions SwarmManager ManagerSpec EngineProps F64Signs ListFacts EngineEdges.
Local Open Scope float_scope.
Local Open Scope string_scope.

(** ** The bids the manager collects *)

(** One bid for each agent, in their order. *)
Lemma collectAgentBids_ids swarm task draws :
  map AgentBid.agentId (collectAgentBids swarm task draws) =
  map AgentConfiguration.id (ActiveSwarm.agents swarm).
Proof.
  unfold collectAgentBids.
  change (map AgentBid.agentId) with (fmap (M := list) AgentBid.agentId).
  rewrite fmap_imap. unfold compose. cbn [AgentBid.agentId].
  now rewrite (imap_const AgentConfiguration.id).
Qed.

(** The bid made up from draws in [0 .. 1). *)
Lemma collectAgentBids_bounds swarm task draws bid :
  unit_draws draws ->
  In bid (collectAgentBids swarm task draws) ->
  bid_in_model bid /\
  (10 <=? AgentBid.estimatedTime bid)%float = true /\
  (5 <=? AgentBid.resourceCost bid)%float = true /\
  AgentBid.taskId bid = SwarmTask.id task.
Proof.
  intros Hd Hin.
  apply list_elem_of_In, elem_of_lookup_imap_1 in Hin. destruct Hin as (i & agent & -> & _).
  assert (W : forall j, within 0 1 (draws j)).
  { intros j. destruct (Hd j) as [H0 H1]. split; [assumption | now apply F64.ltb_leb]. }
  assert (T : (10 <=? JsMore.math_floor (draws (5 * i + 3)%nat * 100) + 10)%float = true).
  { destruct (W (5 * i + 3)%nat).
    apply scaled_draw_at_least;
      first [assumption | now vm_compute | const_below]. }
  assert (C : (5 <=? JsMore.math_floor (draws (5 * i + 4)%nat * 50) + 5)%float = true).
  { destruct (W (5 * i + 4)%nat).
    apply scaled_draw_at_least;
      first [assumption | now vm_compute | const_below]. }
  cbn [AgentBid.estimatedTime AgentBid.resourceCost AgentBid.taskId].
  split; [|repeat split; assumption].
  unfold bid_in_model.
  cbn [AgentBid.confidence AgentBid.expertise AgentBid.culturalRelevance
       AgentBid.estimatedTime AgentBid.resourceCost].
  repeat split; try apply W.
  + apply F64.leb_trans with 10%float; [reflexivity | exact T].
  + apply F64.leb_trans with 5%float; [reflexivity | exact C].
Qed.

Lemma collectAgentBids_in_model swarm task draws :
  unit_draws draws -> Forall bid_in_model (collectAgentBids swarm task draws).
Proof.
  intros Hd. apply List.Forall_forall. intros bid Hin.
  exact (proj1 (collectAgentBids_bounds swarm task draws bid Hd Hin)).
Qed.

(** With draws in [0 .. 1), every bid [collectAgentBids] makes up lies within
    the data model: the three ratings are in [0 .. 1], the time estimate is at
    least 10 and the cost at least 5; there is one bid for each agent of the
    swarm, in their order. *)
Theorem collected_bids_in_model swarm task draws :
  unit_draws draws ->
  let bids := collectAgentBids swarm task draws in
  map AgentBid.agentId bids = map AgentConfiguration.id (ActiveSwarm.agents swarm) /\
  Forall
    (fun bid =>
       bid_in_model bid /\
       (10 <=? AgentBid.estimatedTime bid)%float = true /\
       (5 <=? AgentBid.resourceCost bid)%float = true /\
       AgentBid.taskId bid = SwarmTask.id task)
    bids.
Proof.
  intros Hd bids. split.
  - apply collectAgentBids_ids.
  - apply List.Forall_forall. intros bid Hin.
    now apply (collectAgentBids_bounds swarm task draws).
Qed.


(** ** The engine inside the manager *)

Lemma engine_run {A} (m : Engine.method A) s :
  engine m s =
  (fst (m (consensus_engine s)),
   {| active_swarms := active_swarms s; consensus_engine := snd (m (consensus_engine s)) |}).
Proof. unfold engine. now destruct (m (consensus_engine s)). Qed.

Lemma adapted_id swarm task : SwarmTask.id (adapted swarm task) = SwarmTask.id task.
Proof.
  unfold adapted. destruct (ActiveSwarm.cultural_context swarm) as [c|]; [|reflexivity].
  now destruct (String.eqb c "").
Qed.

Lemma collectAgentBids_adapted swarm task draws :
  collectAgentBids swarm (adapted swarm task) draws = collectAgentBids swarm task draws.
Proof. unfold collectAgentBids. now rewrite adapted_id. Qed.

(** ** Creating swarms *)

(** A configuration without a swarm id is refused and nothing is
    registered.  Otherwise the swarm is registered under its id, where a
    later lookup finds it (a swarm registered before under that id is
    replaced); the other swarms and the engine are left alone; the swarm's
    agents carry the ids of the configuration, and so does its communication
    graph. *)
Theorem created_swarm_is_registered now config s :
  if String.eqb (SwarmConfiguration.swarm_id config) "" then
    createSwarm now config s =
      (Js.Thrown (Js.Error "Swarm configuration must include a swarm_id"), s)
  else
    exists swarm s',
      createSwarm now config s = (Js.Returned swarm, s') /\
      active_swarms s' !! SwarmConfiguration.swarm_id config = Some swarm /\
      (forall other, other <> SwarmConfiguration.swarm_id config ->
         active_swarms s' !! other = active_swarms s !! other) /\
      consensus_engine s' = consensus_engine s /\
      ActiveSwarm.id swarm = SwarmConfiguration.swarm_id config /\
      ActiveSwarm.config swarm = config /\
      map AgentConfiguration.id (ActiveSwarm.agents swarm) =
        map AgentConfiguration.id (SwarmConfiguration.agents config) /\
      CommunicationGraph.agents (ActiveSwarm.communicationGraph swarm) =
        map AgentConfiguration.id (SwarmConfiguration.agents config) /\
      ActiveSwarm.cultural_context swarm = SwarmConfiguration.cultural_context config /\
      ActiveSwarm.coordination_pattern swarm =
        Some (SwarmConfiguration.coordination_pattern config).
Proof.
  unfold createSwarm, bind, validateSwarmConfiguration, ret.
  destruct (String.eqb (SwarmConfiguration.swarm_id config) ""); [reflexivity|].
  eexists _, _. split; [reflexivity|]. cbn.
  split; [apply lookup_insert_eq|].
  split; [intros other Hne; now apply lookup_insert_ne|].
  unfold initializeAgents. rewrite map_id. repeat split.
Qed.

(** ** Auction-based swarms *)

Section Auctions.
Variable numberToString : float -> string.
Variable serialize : Js.value -> string.

#[local] Abbreviation execute := (executeSwarmTask numberToString serialize).

Lemma execute_auction swarm_id swarm task now draws s :
  active_swarms s !! swarm_id = Some swarm ->
  ActiveSwarm.coordination_pattern swarm = Some auction_based ->
  execute swarm_id task now draws s =
  executeAuctionBasedTask numberToString swarm (adapted swarm task) draws s.
Proof. intros H P. unfold executeSwarmTask. now rewrite H, P. Qed.

(** A task for an auction-based swarm goes to the best bidder: with draws in
    [0 .. 1) and the engine's tables in range, the answer names the agent of
    the earliest bid of maximal composite score among the bids collected,
    and the engine then blends the auction's consensus score, a number
    between 0 and 1, into that agent's expertise, which stays within
    [0.1 .. 1.0]; no other entry of the engine changes.  The answer carries
    a cultural validation exactly when the task, as adapted to the swarm, has
    a cultural context, and then it is the placeholder's verdict. *)
Theorem auction_task_goes_to_the_best_bidder swarm_id swarm task now draws s :
  active_swarms s !! swarm_id = Some swarm ->
  ActiveSwarm.coordination_pattern swarm = Some auction_based ->
  ActiveSwarm.agents swarm <> [] ->
  unit_draws draws ->
  expertise_in_range (consensus_engine s) -> weights_in_range (consensus_engine s) ->
  exists r winner consensus s',
    execute swarm_id task now draws s = (Js.Returned r, s') /\
    first_max (bidScore s swarm) (collectAgentBids swarm task draws) winner /\
    SwarmResult.agentId r = Some (AgentBid.agentId winner) /\
    SwarmResult.status r = "completed" /\
    SwarmResult.consensusInfo_ r = Allocation consensus /\
    ConsensusResult.selectedAgent consensus = AgentBid.agentId winner /\
    within 0 1 (ConsensusResult.consensusScore consensus) /\
    Engine.agentExpertise (consensus_engine s') !! AgentBid.agentId winner =
      Some (Engine.blendedExpertise (consensus_engine s) (AgentBid.agentId winner)
              (ConsensusResult.consensusScore consensus)) /\
    expertise_in_range (consensus_engine s') /\
    (forall other, other <> AgentBid.agentId winner ->
       Engine.agentExpertise (consensus_engine s') !! other =
       Engine.agentExpertise (consensus_engine s) !! other) /\
    Engine.culturalWeights (consensus_engine s') = Engine.culturalWeights (consensus_engine s) /\
    Engine.decisionHistory (consensus_engine s') = Engine.decisionHistory (consensus_engine s) /\
    active_swarms s' = active_swarms s /\
    SwarmResult.culturalValidation r =
      match SwarmTask.cultural_context (adapted swarm task) with
      | Some context =>
          if String.eqb context "" then None
          else Some {| CulturalValidationResult.passed := true;
                       CulturalValidationResult.confidence := 0.9;
                       CulturalValidationResult.culturalAccuracy := 0.9;
                       CulturalValidationResult.feedback := "Cultural validation passed";
                       CulturalValidationResult.improvements := [];
                       CulturalValidationResult.riskLevel := "safe" |}
      | None => None
      end.
Proof.
  intros Hl Hp Hne Hd He Hw.
  rewrite (execute_auction _ _ _ _ _ _ Hl Hp).
  unfold executeAuctionBasedTask. rewrite collectAgentBids_adapted, adapted_id.
  pose proof (collectAgentBids_ids swarm task draws) as Hids.
  pose proof (collectAgentBids_in_model swarm task draws Hd) as Hm.
  set (bids := collectAgentBids swarm task draws) in *.
  set (ctx := or_default (ActiveSwarm.cultural_context swarm)).
  destruct s as [swarms e]. cbn [consensus_engine active_swarms] in *.
  assert (Hbne : bids <> []).
  { intros E. rewrite E in Hids. destruct (ActiveSwarm.agents swarm); [contradiction|discriminate]. }
  destruct (auction_selected numberToString (SwarmTask.id task) bids ctx e Hbne)
    as (c & top & rest & Hrun & Hsort & Hsel).
  destruct (auction_score_within numberToString (SwarmTask.id task) bids ctx e Hm He Hw)
    as (c' & Hrun' & Hscore).
  rewrite Hrun in Hrun'. injection Hrun' as <-.
  assert (Hfm : first_max snd
    (map (fun bid => (bid, Engine.calculateCompositeScore e bid ctx)) bids) top).
  { apply (JsFacts.sort_head (@snd AgentBid.t float)) with rest; [|exact Hsort].
    intros y Hy. apply in_map_iff in Hy. destruct Hy as (b & <- & Hin).
    rewrite List.Forall_forall in Hm.
    apply (F64.below_not_nan 971). apply composite_score_below; auto. }
  apply (JsFacts.first_max_map _ (fun bid => Engine.calculateCompositeScore e bid ctx))
    in Hfm; [|reflexivity].
  destruct Hfm as (winner & -> & Hwin).
  cbn [fst] in Hsel.
  eexists _, winner, c, _. split.
  { unfold bind. rewrite engine_run. cbn [consensus_engine active_swarms].
    rewrite Hrun. cbn [fst snd]. rewrite engine_run. cbn [fst snd consensus_engine active_swarms].
    unfold ret. reflexivity. }
  cbn [consensus_engine active_swarms SwarmResult.agentId SwarmResult.status
       SwarmResult.consensusInfo_ SwarmResult.culturalValidation executeTaskWithAgent].
  rewrite Hsel.
  split; [exact Hwin|]. split; [reflexivity|]. split; [reflexivity|].
  split; [reflexivity|]. split; [reflexivity|]. split; [exact Hscore|].
  unfold Engine.updateAgentExpertise, Engine.update. cbn.
  split; [apply lookup_insert_eq|]. split.
  { unfold expertise_in_range. cbn. apply map_Forall_insert_2; [|assumption].
    apply blendedExpertise_within, expertise_blend_defined; [assumption|].
    now apply (JsFacts.within_not_nan 0 1). }
  split; [intros other Hne'; now apply lookup_insert_ne|].
  split; [reflexivity|]. split; [reflexivity|]. split; [reflexivity|].
  destruct (SwarmTask.cultural_context (adapted swarm task)) as [context|]; [|reflexivity].
  unfold validateCulturalDecision. destruct (String.eqb context ""); reflexivity.
Qed.

(** A swarm without agents still answers an auction task: the answer names
    the agent 'default', a bidder that does not exist, and the engine records
    an expertise for it, as if it had performed with a score of zero. *)
Theorem auction_without_agents_trains_default swarm_id swarm task now draws s :
  active_swarms s !! swarm_id = Some swarm ->
  ActiveSwarm.coordination_pattern swarm = Some auction_based ->
  ActiveSwarm.agents swarm = [] ->
  exists r s',
    execute swarm_id task now draws s = (Js.Returned r, s') /\
    SwarmResult.agentId r = Some "default" /\
    SwarmResult.status r = "completed" /\
    SwarmResult.result r = "Task completed by agent default" /\
    Engine.agentExpertise (consensus_engine s') =
      <["default" := Engine.blendedExpertise (consensus_engine s) "default" 0]>
        (Engine.agentExpertise (consensus_engine s)) /\
    (Engine.agentExpertise (consensus_engine s) !! "default" = None ->
     Engine.agentExpertise (consensus_engine s') !! "default" = Some 0.4%float).
Proof.
  intros Hl Hp Ha.
  rewrite (execute_auction _ _ _ _ _ _ Hl Hp).
  unfold executeAuctionBasedTask, collectAgentBids. rewrite Ha. cbn [imap].
  destruct s as [swarms e]. cbn [consensus_engine active_swarms] in *.
  eexists _, _. split.
  { unfold bind. rewrite engine_run. cbn [fst snd Engine.auctionBasedAllocation Engine.ret].
    rewrite engine_run. cbn [fst snd consensus_engine active_swarms]. unfold ret. reflexivity. }
  cbn. repeat split.
  intros Hn. rewrite lookup_insert_eq. f_equal.
  unfold Engine.blendedExpertise, Engine.expertiseOf. rewrite Hn. reflexivity.
Qed.

End Auctions.


(** ** Consensus-driven swarms *)

Lemma adapted_payload swarm task : SwarmTask.payload (adapted swarm task) = SwarmTask.payload task.
Proof.
  unfold adapted. destruct (ActiveSwarm.cultural_context swarm) as [c|]; [|reflexivity].
  now destruct (String.eqb c "").
Qed.

Lemma adaptive_state k agents culturalContext e :
  snd (Engine.adaptiveConsensus k agents culturalContext e) = e.
Proof.
  destruct k; try reflexivity. unfold Engine.adaptiveConsensus, Engine.bind.
  now destruct (Engine.selectTopExpert e agents culturalContext).
Qed.

Lemma vote_state now proposals culturalContext e :
  let e' := snd (Engine.expertiseWeightedVoting now proposals culturalContext e) in
  Engine.consensusThreshold e' = Engine.consensusThreshold e /\
  Engine.culturalWeights e' = Engine.culturalWeights e /\
  Engine.agentExpertise e' = Engine.agentExpertise e.
Proof. destruct proposals; repeat split. Qed.

Section Consensus.
Variable numberToString : float -> string.
Variable serialize : Js.value -> string.

#[local] Abbreviation execute := (executeSwarmTask numberToString serialize).

Lemma execute_consensus swarm_id swarm task now draws s :
  active_swarms s !! swarm_id = Some swarm ->
  ActiveSwarm.coordination_pattern swarm = Some consensus_driven ->
  execute swarm_id task now draws s =
  executeConsensusDrivenTask numberToString serialize swarm (adapted swarm task) now draws s.
Proof. intros H P. unfold executeSwarmTask. now rewrite H, P. Qed.

Lemma assess_graded task k s :
  graded serialize task k ->
  assessTaskComplexity serialize task s = (Js.Returned k, s).
Proof.
  intros [Hp Hs]. unfold assessTaskComplexity, JSON_stringify.
  destruct (SwarmTask.payload task) eqn:E; try contradiction;
    cbv zeta in *;
    destruct k;
    repeat match goal with
    | |- context [(?a <? ?b)%nat] => destruct (Nat.ltb_spec a b); try lia
    end; reflexivity.
Qed.

(** Two ways a consensus-driven swarm fails a task: a task without payload
    is refused with a [TypeError] (the length of [undefined] is read), and a
    task graded simple for a swarm without agents is refused with the
    [TypeError] of a [reduce] over an empty list; nothing changes. *)
Theorem consensus_driven_task_failures swarm_id swarm task now draws s :
  active_swarms s !! swarm_id = Some swarm ->
  ActiveSwarm.coordination_pattern swarm = Some consensus_driven ->
  (SwarmTask.payload task = Js.Undefined ->
   execute swarm_id task now draws s =
     (Js.Thrown (Js.TypeError "Cannot read properties of undefined (reading 'length')"), s)) /\
  (graded serialize task simple -> ActiveSwarm.agents swarm = [] ->
   execute swarm_id task now draws s =
     (Js.Thrown (Js.TypeError "Reduce of empty array with no initial value"), s)).
Proof.
  intros Hl Hp. rewrite (execute_consensus _ _ _ _ _ _ Hl Hp).
  unfold executeConsensusDrivenTask. split.
  - intros Hu. unfold bind, assessTaskComplexity. rewrite adapted_payload, Hu. reflexivity.
  - intros Hg Ha. unfold bind at 1. rewrite (assess_graded _ simple).
    + rewrite Ha. destruct s as [swarms e]. reflexivity.
    + unfold graded. now rewrite adapted_payload.
Qed.


(** A task graded simple goes to the top expert of the swarm, the earliest
    agent of maximal rank (to 'default_agent' if that agent's id is empty);
    nothing is voted and nothing changes. *)
Theorem simple_task_goes_to_the_top_expert swarm_id swarm task now draws s :
  active_swarms s !! swarm_id = Some swarm ->
  ActiveSwarm.coordination_pattern swarm = Some consensus_driven ->
  graded serialize task simple ->
  ActiveSwarm.agents swarm <> [] ->
  expertise_in_range (consensus_engine s) -> weights_in_range (consensus_engine s) ->
  exists top,
    first_max
      (Engine.expertRank (consensus_engine s)
         (or_default (SwarmConfiguration.cultural_context (ActiveSwarm.config swarm))))
      (map AgentConfiguration.id (ActiveSwarm.agents swarm)) top /\
    execute swarm_id task now draws s =
      (Js.Returned
         (executeWithSingleExpert (if String.eqb top "" then "default_agent" else top) task),
       s).
Proof.
  intros Hl Hp Hg Hne He Hw. rewrite (execute_consensus _ _ _ _ _ _ Hl Hp).
  unfold executeConsensusDrivenTask. unfold bind at 1. rewrite (assess_graded _ simple);
    [|unfold graded; now rewrite adapted_payload].
  set (ctx := or_default _).
  destruct (map AgentConfiguration.id (ActiveSwarm.agents swarm)) as [|first rest] eqn:Ea.
  { destruct (ActiveSwarm.agents swarm); [contradiction | discriminate]. }
  destruct (top_experts first rest ctx (consensus_engine s)) as (top & others & E1 & _ & F & _).
  { now apply ranks_defined. }
  exists top. split; [exact F|].
  unfold bind. rewrite engine_run. unfold Engine.adaptiveConsensus, Engine.bind. rewrite E1.
  cbn. destruct s as [swarms e]. unfold ret, executeWithSingleExpert. cbn.
  now rewrite adapted_id.
Qed.

(** A task graded moderate, with the engine's tables in range and draws in
    [0 .. 1).  For a swarm with agents it is put to the vote of the (at most
    three) top experts, and the answer names the first of them, the top
    expert, whatever the vote decides; the decision is the proposal of one of
    these experts, never [null], and it is recorded in the engine's history.
    For a swarm without agents the vote is empty: the answer names no agent,
    the decision is [null], and nothing is recorded. *)
Theorem moderate_task_names_the_top_expert swarm_id swarm task now draws s :
  active_swarms s !! swarm_id = Some swarm ->
  ActiveSwarm.coordination_pattern swarm = Some consensus_driven ->
  graded serialize task moderate ->
  unit_draws draws ->
  expertise_in_range (consensus_engine s) -> weights_in_range (consensus_engine s) ->
  let culturalContext :=
    or_default (SwarmConfiguration.cultural_context (ActiveSwarm.config swarm)) in
  match ActiveSwarm.agents swarm with
  | [] =>
      execute swarm_id task now draws s =
        (Js.Returned
           {| SwarmResult.taskId := SwarmTask.id task;
              SwarmResult.agentId := None;
              SwarmResult.status := "completed";
              SwarmResult.result := "Task completed based on consensus decision: null";
              SwarmResult.consensusInfo_ :=
                Decision {| SwarmDecision.taskId := "decision_" ++ pretty now;
                            SwarmDecision.decision := Js.Null;
                            SwarmDecision.confidence := 0;
                            SwarmDecision.participatingAgents := [];
                            SwarmDecision.culturalContext := culturalContext |};
              SwarmResult.culturalValidation := None |},
         s)
  | _ :: _ =>
      exists r d top others,
        execute swarm_id task now draws s =
          (Js.Returned r,
           {| active_swarms := active_swarms s;
              consensus_engine := recorded (consensus_engine s) d |}) /\
        first_max (Engine.expertRank (consensus_engine s) culturalContext)
          (map AgentConfiguration.id (ActiveSwarm.agents swarm)) top /\
        SwarmResult.agentId r = Some top /\
        SwarmResult.status r = "completed" /\
        SwarmResult.consensusInfo_ r = Decision d /\
        SwarmDecision.participatingAgents d = top :: others /\
        length others = Nat.min 2 (length (ActiveSwarm.agents swarm) - 1) /\
        (exists a, In a (top :: others) /\
           SwarmDecision.decision d = Js.Str ("Proposal from agent " ++ a)) /\
        SwarmResult.result r =
          "Task completed based on consensus decision: "
          ++ JsMore.to_string numberToString (SwarmDecision.decision d)
  end.
Proof.
  intros Hl Hp Hg _ He Hw. cbv zeta. rewrite (execute_consensus _ _ _ _ _ _ Hl Hp).
  unfold executeConsensusDrivenTask.
  set (ctx := or_default _).
  assert (Hlen : length (map AgentConfiguration.id (ActiveSwarm.agents swarm))
                 = length (ActiveSwarm.agents swarm)) by apply length_map.
  assert (Hgraded : graded serialize (adapted swarm task) moderate)
    by (unfold graded; now rewrite adapted_payload).
  destruct (ActiveSwarm.agents swarm) as [|agent0 agents] eqn:Eagents.
  { unfold bind at 1. rewrite (assess_graded _ moderate _ Hgraded).
    cbn [map]. unfold bind, engine. cbn. rewrite adapted_id. unfold ret.
    clear. now destruct s. }
  unfold bind at 1. rewrite (assess_graded _ moderate _ Hgraded).
  destruct (map AgentConfiguration.id (agent0 :: agents)) as [|first rest] eqn:Ea;
    [discriminate|].
  destruct (top_experts first rest ctx (consensus_engine s))
    as (top & others & _ & E2 & F & L & _).
  { now apply ranks_defined. }
  unfold bind at 1. rewrite engine_run.
  unfold Engine.adaptiveConsensus, Engine.bind, Engine.read, Engine.ret. rewrite E2.
  cbn [fst snd Plan.method Plan.participants String.eqb Ascii.eqb Bool.eqb].
  unfold executeWithWeightedConsensus. cbn [imap].
  match goal with
  | |- context [Engine.expertiseWeightedVoting now (?p :: ?ps) ctx] =>
      destruct (vote_winner now p ps ctx (consensus_engine s))
        as (d & winner & weight & sorted & chosen & Hv & Hpa & _ & _ & Hfind & Hdec)
  end.
  unfold bind. rewrite engine_run. cbn [consensus_engine active_swarms]. rewrite Hv.
  cbn [fst snd]. unfold ret.
  eexists _, d, top, others. split; [reflexivity|].
  cbn [SwarmResult.agentId SwarmResult.status SwarmResult.consensusInfo_ SwarmResult.result].
  assert (Hparts : SwarmDecision.participatingAgents d = top :: others).
  { rewrite Hpa. cbn [map Proposal.agentId]. f_equal.
    change (map Proposal.agentId) with (fmap (M := list) Proposal.agentId).
    rewrite fmap_imap. unfold compose. cbn [Proposal.agentId].
    rewrite (imap_const (fun x : string => x)). apply list_fmap_id. }
  split; [exact F|]. split; [now rewrite Hparts|]. split; [reflexivity|].
  split; [reflexivity|]. split; [exact Hparts|].
  split; [rewrite L; try rewrite Ea in Hlen; cbn [length] in Hlen |- *; lia|].
  split; [|reflexivity].
  apply find_some in Hfind. destruct Hfind as [Hin _].
  exists (Proposal.agentId chosen). split.
  - rewrite <- Hparts, Hpa. now apply in_map.
  - rewrite Hdec. destruct Hin as [<-|Hin]; [reflexivity|].
    apply list_elem_of_In, elem_of_lookup_imap_1 in Hin.
    destruct Hin as (i & a & -> & _). reflexivity.
Qed.

(** A task graded complex is put to the peer review of all the agents: the
    answer says 'completed' exactly when the review approves, names no
    agent, carries one feedback line for each agent, and the engine is left as
    it is; for a swarm without agents the answer is 'needs_revision'. *)
Theorem complex_task_is_peer_reviewed swarm_id swarm task now draws s :
  active_swarms s !! swarm_id = Some swarm ->
  ActiveSwarm.coordination_pattern swarm = Some consensus_driven ->
  graded serialize task complex ->
  exists r review,
    execute swarm_id task now draws s = (Js.Returned r, s) /\
    SwarmResult.consensusInfo_ r = Reviewed review /\
    SwarmResult.agentId r = None /\
    SwarmResult.status r =
      (if PeerReview.approved review then "completed" else "needs_revision") /\
    length (PeerReview.feedback review) = length (ActiveSwarm.agents swarm) /\
    (ActiveSwarm.agents swarm = [] -> SwarmResult.status r = "needs_revision").
Proof.
  intros Hl Hp Hg. rewrite (execute_consensus _ _ _ _ _ _ Hl Hp).
  unfold executeConsensusDrivenTask. unfold bind at 1. rewrite (assess_graded _ complex);
    [|unfold graded; now rewrite adapted_payload].
  set (ctx := or_default _). set (ids := map AgentConfiguration.id (ActiveSwarm.agents swarm)).
  unfold bind at 1. rewrite engine_run.
  cbn [fst snd Engine.adaptiveConsensus Engine.ret Plan.method String.eqb Ascii.eqb Bool.eqb].
  unfold executeWithFullConsensus. set (size := if Js.truthy_value _ then _ else _).
  destruct (peer_review_returns size ids ctx draws (consensus_engine s))
    as (review & Hr & Hlen & Happ).
  unfold bind. rewrite engine_run. cbn [consensus_engine active_swarms]. rewrite Hr.
  cbn [fst snd]. unfold ret. destruct s as [swarms e].
  eexists _, review. split; [reflexivity|].
  cbn [SwarmResult.agentId SwarmResult.status SwarmResult.consensusInfo_].
  repeat split.
  - rewrite Hlen. apply length_map.
  - intros Ha. rewrite Happ; [reflexivity|]. unfold ids. now rewrite Ha.
Qed.

End Consensus.

(** ** What a manager keeps true *)

Ltac kept := split; [|split; [|split]]; try assumption.

Section Runs.
Variable numberToString : float -> string.
Variable serialize : Js.value -> string.

Lemma create_well_kept now config s :
  well_kept s -> well_kept (snd (createSwarm now config s)).
Proof.
  intros (Hk & Ht & Hw & He). unfold createSwarm, bind, validateSwarmConfiguration.
  destruct (String.eqb_spec (SwarmConfiguration.swarm_id config) "") as [E|Hne].
  - kept.
  - cbn. split; [|split; [|split]; assumption].
    intros k swarm. cbn [active_swarms].
    destruct (decide (SwarmConfiguration.swarm_id config = k)) as [<-|Hk'].
    + rewrite lookup_insert_eq. intros [= <-]. now split.
    + rewrite lookup_insert_ne by assumption. apply Hk.
Qed.

Lemma same_tables_refl s : same_tables s s.
Proof. repeat split. Qed.

Lemma bind_same_tables {A B} (m : method A) (k : A -> method B) s :
  same_tables s (snd (m s)) ->
  (forall a s1, same_tables s1 (snd (k a s1))) ->
  same_tables s (snd (bind m k s)).
Proof.
  intros Hm Hk. unfold bind. destruct (m s) as [[a|err] s1]; cbn in *; [|assumption].
  destruct (Hk a s1) as (K1 & K2 & K3 & K4). destruct Hm as (M1 & M2 & M3 & M4).
  repeat split; congruence.
Qed.

Lemma engine_same_tables {A} (m : Engine.method A) s :
  (let e' := snd (m (consensus_engine s)) in
   Engine.consensusThreshold e' = Engine.consensusThreshold (consensus_engine s) /\
   Engine.culturalWeights e' = Engine.culturalWeights (consensus_engine s) /\
   Engine.agentExpertise e' = Engine.agentExpertise (consensus_engine s)) ->
  same_tables s (snd (engine m s)).
Proof. intros H. rewrite engine_run. split; [reflexivity | exact H]. Qed.

(** A consensus-driven task writes nothing but, at most, one decision on the
    history. *)
Lemma consensus_task_engine swarm task now draws s :
  same_tables s
    (snd (executeConsensusDrivenTask numberToString serialize swarm task now draws s)).
Proof.
  unfold executeConsensusDrivenTask. apply bind_same_tables.
  { unfold assessTaskComplexity.
    destruct (JSON_stringify serialize (SwarmTask.payload task)) as [text|];
      [|apply same_tables_refl].
    cbv zeta. destruct (String.length text <? 100)%nat;
      [|destruct (String.length text <? 1000)%nat]; apply same_tables_refl. }
  intros k s1. apply bind_same_tables.
  { apply engine_same_tables. cbv zeta. rewrite adaptive_state. repeat split. }
  intros plan s2.
  destruct (String.eqb (Plan.method plan) "single_expert"); [apply same_tables_refl|].
  destruct (String.eqb (Plan.method plan) "expertise_weighted").
  { unfold executeWithWeightedConsensus. apply bind_same_tables.
    - apply engine_same_tables. apply vote_state.
    - intros d s3. apply same_tables_refl. }
  destruct (String.eqb (Plan.method plan) "full_swarm_consensus"); [|apply same_tables_refl].
  unfold executeWithFullConsensus. apply bind_same_tables.
  - apply engine_same_tables. repeat split.
  - intros r s3. apply same_tables_refl.
Qed.

(** An auction-based task writes one entry of the expertise table, fed with
    a number between 0 and 1. *)
Lemma auction_task_engine swarm task draws s :
  unit_draws draws ->
  expertise_in_range (consensus_engine s) -> weights_in_range (consensus_engine s) ->
  let s' := snd (executeAuctionBasedTask numberToString swarm task draws s) in
  active_swarms s' = active_swarms s /\
  Engine.consensusThreshold (consensus_engine s') = Engine.consensusThreshold (consensus_engine s) /\
  Engine.culturalWeights (consensus_engine s') = Engine.culturalWeights (consensus_engine s) /\
  expertise_in_range (consensus_engine s').
Proof.
  intros Hd He Hw. destruct s as [swarms e]. cbn [consensus_engine active_swarms] in *.
  pose proof (collectAgentBids_in_model swarm task draws Hd) as Hm.
  destruct (auction_score_within numberToString (SwarmTask.id task) _
              (or_default (ActiveSwarm.cultural_context swarm)) e Hm He Hw)
    as (c & Hrun & Hscore).
  unfold executeAuctionBasedTask, bind. rewrite engine_run.
  cbn [consensus_engine active_swarms]. rewrite Hrun. cbn [fst snd].
  rewrite engine_run. cbn [fst snd consensus_engine active_swarms].
  split; [reflexivity|]. split; [reflexivity|]. split; [reflexivity|].
  unfold expertise_in_range. cbn. apply map_Forall_insert_2; [|assumption].
  apply blendedExpertise_within, expertise_blend_defined; [assumption|].
  now apply (JsFacts.within_not_nan 0 1).
Qed.

Lemma execute_well_kept swarm_id task now draws s :
  unit_draws draws -> well_kept s ->
  well_kept (snd (executeSwarmTask numberToString serialize swarm_id task now draws s)).
Proof.
  intros Hd (Hk & Ht & Hw & He). unfold executeSwarmTask.
  destruct (active_swarms s !! swarm_id) as [swarm|]; [|kept].
  fold (adapted swarm task).
  assert (Hwr : weights_in_range (consensus_engine s)).
  { unfold weights_in_range. rewrite Hw. apply map_Forall_empty. }
  destruct (ActiveSwarm.coordination_pattern swarm) as [[]|];
    try (now kept).
  - destruct (auction_task_engine swarm (adapted swarm task) draws s Hd He Hwr)
      as (H1 & H2 & H3 & H4).
    unfold well_kept. rewrite H1, H2, H3. kept.
  - destruct (consensus_task_engine swarm (adapted swarm task) now draws s)
      as (H1 & H2 & H3 & H4).
    unfold well_kept, expertise_in_range. rewrite H1, H2, H3, H4. kept.
Qed.

(** Whatever a client does with a manager, as long as [Math.random()] gives
    values in [0 .. 1): every swarm is registered under its own id, which is
    not empty; the engine's threshold stays 0.7; the engine never learns a
    cultural weight, so every score is computed with the weight 1.0; and
    every expertise the engine has learned lies within [0.1 .. 1.0], so that
    no NaN ever enters its tables. *)
Theorem manager_stays_well_kept calls :
  Forall draws_in_unit calls ->
  let s := run numberToString serialize calls create in
  well_kept s /\
  (forall context, Engine.culturalWeight (consensus_engine s) context 1.0 = 1.0%float) /\
  (forall agent, within 0.1 1.0 (Engine.expertiseOf (consensus_engine s) agent 0.5)).
Proof.
  intros Hc.
  assert (H : forall s0, well_kept s0 -> well_kept (run numberToString serialize calls s0)).
  { induction calls as [|c calls IH]; intros s0 Hs0; [assumption|].
    apply Forall_cons in Hc. destruct Hc as [Hc Hcs].
    apply (IH Hcs). destruct c as [now config|swarm_id task now draws|]; cbn [step].
    - now apply create_well_kept.
    - now apply execute_well_kept.
    - unfold getConsensusMetrics. rewrite engine_run. destruct s0. exact Hs0. }
  assert (H0 : well_kept create).
  { split; [intros k swarm Hl; cbn in Hl; rewrite lookup_empty in Hl; discriminate|].
    split; [reflexivity|]. split; [reflexivity|]. apply map_Forall_empty. }
  specialize (H create H0). cbv zeta. split; [exact H|].
  destruct H as (_ & _ & Hw & He). split.
  - intros context. apply culturalWeight_absent. rewrite Hw. apply lookup_empty.
  - intros agent. now apply expertiseOf_within.
Qed.

(** *** The registry of swarms *)

Lemma ret_no_Error {A} (a : A) : no_Error (ret a).
Proof. intros s msg. discriminate. Qed.

Lemma bind_no_Error {A B} (m : method A) (k : A -> method B) :
  no_Error m -> (forall a, no_Error (k a)) -> no_Error (bind m k).
Proof.
  intros Hm Hk s msg. unfold bind. specialize (Hm s msg).
  destruct (m s) as [[a|e] s1]; [apply Hk|].
  cbn [fst] in *. intros [= ->]. now apply Hm.
Qed.

Lemma engine_no_Error {A} (m : Engine.method A) :
  (forall e msg, fst (m e) <> Js.Thrown (Js.Error msg)) -> no_Error (engine m).
Proof. intros H s msg. rewrite engine_run. apply H. Qed.

Lemma consensus_task_no_Error swarm task now draws :
  no_Error (executeConsensusDrivenTask numberToString serialize swarm task now draws).
Proof.
  unfold executeConsensusDrivenTask. apply bind_no_Error.
  { intros s msg. unfold assessTaskComplexity.
    destruct (JSON_stringify serialize (SwarmTask.payload task)) as [text|]; [|discriminate].
    cbv zeta. destruct (String.length text <? 100)%nat;
      [|destruct (String.length text <? 1000)%nat]; discriminate. }
  intros k. apply bind_no_Error.
  { apply engine_no_Error. intros e msg. destruct k; try discriminate.
    unfold Engine.adaptiveConsensus, Engine.bind.
    destruct (map AgentConfiguration.id (ActiveSwarm.agents swarm)); discriminate. }
  intros plan.
  destruct (String.eqb (Plan.method plan) "single_expert"); [apply ret_no_Error|].
  destruct (String.eqb (Plan.method plan) "expertise_weighted").
  { unfold executeWithWeightedConsensus. apply bind_no_Error; [|intros d; apply ret_no_Error].
    apply engine_no_Error. intros e msg.
    destruct (imap _ (Plan.participants plan)); discriminate. }
  destruct (String.eqb (Plan.method plan) "full_swarm_consensus"); [|apply ret_no_Error].
  unfold executeWithFullConsensus. apply bind_no_Error; [|intros r; apply ret_no_Error].
  apply engine_no_Error. intros e msg. discriminate.
Qed.

Lemma auction_task_no_Error swarm task draws :
  no_Error (executeAuctionBasedTask numberToString swarm task draws).
Proof.
  unfold executeAuctionBasedTask. apply bind_no_Error.
  { apply engine_no_Error. intros e msg.
    destruct (collectAgentBids swarm task draws); discriminate. }
  intros c. apply bind_no_Error; [|intros u; apply ret_no_Error].
  apply engine_no_Error. intros e msg. discriminate.
Qed.

Lemma auction_task_swarms swarm task draws s :
  active_swarms (snd (executeAuctionBasedTask numberToString swarm task draws s))
  = active_swarms s.
Proof.
  unfold executeAuctionBasedTask, bind. rewrite engine_run.
  destruct (fst (Engine.auctionBasedAllocation _ _ _ _ _)) as [c|e]; [|reflexivity].
  rewrite engine_run.
  destruct (fst (Engine.updateAgentExpertise _ _ _)); reflexivity.
Qed.

Lemma step_swarms c s :
  match c with
  | CreateSwarm _ _ => True
  | _ => active_swarms (step numberToString serialize c s) = active_swarms s
  end.
Proof.
  destruct c as [now config|swarm_id task now draws|]; [exact I| |].
  - cbn [step]. unfold executeSwarmTask.
    destruct (active_swarms s !! swarm_id) as [swarm|]; [|reflexivity].
    destruct (ActiveSwarm.coordination_pattern swarm) as [[]|]; try reflexivity.
    + apply auction_task_swarms.
    + exact (proj1 (consensus_task_engine swarm _ now draws s)).
  - cbn [step]. unfold getConsensusMetrics. now rewrite engine_run.
Qed.

Lemma createSwarm_refused now config s :
  SwarmConfiguration.swarm_id config = "" ->
  createSwarm now config s =
    (Js.Thrown (Js.Error "Swarm configuration must include a swarm_id"), s).
Proof.
  intros E. unfold createSwarm, bind, validateSwarmConfiguration. now rewrite E.
Qed.

Lemma createSwarm_accepted now config s :
  SwarmConfiguration.swarm_id config <> "" ->
  exists swarm,
    createSwarm now config s =
      (Js.Returned swarm,
       {| active_swarms := <[SwarmConfiguration.swarm_id config := swarm]> (active_swarms s);
          consensus_engine := consensus_engine s |}) /\
    forall s', fst (createSwarm now config s') = Js.Returned swarm.
Proof.
  intros Hne. unfold createSwarm, bind, validateSwarmConfiguration.
  destruct (String.eqb_spec (SwarmConfiguration.swarm_id config) ""); [contradiction|].
  eexists. split; reflexivity.
Qed.

(** What the registry holds for an id against the last accepted
    [createSwarm] call for it. *)
Lemma run_registry swarm_id calls : forall s found,
  active_swarms s !! swarm_id =
    match found with
    | Some (created, config) => Js.returned (fst (createSwarm created config create))
    | None => None
    end ->
  active_swarms (run numberToString serialize calls s) !! swarm_id =
    match
      fold_left
        (fun found c =>
           match c with
           | CreateSwarm now config =>
               if String.eqb (SwarmConfiguration.swarm_id config) swarm_id
                  && negb (String.eqb swarm_id EmptyString)
               then Some (now, config) else found
           | _ => found
           end)
        calls found
    with
    | Some (created, config) => Js.returned (fst (createSwarm created config create))
    | None => None
    end.
Proof.
  induction calls as [|c calls IH]; intros s found H; [exact H|].
  cbn [run fold_left]. apply IH.
  pose proof (step_swarms c s) as Hc.
  destruct c as [now config|id task now draws|]; [|now rewrite Hc|now rewrite Hc].
  cbn [step].
  destruct (String.eqb_spec (SwarmConfiguration.swarm_id config) "") as [E|Hne].
  - rewrite (createSwarm_refused now config s E). cbn [snd].
    destruct (String.eqb_spec (SwarmConfiguration.swarm_id config) swarm_id) as [Ek|_];
      [|exact H].
    rewrite <- Ek, E. cbn [String.eqb negb andb]. rewrite <- E, Ek. exact H.
  - destruct (createSwarm_accepted now config s Hne) as (swarm & Hrun & Hret).
    rewrite Hrun. cbn [snd active_swarms].
    destruct (String.eqb_spec (SwarmConfiguration.swarm_id config) swarm_id) as [Ek|Hk].
    + rewrite Ek at 1. rewrite lookup_insert_eq.
      destruct (String.eqb_spec swarm_id "") as [E'|_]; [congruence|].
      cbn [negb andb]. now rewrite Hret.
    + rewrite lookup_insert_ne by assumption. exact H.
Qed.

Lemma last_created_from swarm_id calls : forall found created config,
  fold_left
    (fun found c =>
       match c with
       | CreateSwarm now config =>
           if String.eqb (SwarmConfiguration.swarm_id config) swarm_id
              && negb (String.eqb swarm_id EmptyString)
           then Some (now, config) else found
       | _ => found
       end) calls found = Some (created, config) ->
  (forall c0 g0, found = Some (c0, g0) ->
     SwarmConfiguration.swarm_id g0 = swarm_id /\ swarm_id <> "") ->
  SwarmConfiguration.swarm_id config = swarm_id /\ swarm_id <> "".
Proof.
  induction calls as [|c calls IH]; intros found created config E Hf.
  - now apply (Hf created config).
  - cbn [fold_left] in E. apply (IH _ _ _ E). intros c0 g0.
    destruct c as [now0 config0| |]; [|apply Hf|apply Hf].
    destruct (String.eqb_spec (SwarmConfiguration.swarm_id config0) swarm_id) as [Ek|];
      [|apply Hf].
    destruct (String.eqb_spec swarm_id "") as [|Hne]; [apply Hf|].
    cbn [negb andb]. intros [= <- <-]. now split.
Qed.

Lemma last_created_id swarm_id calls created config :
  last_created swarm_id calls = Some (created, config) ->
  SwarmConfiguration.swarm_id config = swarm_id /\ swarm_id <> "".
Proof.
  intros E. apply (last_created_from swarm_id calls None created config E). discriminate.
Qed.

(** Swarms stay registered.  After any run of calls on a new manager,
    [executeSwarmTask] finds for an id the swarm that the last [createSwarm]
    call carrying that id returned, whatever tasks have been executed since;
    it throws 'Swarm ... not found' exactly when no [createSwarm] call carried
    the id (or the id is empty). *)
Theorem swarms_stay_registered calls swarm_id task now draws :
  let s := run numberToString serialize calls create in
  let not_found := Js.Thrown (Js.Error ("Swarm " ++ swarm_id ++ " not found")) in
  match last_created swarm_id calls with
  | None =>
      active_swarms s !! swarm_id = None /\
      executeSwarmTask numberToString serialize swarm_id task now draws s = (not_found, s)
  | Some (created, config) =>
      exists swarm,
        active_swarms s !! swarm_id = Some swarm /\
        fst (createSwarm created config create) = Js.Returned swarm /\
        SwarmConfiguration.swarm_id config = swarm_id /\
        fst (executeSwarmTask numberToString serialize swarm_id task now draws s) <> not_found
  end.
Proof.
  cbv zeta.
  pose proof (run_registry swarm_id calls create None (lookup_empty _)) as H.
  fold (last_created swarm_id calls) in H.
  pose proof (last_created_id swarm_id calls) as Hid.
  destruct (last_created swarm_id calls) as [[created config]|] eqn:E.
  - destruct (Hid created config eq_refl) as [Hk Hne].
    destruct (fst (createSwarm created config create)) as [swarm|e] eqn:Ec;
      [|unfold createSwarm, bind, validateSwarmConfiguration in Ec;
        destruct (String.eqb_spec (SwarmConfiguration.swarm_id config) "");
        [congruence | discriminate Ec]].
    cbn [Js.returned] in H. exists swarm. split; [exact H|]. split; [reflexivity|].
    split; [exact Hk|].
    unfold executeSwarmTask. rewrite H.
    destruct (ActiveSwarm.coordination_pattern swarm) as [[]|]; try discriminate.
    + apply auction_task_no_Error.
    + apply consensus_task_no_Error.
  - split; [exact H|]. unfold executeSwarmTask. now rewrite H.
Qed.

End Runs.

(** ** Concrete runs *)

Import Scenario.

#[local] Abbreviation run_task := (executeSwarmTask numberToString serialize).

Lemma half_draws : unit_draws draws.
Proof. intros i. split; reflexivity. Defined.

Lemma manager_in_range pattern agents :
  expertise_in_range (consensus_engine (manager pattern agents)) /\
  weights_in_range (consensus_engine (manager pattern agents)).
Proof. split; apply map_Forall_empty. Defined.

Lemma manager_swarm pattern agents :
  active_swarms (manager pattern agents) !! "s" = Some (swarm pattern agents).
Proof.
  unfold manager, createSwarm, bind, validateSwarmConfiguration, ret. cbn.
  rewrite lookup_insert_eq. unfold swarm, initializeAgents. now rewrite map_id.
Defined.

(** The bids collected from two agents. *)
Lemma collected_bids_in_model_witness :
  let bids := collectAgentBids (swarm auction_based ["a"; "b"]) (task Js.Null) draws in
  unit_draws draws /\
  map AgentBid.agentId bids = ["a"; "b"] /\
  Forall bid_in_model bids.
Proof.
  cbv zeta. split; [exact half_draws|].
  destruct (collected_bids_in_model (swarm auction_based ["a"; "b"]) (task Js.Null) draws
              half_draws) as [H1 H2].
  split; [exact H1|]. revert H2. apply List.Forall_impl. intros bid H. exact (proj1 H).
Defined.

(** An auction-based swarm of two agents. *)
Lemma auction_task_goes_to_the_best_bidder_witness :
  let s := manager auction_based ["a"; "b"] in
  let swarm := swarm auction_based ["a"; "b"] in
  active_swarms s !! "s" = Some swarm /\
  ActiveSwarm.coordination_pattern swarm = Some auction_based /\
  ActiveSwarm.agents swarm <> [] /\
  unit_draws draws /\
  expertise_in_range (consensus_engine s) /\ weights_in_range (consensus_engine s) /\
  exists r winner s',
    run_task "s" (task Js.Null) 0 draws s = (Js.Returned r, s') /\
    first_max (bidScore s swarm) (collectAgentBids swarm (task Js.Null) draws) winner /\
    SwarmResult.agentId r = Some (AgentBid.agentId winner) /\
    expertise_in_range (consensus_engine s').
Proof.
  cbv zeta.
  pose proof (manager_swarm auction_based ["a"; "b"]) as Hl.
  assert (Hp : ActiveSwarm.coordination_pattern (swarm auction_based ["a"; "b"])
               = Some auction_based) by reflexivity.
  assert (Hne : ActiveSwarm.agents (swarm auction_based ["a"; "b"]) <> []) by discriminate.
  destruct (manager_in_range auction_based ["a"; "b"]) as [He Hw].
  split; [exact Hl|]. split; [exact Hp|]. split; [exact Hne|].
  split; [exact half_draws|]. split; [exact He|]. split; [exact Hw|].
  destruct (auction_task_goes_to_the_best_bidder numberToString serialize "s" _
              (task Js.Null) 0 draws _ Hl Hp Hne half_draws He Hw)
    as (r & winner & c & s2 & H1 & H2 & H3 & _ & _ & _ & _ & _ & H9 & _).
  exists r, winner, s2. split; [exact H1|]. split; [exact H2|]. split; [exact H3 | exact H9].
Defined.

(** An auction-based swarm without agents, on a fresh manager. *)
Lemma auction_without_agents_trains_default_witness :
  let s := manager auction_based [] in
  let swarm := swarm auction_based [] in
  active_swarms s !! "s" = Some swarm /\
  ActiveSwarm.coordination_pattern swarm = Some auction_based /\
  ActiveSwarm.agents swarm = [] /\
  exists r s',
    run_task "s" (task Js.Null) 0 draws s = (Js.Returned r, s') /\
    SwarmResult.agentId r = Some "default" /\
    Engine.agentExpertise (consensus_engine s') !! "default" = Some 0.4%float.
Proof.
  cbv zeta.
  pose proof (manager_swarm auction_based []) as Hl.
  assert (Hp : ActiveSwarm.coordination_pattern (swarm auction_based []) = Some auction_based)
    by reflexivity.
  assert (Ha : ActiveSwarm.agents (swarm auction_based []) = []) by reflexivity.
  split; [exact Hl|]. split; [exact Hp|]. split; [exact Ha|].
  destruct (auction_without_agents_trains_default numberToString serialize "s" _
              (task Js.Null) 0 draws _ Hl Hp Ha)
    as (r & s' & H1 & H2 & _ & _ & _ & H6).
  exists r, s'. split; [exact H1|]. split; [exact H2|]. apply H6. reflexivity.
Defined.

(** A consensus-driven swarm: a task without payload, and a small task for
    a swarm without agents. *)
Lemma consensus_driven_task_failures_witness :
  let s := manager consensus_driven [] in
  let swarm := swarm consensus_driven [] in
  active_swarms s !! "s" = Some swarm /\
  ActiveSwarm.coordination_pattern swarm = Some consensus_driven /\
  graded serialize (task Js.Null) simple /\
  run_task "s" (task Js.Undefined) 0 draws s =
    (Js.Thrown (Js.TypeError "Cannot read properties of undefined (reading 'length')"), s) /\
  run_task "s" (task Js.Null) 0 draws s =
    (Js.Thrown (Js.TypeError "Reduce of empty array with no initial value"), s).
Proof.
  cbv zeta.
  pose proof (manager_swarm consensus_driven []) as Hl.
  assert (Hp : ActiveSwarm.coordination_pattern (swarm consensus_driven [])
               = Some consensus_driven) by reflexivity.
  assert (Hg : graded serialize (task Js.Null) simple).
  { split; [discriminate|]. cbn. lia. }
  split; [exact Hl|]. split; [exact Hp|]. split; [exact Hg|]. split.
  - exact (proj1 (consensus_driven_task_failures numberToString serialize "s" _
                    (task Js.Undefined) 0 draws _ Hl Hp) eq_refl).
  - exact (proj2 (consensus_driven_task_failures numberToString serialize "s" _
                    (task Js.Null) 0 draws _ Hl Hp) Hg eq_refl).
Defined.

(** A small task for a consensus-driven swarm of three agents. *)
Lemma simple_task_goes_to_the_top_expert_witness :
  let s := manager consensus_driven ["a"; "b"; "c"] in
  let swarm := swarm consensus_driven ["a"; "b"; "c"] in
  active_swarms s !! "s" = Some swarm /\
  ActiveSwarm.coordination_pattern swarm = Some consensus_driven /\
  graded serialize (task Js.Null) simple /\
  ActiveSwarm.agents swarm <> [] /\
  expertise_in_range (consensus_engine s) /\ weights_in_range (consensus_engine s) /\
  exists top,
    run_task "s" (task Js.Null) 0 draws s =
      (Js.Returned
         (executeWithSingleExpert (if String.eqb top "" then "default_agent" else top)
            (task Js.Null)),
       s).
Proof.
  cbv zeta.
  pose proof (manager_swarm consensus_driven ["a"; "b"; "c"]) as Hl.
  assert (Hp : ActiveSwarm.coordination_pattern (swarm consensus_driven ["a"; "b"; "c"])
               = Some consensus_driven) by reflexivity.
  assert (Hg : graded serialize (task Js.Null) simple).
  { split; [discriminate|]. cbn. lia. }
  assert (Hne : ActiveSwarm.agents (swarm consensus_driven ["a"; "b"; "c"]) <> [])
    by discriminate.
  destruct (manager_in_range consensus_driven ["a"; "b"; "c"]) as [He Hw].
  split; [exact Hl|]. split; [exact Hp|]. split; [exact Hg|]. split; [exact Hne|].
  split; [exact He|]. split; [exact Hw|].
  destruct (simple_task_goes_to_the_top_expert numberToString serialize "s" _
              (task Js.Null) 0 draws _ Hl Hp Hg Hne He Hw) as (top & _ & H).
  exists top. exact H.
Defined.

(** A task of moderate size for a consensus-driven swarm of four agents. *)
Lemma moderate_task_names_the_top_expert_witness :
  let s := manager consensus_driven ["a"; "b"; "c"; "d"] in
  let swarm := swarm consensus_driven ["a"; "b"; "c"; "d"] in
  active_swarms s !! "s" = Some swarm /\
  ActiveSwarm.coordination_pattern swarm = Some consensus_driven /\
  graded serialize (task (nulls 30)) moderate /\
  unit_draws draws /\
  expertise_in_range (consensus_engine s) /\ weights_in_range (consensus_engine s) /\
  exists r d top others,
    run_task "s" (task (nulls 30)) 0 draws s =
      (Js.Returned r,
       {| active_swarms := active_swarms s;
          consensus_engine := recorded (consensus_engine s) d |}) /\
    SwarmResult.agentId r = Some top /\
    SwarmDecision.participatingAgents d = top :: others /\
    length others = 2%nat /\
    exists a, In a (top :: others) /\
      SwarmDecision.decision d = Js.Str ("Proposal from agent " ++ a).
Proof.
  cbv zeta.
  pose proof (manager_swarm consensus_driven ["a"; "b"; "c"; "d"]) as Hl.
  assert (Hp : ActiveSwarm.coordination_pattern (swarm consensus_driven ["a"; "b"; "c"; "d"])
               = Some consensus_driven) by reflexivity.
  assert (Hg : graded serialize (task (nulls 30)) moderate).
  { split; [discriminate|]. vm_compute. split; lia. }
  destruct (manager_in_range consensus_driven ["a"; "b"; "c"; "d"]) as [He Hw].
  split; [exact Hl|]. split; [exact Hp|]. split; [exact Hg|]. split; [exact half_draws|].
  split; [exact He|]. split; [exact Hw|].
  pose proof (moderate_task_names_the_top_expert numberToString serialize "s" _
                (task (nulls 30)) 0 draws _ Hl Hp Hg half_draws He Hw) as H.
  cbv zeta in H. cbn [ActiveSwarm.agents swarm map] in H.
  destruct H as (r & d & top & others & H1 & _ & H3 & _ & _ & H6 & H7 & H8 & _).
  exists r, d, top, others. split; [exact H1|]. split; [exact H3|]. split; [exact H6|].
  split; [exact H7 | exact H8].
Defined.

(** A large task for a consensus-driven swarm of two agents. *)
Lemma complex_task_is_peer_reviewed_witness :
  let s := manager consensus_driven ["a"; "b"] in
  let swarm := swarm consensus_driven ["a"; "b"] in
  active_swarms s !! "s" = Some swarm /\
  ActiveSwarm.coordination_pattern swarm = Some consensus_driven /\
  graded serialize (task (nulls 300)) complex /\
  exists r review,
    run_task "s" (task (nulls 300)) 0 draws s = (Js.Returned r, s) /\
    SwarmResult.consensusInfo_ r = Reviewed review /\
    length (PeerReview.feedback review) = 2%nat.
Proof.
  cbv zeta.
  pose proof (manager_swarm consensus_driven ["a"; "b"]) as Hl.
  assert (Hp : ActiveSwarm.coordination_pattern (swarm consensus_driven ["a"; "b"])
               = Some consensus_driven) by reflexivity.
  assert (Hg : graded serialize (task (nulls 300)) complex).
  { split; [discriminate|]. vm_compute. lia. }
  split; [exact Hl|]. split; [exact Hp|]. split; [exact Hg|].
  destruct (complex_task_is_peer_reviewed numberToString serialize "s" _
              (task (nulls 300)) 0 draws _ Hl Hp Hg)
    as (r & review & H1 & H2 & _ & _ & H5 & _).
  exists r, review. split; [exact H1|]. split; [exact H2 | exact H5].
Defined.

(** A run that creates three swarms and gives each of them tasks. *)
Lemma manager_stays_well_kept_witness :
  let calls :=
    [CreateSwarm 0 (config "auction" auction_based ["a"; "b"] (Some "japan_tokyo"));
     CreateSwarm 1 (config "consensus" consensus_driven ["a"; "b"; "c"; "d"] None);
     CreateSwarm 2 (config "" hybrid [] None);
     ExecuteSwarmTask "auction" (task Js.Null) 3 draws;
     ExecuteSwarmTask "auction" (task Js.Undefined) 4 draws;
     ExecuteSwarmTask "consensus" (task (nulls 30)) 5 draws;
     ExecuteSwarmTask "consensus" (task Js.Undefined) 6 draws;
     ExecuteSwarmTask "nowhere" (task Js.Null) 7 draws;
     ReadMetrics] in
  Forall draws_in_unit calls /\
  well_kept (run numberToString serialize calls create).
Proof.
  cbv zeta.
  assert (Hc : Forall draws_in_unit
    [CreateSwarm 0 (config "auction" auction_based ["a"; "b"] (Some "japan_tokyo"));
     CreateSwarm 1 (config "consensus" consensus_driven ["a"; "b"; "c"; "d"] None);
     CreateSwarm 2 (config "" hybrid [] None);
     ExecuteSwarmTask "auction" (task Js.Null) 3 draws;
     ExecuteSwarmTask "auction" (task Js.Undefined) 4 draws;
     ExecuteSwarmTask "consensus" (task (nulls 30)) 5 draws;
     ExecuteSwarmTask "consensus" (task Js.Undefined) 6 draws;
     ExecuteSwarmTask "nowhere" (task Js.Null) 7 draws;
     ReadMetrics]).
  { repeat (constructor; [first [exact I | exact half_draws]|]). constructor. }
  split; [exact Hc|].
  exact (proj1 (manager_stays_well_kept numberToString serialize _ Hc)).
Defined.

End SwarmManagerProps.
(* ===================================================================== *)
(** * Part VIII: agent selection, assignment and distributed tasks *)
(* ===================================================================== *)

Module ManagerTasksProps.
Import Spec ManagerTasks TasksSpec.
Local Open Scope string_scope.

(** ** Round robin *)

Lemma round_robin_member s first rest :
  exists a, selectRoundRobin s (first :: rest) = Some a /\ In a (first :: rest).
Proof.
  unfold selectRoundRobin.
  destruct (lookup_lt_is_Some_2 (first :: rest)
              (totalTasksCompleted s mod length (first :: rest))) as [a Ha].
  { apply Nat.mod_upper_bound. discriminate. }
  exists a. split; [exact Ha|]. apply list_elem_of_In. eapply list_elem_of_lookup_2; eauto.
Qed.

(** Round robin gives the tasks to the agents in turn: with [k] rounds and
    [i] more tasks completed it selects the agent at position [i]; it always
    selects one of the agents given, and none ([undefined], without an
    error) when no agent is given. *)
Theorem round_robin_takes_turns s :
  selectRoundRobin s [] = None /\
  (forall first rest, exists a,
     selectRoundRobin s (first :: rest) = Some a /\ In a (first :: rest)) /\
  (forall agentIds k i a,
     agentIds !! i = Some a ->
     totalTasksCompleted s = k * length agentIds + i ->
     selectRoundRobin s agentIds = Some a).
Proof.
  split; [reflexivity|]. split; [apply round_robin_member|].
  intros agentIds k i a Ha Ht. pose proof (lookup_lt_Some _ _ _ Ha) as Hi.
  unfold selectRoundRobin. destruct agentIds as [|first rest]; [discriminate|].
  rewrite Ht, Nat.add_comm, Nat.Div0.mod_add, Nat.mod_small by assumption. exact Ha.
Qed.

(** ** Least loaded *)

Section LeastLoaded.
Variable s : state.

#[local] Abbreviation load := (workloadOf s).

#[local] Abbreviation scan :=
  (fun '(leastLoadedAgent, minWorkload) agentId =>
     match agents s !! agentId with
     | Some agent =>
         if (workload agent <? minWorkload)%float
         then (agentId, workload agent)
         else (leastLoadedAgent, minWorkload)
     | None => (leastLoadedAgent, minWorkload)
     end).

Lemma least_loaded_member l : forall (acc : string * float),
  In (fst (fold_left scan l acc)) (fst acc :: l).
Proof.
  induction l as [|x l IH]; intros [b m]; cbn [fold_left]; [now left|].
  destruct (agents s !! x) as [agent|].
  - destruct (workload agent <? m)%float.
    + right. apply (IH (x, workload agent)).
    + destruct (IH (b, m)) as [H|H]; [now left | right; now right].
  - destruct (IH (b, m)) as [H|H]; [now left | right; now right].
Qed.

Lemma least_loaded_scan rest : forall seen b,
  first_min load seen b ->
  (forall y, In y (seen ++ rest) -> is_Some (agents s !! y) /\ is_nan (load y) = false) ->
  first_min load (seen ++ rest) (fst (fold_left scan rest (b, load b))).
Proof.
  induction rest as [|x rest IH]; intros seen b Hb Hr; cbn [fold_left].
  - now rewrite app_nil_r.
  - replace (seen ++ x :: rest)%list with ((seen ++ [x]) ++ rest)%list in *
      by (rewrite <- app_assoc; reflexivity).
    assert (Hx : is_Some (agents s !! x) /\ is_nan (load x) = false).
    { apply Hr. apply in_or_app. left. apply in_or_app. right. now left. }
    destruct Hx as [[agent Ea] Nx].
    assert (Lx : load x = workload agent) by (unfold workloadOf; now rewrite Ea).
    assert (Nb : is_nan (load b) = false).
    { apply Hr. destruct Hb as (l1 & l2 & -> & _).
      apply in_or_app. left. apply in_or_app. left. apply in_or_app. right. now left. }
    rewrite Ea, <- Lx.
    destruct Hb as (l1 & l2 & -> & H1 & H2).
    destruct (load x <? load b)%float eqn:E.
    + apply IH; [|assumption].
      exists (l1 ++ b :: l2)%list, []. split; [reflexivity|]. split; [|intros ? []].
      intros y Hy. apply in_app_or in Hy. destruct Hy as [Hy|[<-|Hy]].
      * apply F64.ltb_trans with (load b); [assumption | now apply H1].
      * assumption.
      * apply F64.ltb_leb_trans with (load b); [assumption | now apply H2].
    + apply IH; [|assumption].
      exists l1, (l2 ++ [x])%list. split; [now rewrite <- app_assoc|]. split; [assumption|].
      intros y Hy. apply in_app_or in Hy. destruct Hy as [Hy|[<-|[]]]; [now apply H2|].
      now apply F64.leb_total.
Qed.

Lemma least_loaded_is_first_min_member first rest :
  exists a, selectLeastLoaded s (first :: rest) = Js.Returned a /\ In a (first :: rest).
Proof.
  eexists. split; [reflexivity|].
  pose proof (least_loaded_member (first :: rest) (first, workloadOf s first)) as H.
  cbn [fst] in H. destruct H as [H|H]; [left; exact H | exact H].
Qed.

(** [selectLeastLoaded] returns one of the agents given; when they are all
    registered with workloads that are numbers, it is the earliest agent of
    minimal workload. *)
Theorem least_loaded_is_first_min first rest :
  exists a,
    selectLeastLoaded s (first :: rest) = Js.Returned a /\
    In a (first :: rest) /\
    ((forall y, In y (first :: rest) ->
        is_Some (agents s !! y) /\ is_nan (workloadOf s y) = false) ->
     first_min (workloadOf s) (first :: rest) a).
Proof.
  eexists. split; [reflexivity|]. split.
  - pose proof (least_loaded_member (first :: rest) (first, workloadOf s first)) as H.
    cbn [fst] in H. destruct H as [H|H]; [left; exact H | exact H].
  - intros Hr. destruct (Hr first (or_introl eq_refl)) as [[agent Ea] Nf].
    cbn [fold_left]. fold (workloadOf s first).
    assert (Lf : workloadOf s first = workload agent) by (unfold workloadOf; now rewrite Ea).
    rewrite Ea, <- Lf, F64.ltb_irrefl.
    apply (least_loaded_scan rest [first] first); [|exact Hr].
    exists [], []. repeat split; intros ? [].
Qed.

End LeastLoaded.

(** ** Capability based *)

Lemma capabilityScore_count agent required :
  capabilityScore agent required =
  length (List.filter (Manager.includes (availableCapabilities agent)) required).
Proof.
  unfold capabilityScore.
  assert (H : forall n,
    fold_left
      (fun score capability =>
         if Manager.includes (availableCapabilities agent) capability then score + 1 else score)
      required n
    = n + length (List.filter (Manager.includes (availableCapabilities agent)) required)).
  { induction required as [|c required IH]; intros n; cbn [fold_left List.filter]; [cbn; lia|].
    rewrite IH. destruct (Manager.includes (availableCapabilities agent) c); cbn [length]; lia. }
  apply (H 0).
Qed.

Section Capability.
Variable s : state.
Variable required : list string.

#[local] Abbreviation count := (capabilityCount s required).

#[local] Abbreviation scan :=
  (fun '(bestAgent, maxCapabilityScore) agentId =>
     match agents s !! agentId with
     | None => (bestAgent, maxCapabilityScore)
     | Some agent =>
         let capabilityScore := capabilityScore agent required in
         if (maxCapabilityScore <? capabilityScore)%nat
         then (agentId, capabilityScore)
         else (bestAgent, maxCapabilityScore)
     end).

Lemma capability_step (b : string) (m : nat) x :
  scan (b, m) x = if (m <? count x)%nat then (x, count x) else (b, m).
Proof.
  unfold capabilityCount. destruct (agents s !! x) as [agent|].
  - cbv zeta. now rewrite capabilityScore_count.
  - now destruct m.
Qed.

Lemma capability_scan rest : forall seen b,
  first_most count seen b ->
  first_most count (seen ++ rest) (fst (fold_left scan rest (b, count b))).
Proof.
  induction rest as [|x rest IH]; intros seen b Hb; cbn [fold_left].
  - now rewrite app_nil_r.
  - replace (seen ++ x :: rest)%list with ((seen ++ [x]) ++ rest)%list
      by (rewrite <- app_assoc; reflexivity).
    rewrite capability_step. destruct (Nat.ltb_spec (count b) (count x)) as [Hlt|Hge].
    + apply IH. exists seen, []. split; [reflexivity|]. split; [|intros ? []].
      intros y Hy. pose proof (MapFacts.first_most_all count seen b y Hb Hy). lia.
    + apply IH. destruct Hb as (l1 & l2 & -> & H1 & H2).
      exists l1, (l2 ++ [x])%list. split; [now rewrite <- app_assoc|]. split; [assumption|].
      intros y Hy. apply in_app_or in Hy. destruct Hy as [Hy|[<-|[]]]; auto.
Qed.

Lemma capability_selection_member first rest :
  exists a, selectByCapability s (first :: rest) required = Js.Returned a /\ In a (first :: rest).
Proof.
  eexists. split; [reflexivity|].
  cbn [fold_left]. rewrite capability_step.
  assert (E : (if (0 <? count first)%nat then (first, count first) else (first, 0))
              = (first, count first)).
  { destruct (Nat.ltb_spec 0 (count first)); [reflexivity|]. f_equal. lia. }
  rewrite E.
  pose proof (capability_scan rest [first] first) as H.
  cbn [app] in H. specialize (H ltac:(exists [], []; repeat split; intros ? [])).
  destruct H as (l1 & l2 & -> & _). apply in_or_app. right. now left.
Qed.

(** [selectByCapability] returns the earliest of the agents that have the
    most of the required capabilities, an agent that is not registered
    counting as having none: so the first agent given when no agent has
    any. *)
Theorem capability_selection_is_first_most first rest :
  exists a,
    selectByCapability s (first :: rest) required = Js.Returned a /\
    first_most (capabilityCount s required) (first :: rest) a /\
    ((forall y, In y (first :: rest) -> capabilityCount s required y = 0) -> a = first).
Proof.
  eexists. split; [reflexivity|].
  cbn [fold_left]. rewrite capability_step.
  assert (E : (if (0 <? count first)%nat then (first, count first) else (first, 0))
              = (first, count first)).
  { destruct (Nat.ltb_spec 0 (count first)); [reflexivity|]. f_equal. lia. }
  rewrite E.
  pose proof (capability_scan rest [first] first) as H.
  cbn [app] in H. specialize (H ltac:(exists [], []; repeat split; intros ? [])).
  remember (fst (fold_left scan rest (first, count first))) as a eqn:Ea. clear Ea.
  split; [exact H|].
  intros Hz. destruct H as (l1 & l2 & El & H1 & _).
  destruct l1 as [|z l1]; [injection El as E1 _; exact (eq_sym E1)|].
  exfalso. injection El as <- El.
  specialize (H1 first (or_introl eq_refl)).
  rewrite (Hz a) in H1; [lia|].
  rewrite El. right. apply in_or_app. right. now left.
Qed.

End Capability.

(** ** Assignment *)

(** The keys of the score table of [selectIntelligently] are agents of the
    list. *)
Lemma collectScores_keys (r : Manager.state) task ids : forall acc k,
  In k (map fst
          (fold_left
             (fun scores agentId =>
                match Manager.agents r !! agentId, Manager.agentNetworks r !! agentId with
                | Some agent, Some network =>
                    Js.map_set agentId (Manager.agentScore agent network task) scores
                | _, _ => scores
                end)
             ids acc)) ->
  In k (map fst acc) \/ In k ids.
Proof.
  induction ids as [|x ids IH]; intros acc k Hk; cbn [fold_left] in Hk; [now left|].
  apply IH in Hk. destruct Hk as [Hk|Hk]; [|right; now right].
  destruct (Manager.agents r !! x) as [agent|]; [|now left].
  destruct (Manager.agentNetworks r !! x) as [network|]; [|now left].
  rewrite MapFacts.map_set_keys in Hk.
  destruct (in_dec string_dec x (map fst acc)); [now left|].
  apply in_app_or in Hk. destruct Hk as [Hk|[<-|[]]]; [now left | right; now left].
Qed.

Lemma best_of_scan (scores : list (string * float)) : forall (acc : string * float),
  In (fst (fold_left
             (fun '(bestAgent, maxScore) '(agentId, score) =>
                if Js.gt score maxScore then (agentId, score) else (bestAgent, maxScore))
             scores acc))
     (fst acc :: map fst scores).
Proof.
  induction scores as [|[k v] scores IH]; intros [b m]; cbn [fold_left map fst]; [now left|].
  destruct (Js.gt v m).
  - right. apply (IH (k, v)).
  - destruct (IH (b, m)) as [H|H]; [now left | right; now right].
Qed.

(** Whatever the scores are, the intelligent strategy returns one of the
    agents given. *)
Lemma selectIntelligently_member (r : Manager.state) first rest task :
  exists best,
    Manager.selectIntelligently r (first :: rest) task = Js.Returned best /\
    In best (first :: rest).
Proof.
  eexists. split; [reflexivity|].
  match goal with
  | |- In (fst (fold_left _ ?scores ?acc)) _ =>
      destruct (best_of_scan scores acc) as [H|H]
  end.
  - left. exact H.
  - unfold Manager.collectScores in H. apply collectScores_keys in H.
    destruct H as [[]|H]. exact H.
Qed.

Section Assignment.
Variable findEligibleAgents : state -> list string -> list string.

(** An individual task is assigned to at most one agent, and only to an
    agent that is eligible and whose id is not empty, whatever the strategy;
    the assignment never fails, and it is empty when no agent is eligible. *)
Theorem assignment_picks_an_eligible_agent s task :
  exists assigned,
    assignIndividualTask findEligibleAgents s task = Js.Returned assigned /\
    (assigned = [] \/
     exists a, assigned = [a] /\ a <> "" /\
               In a (findEligibleAgents s (requiredCapabilities task))) /\
    (findEligibleAgents s (requiredCapabilities task) = [] -> assigned = []) /\
    (loadBalancingStrategy s = auction_based ->
     assigned = selection (head (findEligibleAgents s (requiredCapabilities task)))).
Proof.
  unfold assignIndividualTask.
  destruct (findEligibleAgents s (requiredCapabilities task)) as [|first rest] eqn:Ee.
  { exists []. repeat split. now left. }
  assert (Hsel : forall a, In a (first :: rest) ->
    selection (Some a) = [] \/
    exists a', selection (Some a) = [a'] /\ a' <> "" /\ In a' (first :: rest)).
  { intros a Ha. unfold selection. destruct (String.eqb_spec a "") as [->|Hne]; [now left|].
    right. now exists a. }
  destruct (loadBalancingStrategy s) eqn:Es.
  - destruct (round_robin_member s first rest) as (a & -> & Ha).
    eexists. split; [reflexivity|]. split; [now apply Hsel|]. split; discriminate.
  - destruct (least_loaded_is_first_min_member s first rest) as (a & -> & Ha).
    eexists. split; [reflexivity|]. split; [now apply Hsel|]. split; discriminate.
  - destruct (capability_selection_member s (requiredCapabilities task) first rest)
      as (a & -> & Ha).
    eexists. split; [reflexivity|]. split; [now apply Hsel|]. split; discriminate.
  - destruct (selectIntelligently_member (registry s) first rest
                {| Manager.requiredCapabilities := requiredCapabilities task |})
      as (a & -> & Ha).
    eexists. split; [reflexivity|]. split; [now apply Hsel|]. split; discriminate.
  - eexists. split; [reflexivity|]. split; [apply Hsel; now left|]. split; [discriminate|].
    reflexivity.
Qed.

End Assignment.

(** ** Distributed tasks *)

Section Distributed.
Variable V : Type.
Variable subtaskPayload : Js.value -> nat -> string -> Js.value.
Variable executeTask : string -> SwarmTask -> Js.outcome AgentResult.
Variable validateSwarmDecision : string -> string -> Js.outcome V.
Variable validationError : Js.error -> string -> V.
Variable validationSkipped : V.
Variable updateMetrics : state -> state.
Variable numberToString : float -> string.

#[local] Abbreviation decompose := (decomposeTask subtaskPayload).

#[local] Abbreviation distribute :=
  (executeDistributedTask V subtaskPayload executeTask validateSwarmDecision validationError
     validationSkipped updateMetrics numberToString).

Lemma unassigned_subtasks_are_skipped s subtasks :
  Forall (fun subtask => assignedAgents subtask = []) subtasks ->
  runSubtasks executeTask s subtasks = [].
Proof.
  unfold runSubtasks. generalize (@nil AgentResult).
  induction subtasks as [|t subtasks IH]; intros acc H; cbn [fold_left].
  - reflexivity.
  - apply Forall_cons in H. destruct H as [Ht H]. rewrite Ht. cbn [head]. now apply IH.
Qed.

Lemma decomposed_unassigned now task :
  Forall (fun subtask => assignedAgents subtask = [] /\ status subtask = "pending")
    (decompose now task).
Proof.
  apply List.Forall_forall. intros t Ht.
  apply list_elem_of_In, elem_of_lookup_imap_1 in Ht. destruct Ht as (i & c & -> & _).
  split; reflexivity.
Qed.

(** A distributed task runs none of its subtasks: [decomposeTask] makes one
    subtask for each required capability and assigns no agent to any of
    them, so the loop of [executeDistributedTask] skips them all, whatever
    the agents are; the task is reported as completed with no subtask result,
    the empty text as its result and a confidence of [0 / 0], that is NaN.
    Without an assigned agent the task is refused. *)
Theorem distributed_task_runs_no_subtask now task s :
  match assignedAgents task with
  | [] =>
      distribute now task s =
        (Js.Thrown (Js.Error "No agents assigned to distributed task"), status task, s)
  | _ :: _ =>
      exists aggregate,
        distribute now task s =
          (Js.Returned aggregate, "completed",
           updateMetrics
             (emit (task_completed (id task) (assignedAgents task))
                (emit (task_started (id task) (assignedAgents task)) s))) /\
        length (decompose now task) = length (requiredCapabilities task) /\
        Forall (fun subtask => assignedAgents subtask = [] /\ status subtask = "pending")
          (decompose now task) /\
        subtaskResults aggregate = [] /\
        aggregated aggregate = "" /\
        is_nan (aggregateConfidence aggregate) = true
  end.
Proof.
  unfold executeDistributedTask.
  destruct (assignedAgents task) as [|a assigned]; [reflexivity|].
  cbv zeta.
  rewrite unassigned_subtasks_are_skipped.
  2:{ eapply List.Forall_impl; [|apply decomposed_unassigned]. cbv beta. tauto. }
  eexists. split; [reflexivity|].
  split; [apply length_imap|]. split; [apply decomposed_unassigned|].
  destruct (cultural_context task) as [c|]; [|repeat split].
  destruct (negb (String.eqb c "") && culturalIntelligence _); repeat split.
Qed.

End Distributed.

Section Collaboration.
Variable result : Type.
Variable stringify : result -> Js.outcome (option string).
Variable parse : string -> Js.outcome result.
Variable V : Type.
Variable executeTask : string -> SwarmTask -> Js.outcome result.
Variable validateSwarmDecision : option result -> string -> Js.outcome V.
Variable validationError : Js.error -> option result -> V.
Variable validationSkipped : V.
Variable updateMetrics : state -> state.

#[local] Abbreviation collaborate :=
  (Collaborative.executeCollaborativeTask result stringify parse V executeTask
     validateSwarmDecision validationError validationSkipped updateMetrics).

Lemma askAgents_from s task (asked : list string) (acc : list result) :
  fold_left
    (fun results agentId =>
       match agents s !! agentId with
       | Some _ =>
           match executeTask agentId (Collaborative.asked task agentId) with
           | Js.Returned result => (results ++ [result])%list
           | Js.Thrown _ => results
           end
       | None => results
       end)
    asked acc =
  (acc ++ omap
     (fun agentId =>
        match agents s !! agentId with
        | Some _ => Js.returned (executeTask agentId (Collaborative.asked task agentId))
        | None => None
        end)
     asked)%list.
Proof.
  revert acc. induction asked as [|a l IH]; intros acc; simpl.
  - now rewrite app_nil_r.
  - rewrite IH. destruct (agents s !! a); [|reflexivity].
    destruct (executeTask a (Collaborative.asked task a)); simpl; [|reflexivity].
    now rewrite <- app_assoc.
Qed.

Lemma askAgents_answers s task :
  Collaborative.askAgents result executeTask s task = answers executeTask s task.
Proof. unfold Collaborative.askAgents, answers. now rewrite askAgents_from. Qed.

Lemma answers_length s task :
  length (answers executeTask s task) <= length (assignedAgents task).
Proof.
  unfold answers. induction (assignedAgents task) as [|a l IH]; [reflexivity|].
  cbn [omap list_omap length].
  destruct (agents s !! a);
    [destruct (Js.returned (executeTask a (Collaborative.asked task a)))|];
    cbn [length]; lia.
Qed.

(** A collaborative task needs an answer.  Without an assigned agent it is
    refused and nothing happens.  Otherwise its fate is that of
    [applyConsensus] on the answers given, those of the assigned agents that
    are registered and return: an agent that throws does not fail the task by
    itself.  When [applyConsensus] returns, the task is marked 'completed'
    with that consensus; when it throws, the task is marked 'failed',
    'task:failed' is emitted with the error, and the error is thrown again.
    It throws when no agent answers; it returns the answer itself, at
    agreement 1.0, when there is only one; and it returns whenever every
    answer has a JSON text that can be read back. *)
Theorem collaborative_task_needs_an_answer task s :
  let started := emit (task_started (id task) (assignedAgents task)) s in
  let given := answers executeTask s task in
  match assignedAgents task with
  | [] =>
      collaborate task s =
        (Js.Thrown (Js.Error "No agents assigned to collaborative task"), status task, s)
  | _ :: _ =>
      length given <= length (assignedAgents task) /\
      match Manager.applyConsensus result stringify parse given with
      | Js.Thrown error =>
          collaborate task s =
            (Js.Thrown error, "failed",
             updateMetrics (emit (task_failed (id task) (assignedAgents task) error) started))
      | Js.Returned agreed =>
          exists c,
            collaborate task s =
              (Js.Returned c, "completed",
               updateMetrics (emit (task_completed (id task) (assignedAgents task)) started)) /\
            Collaborative.consensus c = agreed /\
            (Collaborative.culturalValidation c = None <->
             match cultural_context task with
             | Some context => negb (String.eqb context "") && culturalIntelligence s = false
             | None => True
             end)
      end /\
      (given = [] ->
       Manager.applyConsensus result stringify parse given =
         Js.Thrown (Js.Error "No results to apply consensus to")) /\
      (forall only, given = [only] ->
       Manager.applyConsensus result stringify parse given =
         Js.Returned {| Manager.decision := Some only; Manager.agreementLevel := 1.0;
                        Manager.confidence := 1.0; Manager.dissentingOpinions := [] |}) /\
      (forall text, given <> [] -> serializable stringify parse text given ->
       exists agreed, Manager.applyConsensus result stringify parse given = Js.Returned agreed)
  end.
Proof.
  cbv zeta. pose proof (answers_length s task) as Hlen.
  pose proof (askAgents_answers (emit (task_started (id task) (assignedAgents task)) s) task)
    as Hask.
  change (answers executeTask (emit (task_started (id task) (assignedAgents task)) s) task)
    with (answers executeTask s task) in Hask.
  unfold Collaborative.executeCollaborativeTask.
  destruct (assignedAgents task) as [|a0 l0] eqn:Ea; [reflexivity|].
  rewrite <- Ea in *. rewrite Hask.
  split; [exact Hlen|]. split; [|split; [|split]].
  - destruct (Manager.applyConsensus result stringify parse (answers executeTask s task))
      as [agreed|error]; rewrite Ea; [|reflexivity].
    eexists. split; [reflexivity|].
    cbn [Collaborative.consensus Collaborative.culturalValidation].
    split; [reflexivity|].
    destruct (cultural_context task) as [context|]; [|tauto].
    cbn [emit culturalIntelligence].
    destruct (negb (String.eqb context "") && culturalIntelligence s); split; intros H;
      first [reflexivity | discriminate H].
  - intros ->. reflexivity.
  - intros only ->. reflexivity.
  - intros text Hne Hs.
    exact (ManagerProps.applyConsensus_returns result stringify parse text _ Hne Hs).
Qed.

End Collaboration.

End ManagerTasksProps.
